(** * Holistic Mobile Auditor: the parsing core of [auditor_unified.py]

    A shallow embedding of the text and byte parsers of the auditor
    ([extract_strings_from_bytes], [get_app_links_state],
    [analyze_security_posture], [parse_ls_output], [read_file_content])
    together with the parts of the Python runtime they call: [str]
    methods, the [re] matcher, the UTF-8 codec and [base64]. *)

From Stdlib Require Import String Ascii DecimalString Strings.Byte.
From Stdlib Require Import ZArith List Bool Lia Sorted Permutation.
From Stdlib Require DecimalPos DecimalFacts.
Import ListNotations.
Open Scope Z_scope.

(** ** Python [str]: a sequence of code points *)

Definition char := Z.
Definition text := list char.

(** [ord(a)] *)
Definition ord (a : ascii) : char := Z.of_N (N_of_ascii a).

Fixpoint str (s : string) : text :=
  match s with
  | EmptyString => []
  | String a r => ord a :: str r
  end.

(** A Python call that returns a value or raises; the exception keeps
    its message, [str(e)]. *)
Inductive exc (A : Type) : Type :=
| Value (a : A)
| Raised (msg : text).
Arguments Value {A} a.
Arguments Raised {A} msg.

Module Str.

Fixpoint eqb (a b : text) : bool :=
  match a, b with
  | [], [] => true
  | x :: a', y :: b' => (x =? y) && eqb a' b'
  | _, _ => false
  end.

(** [s.startswith(p)] *)
Fixpoint startswith (p s : text) : bool :=
  match p, s with
  | [], _ => true
  | x :: p', y :: s' => (x =? y) && startswith p' s'
  | _ :: _, [] => false
  end.

(** First occurrence of [sep] in [s]: the text before it and the text
    after it ([s.partition(sep)] when [sep] occurs). *)
Fixpoint find (sep s : text) : option (text * text) :=
  if startswith sep s then Some ([], skipn (length sep) s)
  else match s with
       | [] => None
       | c :: s' =>
           match find sep s' with
           | Some (a, b) => Some (c :: a, b)
           | None => None
           end
       end.

(** [sub in s] *)
Definition contains (sub s : text) : bool :=
  match find sub s with Some _ => true | None => false end.

(** [s.split(sep)] for a non-empty [sep]: every step removes at least
    one character, so [length s] rounds are enough. *)
Fixpoint split_fuel (n : nat) (sep s : text) : list text :=
  match n with
  | O => [s]
  | S n' =>
      match find sep s with
      | None => [s]
      | Some (a, b) => a :: split_fuel n' sep b
      end
  end.

Definition split (sep s : text) : list text := split_fuel (length s) sep s.

(** [sep.join(parts)] *)
Fixpoint join (sep : text) (parts : list text) : text :=
  match parts with
  | [] => []
  | [p] => p
  | p :: rest => p ++ sep ++ join sep rest
  end.

(** Lexicographic order on code points, the order of [sorted] on [str]. *)
Fixpoint leb (a b : text) : bool :=
  match a, b with
  | [], _ => true
  | _ :: _, [] => false
  | x :: a', y :: b' => (x <? y) || ((x =? y) && leb a' b')
  end.

End Str.

(** [set(l)]: the distinct elements of [l].  Python leaves the order of a
    set open; the program sorts every set before it uses it. *)
Fixpoint set_of (l : list text) : list text :=
  match l with
  | [] => []
  | x :: l' => if existsb (Str.eqb x) (set_of l') then set_of l' else x :: set_of l'
  end.

(** [sorted(l)] on strings *)
Fixpoint insert (x : text) (l : list text) : list text :=
  match l with
  | [] => [x]
  | y :: l' => if Str.leb x y then x :: l else y :: insert x l'
  end.

Definition sorted (l : list text) : list text := fold_right insert [] l.

(** ** The UTF-8 codec: [bytes.decode('utf-8', errors=...)] *)

Module Utf8.

Definition in_range (r : Z * Z) (b : Z) : bool := (fst r <=? b) && (b <=? snd r).

Definition cont : Z * Z := (0x80, 0xBF).

(** For a lead byte: its payload bits and the ranges the following bytes
    of a well-formed sequence must lie in (Unicode table 3-7). *)
Definition lead (b : Z) : option (Z * list (Z * Z)) :=
  if b <? 0xC2 then None
  else if b <? 0xE0 then Some (Z.land b 0x1F, [cont])
  else if b =? 0xE0 then Some (Z.land b 0x0F, [(0xA0, 0xBF); cont])
  else if b =? 0xED then Some (Z.land b 0x0F, [(0x80, 0x9F); cont])
  else if b <? 0xF0 then Some (Z.land b 0x0F, [cont; cont])
  else if b =? 0xF0 then Some (Z.land b 0x07, [(0x90, 0xBF); cont; cont])
  else if b <? 0xF4 then Some (Z.land b 0x07, [cont; cont; cont])
  else if b =? 0xF4 then Some (Z.land b 0x07, [(0x80, 0x8F); cont; cont])
  else None.

Inductive state :=
| Idle
| Pending (acc : Z) (next : Z * Z) (more : list (Z * Z)).

(** The error handler: what one undecodable byte sequence becomes, or
    [None] when the handler raises ([errors='strict']). *)
Definition handler := option text.

Definition strict : handler := None.
Definition replace : handler := Some [0xFFFD].
Definition ignore : handler := Some [].

(** A byte read at a character boundary. *)
Definition start (b : Z) : option text * state :=
  if b <? 0x80 then (Some [b], Idle)
  else match lead b with
       | Some (acc, r :: rs) => (Some [], Pending acc r rs)
       | _ => (None, Idle)
       end.

Definition emit (h : handler) (o : option text) (k : option text) : option text :=
  match (match o with Some t => Some t | None => h end), k with
  | Some t, Some rest => Some (t ++ rest)
  | _, _ => None
  end.

(** One undecodable sequence is the longest prefix of a well-formed
    sequence (at least the offending byte), and is handled as a unit. *)
Fixpoint run (h : handler) (st : state) (bs : list Z) : option text :=
  match bs with
  | [] => match st with Idle => Some [] | Pending _ _ _ => emit h None (Some []) end
  | b :: rest =>
      match st with
      | Idle => let '(o, st') := start b in emit h o (run h st' rest)
      | Pending acc r rs =>
          if in_range r b then
            let acc' := Z.lor (Z.shiftl acc 6) (Z.land b 0x3F) in
            match rs with
            | [] => emit h (Some [acc']) (run h Idle rest)
            | r' :: rs' => run h (Pending acc' r' rs') rest
            end
          else
            let '(o, st') := start b in
            emit h None (emit h o (run h st' rest))
      end
  end.

Definition byte_val (b : byte) : Z := Z.of_N (Byte.to_N b).

Definition decode (h : handler) (bs : list byte) : option text :=
  run h Idle (map byte_val bs).

End Utf8.

(** ** [base64.b64encode] and the decoding of its output (RFC 4648) *)

Module Base64.

Definition alphabet : text :=
  str "ABCDEFGHIJKLMNOPQRSTUVWXYZabcdefghijklmnopqrstuvwxyz0123456789+/".

Definition pad : char := ord "=".

Definition digit (v : Z) : char := nth (Z.to_nat v) alphabet pad.

Fixpoint index_of (c : char) (l : text) : option Z :=
  match l with
  | [] => None
  | x :: l' => if x =? c then Some 0
               else match index_of c l' with
                    | Some i => Some (i + 1)
                    | None => None
                    end
  end.

Definition value (c : char) : option Z := index_of c alphabet.

Definition of_Z (z : Z) : byte :=
  match Byte.of_N (Z.to_N z) with Some b => b | None => x00 end.

Definition to_byte (c : char) : byte := of_Z c.

Fixpoint encode_vals (bs : list Z) : text :=
  match bs with
  | [] => []
  | [b1] =>
      [digit (Z.shiftr b1 2); digit (Z.shiftl (Z.land b1 3) 4); pad; pad]
  | [b1; b2] =>
      [digit (Z.shiftr b1 2);
       digit (Z.lor (Z.shiftl (Z.land b1 3) 4) (Z.shiftr b2 4));
       digit (Z.shiftl (Z.land b2 15) 2); pad]
  | b1 :: b2 :: b3 :: rest =>
      digit (Z.shiftr b1 2)
      :: digit (Z.lor (Z.shiftl (Z.land b1 3) 4) (Z.shiftr b2 4))
      :: digit (Z.lor (Z.shiftl (Z.land b2 15) 2) (Z.shiftr b3 6))
      :: digit (Z.land b3 63)
      :: encode_vals rest
  end.

(** [base64.b64encode(data)]: a [bytes] object of ASCII characters. *)
Definition b64encode (data : list byte) : list byte :=
  map to_byte (encode_vals (map Utf8.byte_val data)).

Definition byte1 (v1 v2 : Z) : Z := Z.lor (Z.shiftl v1 2) (Z.shiftr v2 4).
Definition byte2 (v2 v3 : Z) : Z := Z.lor (Z.shiftl (Z.land v2 15) 4) (Z.shiftr v3 2).
Definition byte3 (v3 v4 : Z) : Z := Z.lor (Z.shiftl (Z.land v3 3) 6) v4.

(** Decoding of a padded base64 text; [None] on a malformed one. *)
Fixpoint decode_vals (cs : text) : option (list Z) :=
  match cs with
  | [] => Some []
  | c1 :: c2 :: c3 :: c4 :: rest =>
      match value c1, value c2 with
      | Some v1, Some v2 =>
          if (c3 =? pad) && (c4 =? pad) then
            match rest with [] => Some [byte1 v1 v2] | _ => None end
          else
            match value c3 with
            | None => None
            | Some v3 =>
                if c4 =? pad then
                  match rest with
                  | [] => Some [byte1 v1 v2; byte2 v2 v3]
                  | _ => None
                  end
                else
                  match value c4, decode_vals rest with
                  | Some v4, Some tl =>
                      Some (byte1 v1 v2 :: byte2 v2 v3 :: byte3 v3 v4 :: tl)
                  | _, _ => None
                  end
            end
      | _, _ => None
      end
  | _ => None
  end.

Definition b64decode (s : text) : option (list byte) :=
  option_map (map of_Z) (decode_vals s).

End Base64.

(** ** The [re] matcher

    A backtracking matcher with Python's priorities: alternatives are
    tried left to right, a greedy repeat tries its longest run first, a
    lazy one its shortest.  [m r s c] lists, in the order the matcher
    tries them, the ways [r] can match a prefix of [s]: the text left over
    and the groups captured.  Every repeat of the program's patterns is
    over a single character class, so repeats take a class. *)

Module Re.

Inductive regex : Type :=
| Eps
| Cls (p : char -> bool)
| Lit (s : text)
| Seq (r1 r2 : regex)
| Alt (r1 r2 : regex)
| Grp (n : nat) (r : regex)
| Rep (p : char -> bool) (lo : nat) (hi : option nat)
| RepLazy (p : char -> bool) (lo : nat)
| Eos.

Definition caps := list (nat * text).

Fixpoint run_len (p : char -> bool) (s : text) : nat :=
  match s with
  | x :: s' => if p x then S (run_len p s') else O
  | [] => O
  end.

(** The prefix of [s] that a match leaving [rest] has consumed. *)
Definition consumed (s rest : text) : text :=
  firstn (length s - length rest) s.

Fixpoint m (r : regex) (s : text) (c : caps) : list (text * caps) :=
  match r with
  | Eps => [(s, c)]
  | Cls p =>
      match s with
      | x :: s' => if p x then [(s', c)] else []
      | [] => []
      end
  | Lit l => if Str.startswith l s then [(skipn (length l) s, c)] else []
  | Seq r1 r2 => flat_map (fun sc => m r2 (fst sc) (snd sc)) (m r1 s c)
  | Alt r1 r2 => m r1 s c ++ m r2 s c
  | Grp n r1 =>
      map (fun sc => (fst sc, (n, consumed s (fst sc)) :: snd sc)) (m r1 s c)
  | Rep p lo hi =>
      let mx := match hi with
                | Some h => Nat.min h (run_len p s)
                | None => run_len p s
                end in
      map (fun k => (skipn k s, c)) (rev (seq lo (S mx - lo)))
  | RepLazy p lo =>
      map (fun k => (skipn k s, c)) (seq lo (S (run_len p s) - lo))
  | Eos =>
      (* without MULTILINE: the end, or just before a final newline *)
      match s with
      | [] => [(s, c)]
      | [x] => if x =? 10 then [(s, c)] else []
      | _ => []
      end
  end.

(** A match object: the text before the match, the match, its groups and
    the text after it. *)
Record rmatch := {
  m_before : text;
  m_whole : text;
  m_caps : caps;
  m_after : text
}.

Fixpoint lookup (n : nat) (c : caps) : option text :=
  match c with
  | [] => None
  | (k, t) :: c' => if Nat.eqb k n then Some t else lookup n c'
  end.

(** [mt.group(n)]; every group the program reads is outside any
    alternative or optional part, hence set whenever its pattern matches. *)
Definition group (n : nat) (mt : rmatch) : text :=
  match lookup n (m_caps mt) with Some t => t | None => [] end.

Definition match_here (r : regex) (before s : text) : option rmatch :=
  match m r s [] with
  | (rest, c) :: _ =>
      Some {| m_before := before; m_whole := consumed s rest;
              m_caps := c; m_after := rest |}
  | [] => None
  end.

(** [re.match(r, s)] *)
Definition match_ (r : regex) (s : text) : option rmatch := match_here r [] s.

(** [re.search(r, s)]: the match at the leftmost position that has one. *)
Fixpoint search_from (r : regex) (before_rev s : text) : option rmatch :=
  match match_here r (rev before_rev) s with
  | Some mt => Some mt
  | None =>
      match s with
      | [] => None
      | x :: s' => search_from r (x :: before_rev) s'
      end
  end.

Definition search (r : regex) (s : text) : option rmatch := search_from r [] s.

(** [re.finditer(r, s)]: successive non-overlapping matches.  [skip]
    counts the characters still covered by the previous match; after an
    empty match the scan moves on by one character. *)
Fixpoint finditer_from (r : regex) (before_rev : text) (skip : nat) (s : text)
  : list rmatch :=
  match skip with
  | S k =>
      match s with
      | [] => []
      | x :: s' => finditer_from r (x :: before_rev) k s'
      end
  | O =>
      match match_here r (rev before_rev) s with
      | Some mt =>
          mt :: match s with
                | [] => []
                | x :: s' =>
                    finditer_from r (x :: before_rev)
                                  (pred (length (m_whole mt))) s'
                end
      | None =>
          match s with
          | [] => []
          | x :: s' => finditer_from r (x :: before_rev) O s'
          end
      end
  end.

Definition finditer (r : regex) (s : text) : list rmatch :=
  finditer_from r [] O s.

(** [re.findall] for a pattern without group, with one group, with two. *)
Definition findall0 (r : regex) (s : text) : list text :=
  map m_whole (finditer r s).

Definition findall1 (r : regex) (s : text) : list text :=
  map (group 1) (finditer r s).

Definition findall2 (r : regex) (s : text) : list (text * text) :=
  map (fun mt => (group 1 mt, group 2 mt)) (finditer r s).

Definition any : char -> bool := fun _ => true.
Definition one_of (l : text) : char -> bool := fun c => existsb (Z.eqb c) l.
Definition between (lo hi : char) : char -> bool := fun c => (lo <=? c) && (c <=? hi).
Definition neg (p : char -> bool) : char -> bool := fun c => negb (p c).
Definition or (p q : char -> bool) : char -> bool := fun c => p c || q c.

Fixpoint seqs (l : list regex) : regex :=
  match l with
  | [] => Eps
  | [r] => r
  | r :: l' => Seq r (seqs l')
  end.

End Re.

Import Re.

(** ** BinaryContentExtractor *)

(** [[ -~]] *)
Definition printable : char -> bool := between 32 126.

(** [extract_strings_from_bytes(data, min_length)]; the pattern is
    [[ -~]{min_length,}], and [except Exception] gives the empty list. *)
Definition extract_strings_from_bytes (data : list byte) (min_length : nat)
  : list text :=
  match Utf8.decode Utf8.ignore data with
  | Some t => findall0 (Rep printable min_length None) t
  | None => []
  end.

Record FileContent := {
  fc_path : text;
  fc_size : Z;
  fc_content : text;
  fc_strings : list text;
  fc_base64 : text
}.

(** [read_file_content] from the bytes that [run_adb_command] delivered;
    [None] is the [HTTPException] of its handler. *)
Definition read_file_content (path : text) (raw_bytes : list byte)
  : option FileContent :=
  match Utf8.decode Utf8.replace raw_bytes with
  | None => None
  | Some decoded_content =>
      let strings := extract_strings_from_bytes raw_bytes 4 in
      match Utf8.decode Utf8.strict (Base64.b64encode raw_bytes) with
      | None => None
      | Some b64_content =>
          Some {| fc_path := path;
                  fc_size := Z.of_nat (length raw_bytes);
                  fc_content := decoded_content;
                  fc_strings := strings;
                  fc_base64 := b64_content |}
      end
  end.

(** [str(n)] for an integer *)
Definition dec (z : Z) : text := str (NilZero.string_of_int (Z.to_int z)).

Definition nl : text := [10].

(** ** Character classes

    CPython classifies the ASCII range by fixed tables and everything above
    it by the Unicode database, which stays a parameter here, as does the
    interpreter's limit on the digits [int] converts (0: no limit). *)

Section Unicode.

Variables uni_isspace uni_isdecimal uni_isalnum : char -> bool.
Variable uni_todecimal : char -> Z.
Variable int_max_str_digits : nat.

(** [Py_UNICODE_ISSPACE]: [\s], [str.split()], [str.strip()] *)
Definition is_space (c : char) : bool :=
  if c <? 128 then between 9 13 c || between 28 32 c else uni_isspace c.

(** [Py_UNICODE_ISDECIMAL]: [\d] *)
Definition is_digit (c : char) : bool :=
  if c <? 128 then between 48 57 c else uni_isdecimal c.

(** [Py_UNICODE_ISALNUM] or an underscore: [\w] *)
Definition is_word (c : char) : bool :=
  (if c <? 128 then between 48 57 c || between 65 90 c || between 97 122 c
   else uni_isalnum c)
  || (c =? 95).

(** [s.strip()] *)
Fixpoint lstrip (s : text) : text :=
  match s with
  | c :: s' => if is_space c then lstrip s' else s
  | [] => []
  end.

Definition strip (s : text) : text := rev (lstrip (rev (lstrip s))).

(** [s.split()]: the maximal runs of non-space characters. *)
Fixpoint split_ws_from (cur_rev s : text) : list text :=
  match s with
  | [] => match cur_rev with [] => [] | _ => [rev cur_rev] end
  | c :: s' =>
      if is_space c then
        match cur_rev with
        | [] => split_ws_from [] s'
        | _ => rev cur_rev :: split_ws_from [] s'
        end
      else split_ws_from (c :: cur_rev) s'
  end.

Definition split_ws (s : text) : list text := split_ws_from [] s.

(** [int(s)] for a run of decimal digits, which every [\d+] capture is.
    Above 640 digits the interpreter's limit applies. *)
Definition digit_value (c : char) : Z :=
  if c <? 128 then c - 48 else uni_todecimal c.

Definition int_value (s : text) : Z :=
  fold_left (fun acc c => acc * 10 + digit_value c) s 0.

Definition py_int (s : text) : exc Z :=
  let n := length s in
  if (640 <? n)%nat && (0 <? int_max_str_digits)%nat
     && (int_max_str_digits <? n)%nat
  then Raised (str "Exceeds the limit (" ++ dec (Z.of_nat int_max_str_digits)
               ++ str " digits) for integer string conversion: value has "
               ++ dec (Z.of_nat n)
               ++ str " digits; use sys.set_int_max_str_digits() to increase the limit")
  else Value (int_value s).

(** ** DomainVerificationParser *)

Record DomainState := {
  domain : text;
  code : Z;
  description : text;
  status : text
}.

Record AppLinks := {
  domains : list DomainState;
  raw : text
}.

(** [Domain verification state:(.*?)(User 0:|$)] with DOTALL *)
Definition verification_section_re : regex :=
  seqs [Lit (str "Domain verification state:");
        Grp 1 (RepLazy any 0);
        Grp 2 (Alt (Lit (str "User 0:")) Eos)].

(** [\s+([\w\.-]+):\s+(\d+)] *)
Definition domain_code_re : regex :=
  seqs [Rep is_space 1 None;
        Grp 1 (Rep (or is_word (one_of (str ".-"))) 1 None);
        Lit (str ":");
        Rep is_space 1 None;
        Grp 2 (Rep is_digit 1 None)].

(** The [if]/[elif] chain on the state code: description and status. *)
Definition classify (code : Z) : text * text :=
  if code =? 1 then (str "Verified (Automatic)", str "success")
  else if code =? 2 then (str "Approved (User)", str "success")
  else if code =? 1024 then (str "Legacy/Unverified (1024)", str "warning")
  else (str "State Code: " ++ dec code, str "danger").

(** The condition of the user-disabled check: the marker Disabled: with a
    newline is [in output], and [domain] is in the second piece of
    [output.split] on Disabled:. *)
Definition is_disabled (output domain : text) : bool :=
  if Str.contains (str "Disabled:" ++ nl) output
  then Str.contains domain (nth 1 (Str.split (str "Disabled:") output) [])
  else false.

(** The body of the loop for one [(domain, state_code)] match. *)
Definition domain_record (output : text) (mt : text * text) : exc DomainState :=
  let '(domain, state_code) := mt in
  match py_int state_code with
  | Raised e => Raised e
  | Value code =>
      let '(state_desc, status) := classify code in
      if is_disabled output domain
      then Value {| domain := domain; code := code;
                    description := state_desc ++ str " [USER DISABLED]";
                    status := str "danger" |}
      else Value {| domain := domain; code := code;
                    description := state_desc;
                    status := status |}
  end.

Fixpoint domain_records (output : text) (matches : list (text * text))
  : exc (list DomainState) :=
  match matches with
  | [] => Value []
  | mt :: rest =>
      match domain_record output mt with
      | Raised e => Raised e
      | Value d =>
          match domain_records output rest with
          | Raised e => Raised e
          | Value ds => Value (d :: ds)
          end
      end
  end.

(** [get_app_links_state] from the text [output] that [run_adb_command]
    returned. *)
Definition get_app_links_state (output : text) : AppLinks :=
  let body :=
    match search verification_section_re output with
    | Some verification_section =>
        let block := group 1 verification_section in
        domain_records output (findall2 domain_code_re block)
    | None => Value []
    end in
  match body with
  | Value domains => {| domains := domains; raw := output |}
  | Raised e => {| domains := []; raw := e |}
  end.

(** ** PackageSecurityAnalyzer *)

Record Analysis := {
  version_name : text;
  version_code : text;
  user_id : text;
  data_dir : text;
  permissions : list text;
  granted_permissions : list text;
  schemes : list text;
  providers : list text;
  intent_actions : list text;
  intent_categories : list text;
  is_debuggable : bool
}.

Definition unknown : text := str "Unknown".

(** The dictionary [analysis] as first assigned. *)
Definition initial_analysis : Analysis :=
  {| version_name := unknown; version_code := unknown; user_id := unknown;
     data_dir := unknown;
     permissions := []; granted_permissions := [];
     schemes := []; providers := [];
     intent_actions := []; intent_categories := [];
     is_debuggable := false |}.

(** [analysis[key] = v] *)
Definition set_version_name (v : text) (a : Analysis) : Analysis :=
  {| version_name := v; version_code := version_code a; user_id := user_id a;
     data_dir := data_dir a; permissions := permissions a;
     granted_permissions := granted_permissions a; schemes := schemes a;
     providers := providers a; intent_actions := intent_actions a;
     intent_categories := intent_categories a; is_debuggable := is_debuggable a |}.

Definition set_version_code (v : text) (a : Analysis) : Analysis :=
  {| version_name := version_name a; version_code := v; user_id := user_id a;
     data_dir := data_dir a; permissions := permissions a;
     granted_permissions := granted_permissions a; schemes := schemes a;
     providers := providers a; intent_actions := intent_actions a;
     intent_categories := intent_categories a; is_debuggable := is_debuggable a |}.

Definition set_user_id (v : text) (a : Analysis) : Analysis :=
  {| version_name := version_name a; version_code := version_code a; user_id := v;
     data_dir := data_dir a; permissions := permissions a;
     granted_permissions := granted_permissions a; schemes := schemes a;
     providers := providers a; intent_actions := intent_actions a;
     intent_categories := intent_categories a; is_debuggable := is_debuggable a |}.

Definition set_data_dir (v : text) (a : Analysis) : Analysis :=
  {| version_name := version_name a; version_code := version_code a;
     user_id := user_id a; data_dir := v; permissions := permissions a;
     granted_permissions := granted_permissions a; schemes := schemes a;
     providers := providers a; intent_actions := intent_actions a;
     intent_categories := intent_categories a; is_debuggable := is_debuggable a |}.

Definition set_permissions (v : list text) (a : Analysis) : Analysis :=
  {| version_name := version_name a; version_code := version_code a;
     user_id := user_id a; data_dir := data_dir a; permissions := v;
     granted_permissions := granted_permissions a; schemes := schemes a;
     providers := providers a; intent_actions := intent_actions a;
     intent_categories := intent_categories a; is_debuggable := is_debuggable a |}.

Definition set_granted_permissions (v : list text) (a : Analysis) : Analysis :=
  {| version_name := version_name a; version_code := version_code a;
     user_id := user_id a; data_dir := data_dir a; permissions := permissions a;
     granted_permissions := v; schemes := schemes a;
     providers := providers a; intent_actions := intent_actions a;
     intent_categories := intent_categories a; is_debuggable := is_debuggable a |}.

Definition set_schemes (v : list text) (a : Analysis) : Analysis :=
  {| version_name := version_name a; version_code := version_code a;
     user_id := user_id a; data_dir := data_dir a; permissions := permissions a;
     granted_permissions := granted_permissions a; schemes := v;
     providers := providers a; intent_actions := intent_actions a;
     intent_categories := intent_categories a; is_debuggable := is_debuggable a |}.

Definition set_providers (v : list text) (a : Analysis) : Analysis :=
  {| version_name := version_name a; version_code := version_code a;
     user_id := user_id a; data_dir := data_dir a; permissions := permissions a;
     granted_permissions := granted_permissions a; schemes := schemes a;
     providers := v; intent_actions := intent_actions a;
     intent_categories := intent_categories a; is_debuggable := is_debuggable a |}.

Definition set_intent_actions (v : list text) (a : Analysis) : Analysis :=
  {| version_name := version_name a; version_code := version_code a;
     user_id := user_id a; data_dir := data_dir a; permissions := permissions a;
     granted_permissions := granted_permissions a; schemes := schemes a;
     providers := providers a; intent_actions := v;
     intent_categories := intent_categories a; is_debuggable := is_debuggable a |}.

Definition set_intent_categories (v : list text) (a : Analysis) : Analysis :=
  {| version_name := version_name a; version_code := version_code a;
     user_id := user_id a; data_dir := data_dir a; permissions := permissions a;
     granted_permissions := granted_permissions a; schemes := schemes a;
     providers := providers a; intent_actions := intent_actions a;
     intent_categories := v; is_debuggable := is_debuggable a |}.

Definition set_is_debuggable (v : bool) (a : Analysis) : Analysis :=
  {| version_name := version_name a; version_code := version_code a;
     user_id := user_id a; data_dir := data_dir a; permissions := permissions a;
     granted_permissions := granted_permissions a; schemes := schemes a;
     providers := providers a; intent_actions := intent_actions a;
     intent_categories := intent_categories a; is_debuggable := v |}.

(** The patterns of [analyze_security_posture], in the order of their use. *)
Inductive pattern :=
| P_versionName | P_versionCode | P_userId | P_appId | P_dataDir
| P_requested | P_requested_perm
| P_granted | P_install | P_install_perm
| P_scheme | P_provider | P_action | P_category.

Definition dq : text := [34].
Definition not_space : char -> bool := neg is_space.
Definition word_or (l : text) : char -> bool := or is_word (one_of l).
Definition user_digit : regex := Seq (Lit (str "User ")) (Cls is_digit).

(** [[\w\.]+\.permission\.[\w\_]+] *)
Definition any_permission : regex :=
  seqs [Rep (word_or (str ".")) 1 None; Lit (str ".permission.");
        Rep (word_or (str "_")) 1 None].

Definition regex_of (p : pattern) : regex :=
  match p with
  | P_versionName =>   (* versionName=([^\s]+) *)
      Seq (Lit (str "versionName=")) (Grp 1 (Rep not_space 1 None))
  | P_versionCode =>   (* versionCode=(\d+) *)
      Seq (Lit (str "versionCode=")) (Grp 1 (Rep is_digit 1 None))
  | P_userId =>        (* userId=(\d+) *)
      Seq (Lit (str "userId=")) (Grp 1 (Rep is_digit 1 None))
  | P_appId =>         (* appId=(\d+) *)
      Seq (Lit (str "appId=")) (Grp 1 (Rep is_digit 1 None))
  | P_dataDir =>       (* dataDir=([^\s]+) *)
      Seq (Lit (str "dataDir=")) (Grp 1 (Rep not_space 1 None))
  | P_requested =>
      (* requested permissions:(.*?)(install permissions:|User \d|runtime permissions:) *)
      seqs [Lit (str "requested permissions:");
            Grp 1 (RepLazy any 0);
            Grp 2 (Alt (Lit (str "install permissions:"))
                       (Alt user_digit (Lit (str "runtime permissions:"))))]
  | P_requested_perm =>
      (* (android\.permission\.[\w_]+|com\.[\w\.]+\.permission\.[\w_]+) *)
      Grp 1 (Alt (Seq (Lit (str "android.permission."))
                      (Rep (word_or (str "_")) 1 None))
                 (seqs [Lit (str "com."); Rep (word_or (str ".")) 1 None;
                        Lit (str ".permission.");
                        Rep (word_or (str "_")) 1 None]))
  | P_granted =>       (* ([\w\.]+\.permission\.[\w\_]+):\s*granted=true *)
      seqs [Grp 1 any_permission; Lit (str ":"); Rep is_space 0 None;
            Lit (str "granted=true")]
  | P_install =>       (* install permissions:(.*?)(User \d|runtime permissions:) *)
      seqs [Lit (str "install permissions:");
            Grp 1 (RepLazy any 0);
            Grp 2 (Alt user_digit (Lit (str "runtime permissions:")))]
  | P_install_perm =>  (* ([\w\.]+\.permission\.[\w\_]+) *)
      Grp 1 any_permission
  | P_scheme =>        (* Scheme: Q([^Q]+)Q, with Q the double quote *)
      seqs [Lit (str "Scheme: " ++ dq); Grp 1 (Rep (neg (one_of dq)) 1 None);
            Lit dq]
  | P_provider =>      (* Provider\{[a-f0-9]+\s+([^\s]+)\} *)
      seqs [Lit (str "Provider{");
            Rep (or (between 97 102) (between 48 57)) 1 None;
            Rep is_space 1 None; Grp 1 (Rep not_space 1 None); Lit (str "}")]
  | P_action =>        (* Action: Q([^Q]+)Q *)
      seqs [Lit (str "Action: " ++ dq); Grp 1 (Rep (neg (one_of dq)) 1 None);
            Lit dq]
  | P_category =>      (* Category: Q([^Q]+)Q *)
      seqs [Lit (str "Category: " ++ dq); Grp 1 (Rep (neg (one_of dq)) 1 None);
            Lit dq]
  end.

(** The two calls into [re].  A Python call may raise, and the handler of
    [analyze_security_posture] exists for that: [None] is a raised
    exception. *)
Record Engine := {
  e_search : pattern -> text -> option (option rmatch);
  e_findall : pattern -> text -> option (list text)
}.

(** [re] itself, which on a [str] always returns. *)
Definition re_engine : Engine :=
  {| e_search := fun p s => Some (search (regex_of p) s);
     e_findall := fun p s => Some (findall1 (regex_of p) s) |}.

(** A statement of the [try] body: the dictionary after it, or [None] when
    it raised. *)
Definition stmt := Analysis -> option Analysis.

Definition bind {A B : Type} (x : option A) (k : A -> option B) : option B :=
  match x with
  | Some a => k a
  | None => None
  end.

Notation "'let*' x ':=' e 'in' k" := (bind e (fun x => k))
  (at level 10, x name, e at level 100, k at level 200).

Definition when_match (mt : option rmatch) (f : rmatch -> Analysis -> Analysis)
  (a : Analysis) : Analysis :=
  match mt with
  | Some x => f x a
  | None => a
  end.

Definition reserved_category (s : text) : bool :=
  Str.eqb s (str "android.intent.category.DEFAULT")
  || Str.eqb s (str "android.intent.category.BROWSABLE").

Section Body.

Variable re : Engine.
Variable raw_data : text.

Definition stmt_version_name : stmt := fun a =>
  let* v_name := e_search re P_versionName raw_data in
  Some (when_match v_name (fun x => set_version_name (group 1 x)) a).

Definition stmt_version_code : stmt := fun a =>
  let* v_code := e_search re P_versionCode raw_data in
  Some (when_match v_code (fun x => set_version_code (group 1 x)) a).

Definition stmt_user_id : stmt := fun a =>
  let* uid := e_search re P_userId raw_data in
  match uid with
  | Some x => Some (set_user_id (group 1 x) a)
  | None =>
      if Str.contains (str "appId=") raw_data then
        let* app_id := e_search re P_appId raw_data in
        Some (when_match app_id (fun x => set_user_id (group 1 x)) a)
      else Some a
  end.

Definition stmt_data_dir : stmt := fun a =>
  let* data_dir := e_search re P_dataDir raw_data in
  Some (when_match data_dir (fun x => set_data_dir (group 1 x)) a).

Definition stmt_debuggable : stmt := fun a =>
  if Str.contains (str "DEBUGGABLE") raw_data
     || Str.contains (str "debuggable=true") raw_data
  then Some (set_is_debuggable true a)
  else Some a.

Definition stmt_permissions : stmt := fun a =>
  let* perm_block_match := e_search re P_requested raw_data in
  match perm_block_match with
  | Some x =>
      let perm_block := group 1 x in
      let* perms := e_findall re P_requested_perm perm_block in
      Some (set_permissions (sorted (set_of perms)) a)
  | None => Some a
  end.

Definition stmt_granted_permissions : stmt := fun a =>
  let* granted_matches := e_findall re P_granted raw_data in
  let* install_perm_block := e_search re P_install raw_data in
  let* granted_matches :=
    match install_perm_block with
    | Some x =>
        let* install_perms := e_findall re P_install_perm (group 1 x) in
        Some (granted_matches ++ install_perms)
    | None => Some granted_matches
    end in
  Some (set_granted_permissions (sorted (set_of granted_matches)) a).

Definition stmt_schemes : stmt := fun a =>
  let* scheme_matches := e_findall re P_scheme raw_data in
  let filtered_schemes :=
    filter (fun s => negb (reserved_category s)) (set_of scheme_matches) in
  Some (set_schemes (sorted filtered_schemes) a).

Definition stmt_providers : stmt := fun a =>
  let* provider_matches := e_findall re P_provider raw_data in
  Some (set_providers (sorted (set_of provider_matches)) a).

Definition stmt_intents : stmt := fun a =>
  let* actions_found := e_findall re P_action raw_data in
  let* categories_found := e_findall re P_category raw_data in
  Some (set_intent_categories (sorted (set_of categories_found))
          (set_intent_actions (sorted (set_of actions_found)) a)).

(** The body of the [try], statement by statement. *)
Definition try_body : list stmt :=
  [stmt_version_name; stmt_version_code; stmt_user_id; stmt_data_dir;
   stmt_debuggable; stmt_permissions; stmt_granted_permissions;
   stmt_schemes; stmt_providers; stmt_intents].

End Body.

(** [try: body except Exception: print(...)]: the statements run in order
    on the one dictionary; the first that raises ends the block, and the
    dictionary stays as the statements before it left it. *)
Fixpoint run_try (body : list stmt) (a : Analysis) : Analysis :=
  match body with
  | [] => a
  | s :: rest =>
      match s a with
      | Some a' => run_try rest a'
      | None => a
      end
  end.

Definition analyze_with (re : Engine) (raw_data : text) : Analysis :=
  run_try (try_body re raw_data) initial_analysis.

Definition analyze_security_posture (raw_data : text) : Analysis :=
  analyze_with re_engine raw_data.

(** ** DirectoryListingParser *)

Record FileEntry := {
  name : text;
  type : text;
  size : text;
  date : text;
  perms : text;
  raw_line : text
}.

(** [\d{4}-\d{2}-\d{2}] *)
Definition date_re : regex :=
  seqs [Rep is_digit 4 (Some 4%nat); Lit (str "-");
        Rep is_digit 2 (Some 2%nat); Lit (str "-");
        Rep is_digit 2 (Some 2%nat)].

(** [l[i]]: a negative index counts from the end; [None] is [IndexError]. *)
Definition index (l : list text) (i : Z) : option text :=
  let n := Z.of_nat (length l) in
  if i <? 0 then
    if 0 <=? n + i then nth_error l (Z.to_nat (n + i)) else None
  else nth_error l (Z.to_nat i).

(** The loop over [enumerate(parts)]: the index of the first part that
    [date_re] matches at its start, or -1. *)
Fixpoint find_date (i : Z) (parts : list text) : Z :=
  match parts with
  | [] => -1
  | p :: rest =>
      match match_ date_re p with
      | Some _ => i
      | None => find_date (i + 1) rest
      end
  end.

(** The body of the loop for one line: the entry appended, or [None] when
    the line is passed over, by [continue], by a date that is not found, or
    by the exception handler. *)
Definition parse_line (line0 : text) : option FileEntry :=
  let line := strip line0 in
  if match line with [] => true | _ => false end
     || Str.startswith (str "total ") line
  then None
  else
    let parts := split_ws line in
    if (length parts <? 7)%nat then None
    else
      let* perms := index parts 0 in
      let is_dir := Str.startswith (str "d") perms in
      let is_link := Str.startswith (str "l") perms in
      let date_idx := find_date 0 parts in
      if date_idx =? -1 then None
      else
        let* size := index parts (date_idx - 1) in
        let* d0 := index parts date_idx in
        let* d1 := index parts (date_idx + 1) in
        let date_str := d0 ++ str " " ++ d1 in
        let name_part := Str.join (str " ") (skipn (Z.to_nat (date_idx + 2)) parts) in
        Some {| name := name_part;
                type := if is_dir then str "dir"
                        else if is_link then str "link" else str "file";
                size := size;
                date := date_str;
                perms := perms;
                raw_line := line |}.

Definition parse_ls_output (output : text) : list FileEntry :=
  flat_map (fun line => match parse_line line with
                        | Some f => [f]
                        | None => []
                        end)
           (Str.split nl output).


(** ** The configured path of the adb binary

    The module computes [ADB_PATH] once, from the environment variable of
    the same name, the default place of the SDK under the home directory
    and [os.path.exists]. *)

Definition adb : text := str "adb".

Definition ADB_PATH (env_adb : option text) (local_adb : text)
           (path_exists : text -> bool) : text :=
  let chosen :=
    match env_adb with
    | Some (c :: p) => c :: p
    | _ => if path_exists local_adb then local_adb else adb
    end in
  if negb (path_exists chosen) && negb (Str.eqb chosen adb) then adb
  else chosen.

(** ** DeviceLister *)

Definition tab : text := [9].

Record Device := {
  dev_id : text;
  dev_status : text
}.

(** The body of the loop of [list_devices] for one line. *)
Definition device_of_line (line : text) : option Device :=
  match strip line with
  | [] => None
  | _ =>
      match Str.split tab line with
      | p0 :: p1 :: _ => Some {| dev_id := p0; dev_status := p1 |}
      | _ => None
      end
  end.

(** [list_devices] from the outcome of [run_adb_command(["devices"])];
    the handler answers an exception with no devices. *)
Definition list_devices (output : exc text) : list Device :=
  match output with
  | Raised _ => []
  | Value output =>
      flat_map (fun line => match device_of_line line with
                            | Some d => [d]
                            | None => []
                            end)
               (tl (Str.split nl output))
  end.

(** ** DirectoryLister *)

(** [s.strip(chars)] *)
Fixpoint lstrip_chars (p : char -> bool) (s : text) : text :=
  match s with
  | c :: s' => if p c then lstrip_chars p s' else s
  | [] => []
  end.

Definition strip_chars (p : char -> bool) (s : text) : text :=
  rev (lstrip_chars p (rev (lstrip_chars p s))).

(** [s.split(sep, 1)] *)
Definition split1 (sep s : text) : list text :=
  match Str.find sep s with
  | Some (a, b) => [a; b]
  | None => [s]
  end.

(** A [dict] with string keys, as far as [d[k] = v] and [d.get(k)] see
    it: the newest binding of a key is the one that is found. *)
Definition dict := list (text * text).

Definition dict_set (k v : text) (d : dict) : dict := (k, v) :: d.

Fixpoint dict_get (k : text) (d : dict) : option text :=
  match d with
  | [] => None
  | (k', v) :: d' => if Str.eqb k k' then Some v else dict_get k d'
  end.

(** The name that a line of [file *] is filed under: stripped, without a
    leading [./], without single quotes and then double quotes at its
    ends. *)
Definition magic_name (p0 : text) : text :=
  let fname := strip p0 in
  let fname := if Str.startswith (str "./") fname then skipn 2 fname else fname in
  strip_chars (one_of dq) (strip_chars (one_of (str "'")) fname).

(** The body of the loop over the lines of [magic_output]. *)
Definition magic_line (magic_map : dict) (line0 : text) : dict :=
  let line := strip line0 in
  if Str.contains (str ": ") line then
    match split1 (str ": ") line with
    | [p0; p1] => dict_set (magic_name p0) (strip p1) magic_map
    | _ => magic_map
    end
  else magic_map.

Definition magic_map_of (magic_output : text) : dict :=
  fold_left magic_line (Str.split nl magic_output) [].

(** An entry of the listing: the keys of [parse_ls_output] and the key
    [magic], which is absent ([None]), [None] or a description. *)
Record FileItem := {
  entry : FileEntry;
  magic : option (option text)
}.

Definition plain (f : FileEntry) : FileItem := {| entry := f; magic := None |}.

(** The loop that sets [f['magic']]. *)
Definition set_magic (magic_map : dict) (f : FileItem) : FileItem :=
  if Str.eqb (type (entry f)) (str "file")
  then {| entry := entry f; magic := Some (dict_get (name (entry f)) magic_map) |}
  else f.

(** The key of the sort, [(x['type'] != 'dir', x['name'])], and the
    order of tuples: [False] before [True], then the names. *)
Definition sort_key (x : FileItem) : bool * text :=
  (negb (Str.eqb (type (entry x)) (str "dir")), name (entry x)).

Definition key_lt (a b : bool * text) : bool :=
  if Bool.eqb (fst a) (fst b) then negb (Str.leb (snd b) (snd a))
  else negb (fst a).

(** [files.sort(key=...)]: a stable sort; an item goes before the first
    one whose key is not below its own. *)
Fixpoint insert_item (x : FileItem) (l : list FileItem) : list FileItem :=
  match l with
  | [] => [x]
  | y :: l' => if key_lt (sort_key y) (sort_key x) then y :: insert_item x l'
               else x :: l
  end.

Definition sort_items (l : list FileItem) : list FileItem :=
  fold_right insert_item [] l.

Record Listing := {
  ls_path : text;
  ls_error : option text;
  ls_files : list FileItem
}.

(** [list_files_in_path] from the outcomes of its two calls of
    [run_adb_command]: the listing and the [file *] of the directory.  A
    raised call carries [str(e)]. *)
Definition list_files_in_path (path : text) (output magic_output : exc text)
  : Listing :=
  match output with
  | Raised msg => {| ls_path := path; ls_error := Some msg; ls_files := [] |}
  | Value output =>
      if Str.contains (str "Permission denied") output then
        {| ls_path := path;
           ls_error := Some (str "Permission Denied (Try run-as or root)");
           ls_files := [] |}
      else if Str.contains (str "No such file") output then
        {| ls_path := path; ls_error := Some (str "Path not found");
           ls_files := [] |}
      else
        let files := map plain (parse_ls_output output) in
        let files :=
          match magic_output with
          | Value magic_output => map (set_magic (magic_map_of magic_output)) files
          | Raised _ => files
          end in
        {| ls_path := path; ls_error := None; ls_files := sort_items files |}
  end.

(** ** PackageLister *)

(** [s.replace(old, new)] for a non-empty [old]: the pieces between the
    occurrences of [old], from left to right, with [new] between them. *)
Definition str_replace (old new s : text) : text :=
  Str.join new (Str.split old s).

(** The names of [pm list packages], one for each line that is not blank. *)
Definition package_names (output_simple : text) : list text :=
  map (fun line => strip (str_replace (str "package:") [] line))
      (filter (fun line => match strip line with [] => false | _ => true end)
              (Str.split nl output_simple)).

(** The times kept for a package while the dump is read; [None] is
    Python's [None]. *)
Record PkgTimes := {
  pt_name : text;
  pt_installTime : option text;
  pt_timeStamp : option text;
  pt_updateTime : option text
}.

Definition set_installTime (v : text) (t : PkgTimes) : PkgTimes :=
  {| pt_name := pt_name t; pt_installTime := Some v;
     pt_timeStamp := pt_timeStamp t; pt_updateTime := pt_updateTime t |}.

Definition set_timeStamp (v : text) (t : PkgTimes) : PkgTimes :=
  {| pt_name := pt_name t; pt_installTime := pt_installTime t;
     pt_timeStamp := Some v; pt_updateTime := pt_updateTime t |}.

Definition set_updateTime (v : text) (t : PkgTimes) : PkgTimes :=
  {| pt_name := pt_name t; pt_installTime := pt_installTime t;
     pt_timeStamp := pt_timeStamp t; pt_updateTime := Some v |}.

(** [pkg_data]: a dict from names to times. *)
Definition pkg_dict := list (text * PkgTimes).

Fixpoint pkg_get (k : text) (d : pkg_dict) : option PkgTimes :=
  match d with
  | [] => None
  | (k', t) :: d' => if Str.eqb k k' then Some t else pkg_get k d'
  end.

(** [d[k][field] = v]; [None] is the [KeyError] of a missing [k]. *)
Fixpoint pkg_update (k : text) (f : PkgTimes -> PkgTimes) (d : pkg_dict)
  : option pkg_dict :=
  match d with
  | [] => None
  | (k', t) :: d' =>
      if Str.eqb k k' then Some ((k', f t) :: d')
      else match pkg_update k f d' with
           | Some d'' => Some ((k', t) :: d'')
           | None => None
           end
  end.

(** [line.split(key)[1].strip()]; [None] is [IndexError]. *)
Definition value_of (key line : text) : option text :=
  match nth_error (Str.split key line) 1 with
  | Some v => Some (strip v)
  | None => None
  end.

(** [^Package \[(.*?)\]]: the dot is any character but a newline; the
    caret holds at the start of the text only, so that a search for the
    pattern is a match at the start. *)
Definition package_header : regex :=
  seqs [Lit (str "Package ["); Grp 1 (RepLazy (neg (one_of nl)) 0);
        Lit (str "]")].

(** The body of the loop over the lines of the dump, on [pkg_data] and
    [current_pkg]; [None] when it raises. *)
Definition dump_line (st : pkg_dict * option text) (line0 : text)
  : option (pkg_dict * option text) :=
  let line := strip line0 in
  let st1 :=
    match match_ package_header line with
    | Some pkg_match =>
        let current_pkg := group 1 pkg_match in
        (match pkg_get current_pkg (fst st) with
         | Some _ => fst st
         | None =>
             fst st ++ [(current_pkg,
                         {| pt_name := current_pkg; pt_installTime := None;
                            pt_timeStamp := None; pt_updateTime := None |})]
         end,
         Some current_pkg)
    | None => st
    end in
  match snd st1 with
  | Some (c :: p) =>
      let current_pkg := c :: p in
      if Str.contains (str "firstInstallTime=") line then
        let* v := value_of (str "firstInstallTime=") line in
        let* d := pkg_update current_pkg (set_installTime v) (fst st1) in
        Some (d, snd st1)
      else if Str.contains (str "timeStamp=") line then
        let* v := value_of (str "timeStamp=") line in
        let* d := pkg_update current_pkg (set_timeStamp v) (fst st1) in
        Some (d, snd st1)
      else if Str.contains (str "lastUpdateTime=") line then
        let* v := value_of (str "lastUpdateTime=") line in
        let* d := pkg_update current_pkg (set_updateTime v) (fst st1) in
        Some (d, snd st1)
      else Some st1
  | _ => Some st1
  end.

Fixpoint dump_loop (lines : list text) (st : pkg_dict * option text)
  : option (pkg_dict * option text) :=
  match lines with
  | [] => Some st
  | line :: rest => let* st' := dump_line st line in dump_loop rest st'
  end.

Record Package := {
  pk_name : text;
  pk_installTime : text;
  pk_updateTime : option text
}.

Record PackageList := {
  pl_device_id : text;
  pl_total_count : Z;
  pl_packages : list Package
}.

Definition not_available : text := str "N/A".

(** [a or b] on a string or [None]: [a] when it is a non-empty string. *)
Definition or_else (a : option text) (b : text) : text :=
  match a with
  | Some (c :: v) => c :: v
  | _ => b
  end.

(** The entry of the final list for [name]; [raw] is
    [pkg_data.get(name, {})], [None] standing for the empty dict. *)
Definition package_of (pkg_data : pkg_dict) (name : text) : Package :=
  let raw := pkg_get name pkg_data in
  let get (field : PkgTimes -> option text) : option text :=
    match raw with Some t => field t | None => None end in
  let install_t :=
    or_else (get pt_installTime) (or_else (get pt_timeStamp) not_available) in
  let update_t :=
    match raw with
    | Some t => pt_updateTime t
    | None => Some not_available
    end in
  {| pk_name := name; pk_installTime := install_t; pk_updateTime := update_t |}.

(** [list_packages_detailed] from the outcomes of its two calls of
    [run_adb_command]; [None] is the [HTTPException] of the outer handler. *)
Definition list_packages_detailed (device_id : text)
           (output_simple dump_output : exc text) : option PackageList :=
  match output_simple with
  | Raised _ => None
  | Value output_simple =>
      let package_names := package_names output_simple in
      let fallback :=
        {| pl_device_id := device_id;
           pl_total_count := Z.of_nat (length package_names);
           pl_packages :=
             map (fun p => {| pk_name := p; pk_installTime := str "-";
                              pk_updateTime := Some (str "-") |})
                 package_names |} in
      match dump_output with
      | Raised _ => Some fallback
      | Value dump_output =>
          match dump_loop (Str.split nl dump_output) ([], None) with
          | None => Some fallback
          | Some (pkg_data, _) =>
              let final_list := map (package_of pkg_data) package_names in
              Some {| pl_device_id := device_id;
                      pl_total_count := Z.of_nat (length final_list);
                      pl_packages := final_list |}
          end
      end
  end.
(** ** Inputs of the scenarios *)

(** The bytes [68 69 FF 74 68 65 72 65]. *)
Definition sample_bytes : list byte := [x68; x69; xff; x74; x68; x65; x72; x65].

(** Checks over an initial segment of the integers, for facts about bytes
    and base64 digits that are settled by running through all of them. *)
Definition below (n : nat) : list Z := map Z.of_nat (seq 0 n).

Definition all_below (n : nat) (P : Z -> bool) : bool := forallb P (below n).

Definition is_byte (z : Z) : Prop := 0 <= z < 256.

(** ** Vocabulary of the statements *)

(** [sub] occurs in [s]. *)
Definition occurs_in (sub s : text) : Prop := exists a b, s = a ++ sub ++ b.

(** [pre] and [rest] are what lies before and after the first occurrence
    of [sep] in [s]. *)
Definition first_split (sep s pre rest : text) : Prop :=
  s = pre ++ sep ++ rest
  /\ forall a b, s = a ++ sep ++ b -> (length pre <= length a)%nat.

(** What a pattern denotes: [den r w rest] when [r] can match the text [w]
    followed by [rest] (only [$] looks at what follows). *)
Fixpoint den (r : regex) (w rest : text) : Prop :=
  match r with
  | Eps => w = []
  | Cls p => exists x, w = [x] /\ p x = true
  | Lit l => w = l
  | Seq r1 r2 =>
      exists w1 w2, w = w1 ++ w2 /\ den r1 w1 (w2 ++ rest) /\ den r2 w2 rest
  | Alt r1 r2 => den r1 w rest \/ den r2 w rest
  | Grp _ r1 => den r1 w rest
  | Rep p lo hi =>
      forallb p w = true /\ (lo <= length w)%nat
      /\ match hi with Some h => (length w <= h)%nat | None => True end
  | RepLazy p lo => forallb p w = true /\ (lo <= length w)%nat
  | Eos => w = [] /\ (rest = [] \/ rest = [10])
  end.

Fixpoint group_free (r : regex) : Prop :=
  match r with
  | Seq r1 r2 | Alt r1 r2 => group_free r1 /\ group_free r2
  | Grp _ _ => False
  | _ => True
  end.

(** [r] matches at the start of [s]. *)
Definition accepts (r : regex) (s : text) : bool :=
  match m r s [] with
  | [] => false
  | _ :: _ => true
  end.

(** The shape [header(.*?)(terminators)] of the section patterns. *)
Definition lazy_span (header : text) (terminators : regex) : regex :=
  seqs [Lit header; Grp 1 (RepLazy any 0); Grp 2 terminators].

(** ** DomainVerificationParser: the statements' vocabulary *)

Definition disabled_marker : text := str "Disabled:".

Definition user_disabled_suffix : text := str " [USER DISABLED]".

(** [seg] is the text from the first Disabled: marker of [output] up to
    the next such marker, or to the end when there is none. *)
Definition disabled_section (output seg : text) : Prop :=
  exists pre rest,
    first_split disabled_marker output pre rest
    /\ ((exists after, first_split disabled_marker rest seg after)
        \/ (~ occurs_in disabled_marker rest /\ seg = rest)).

(** The classification table of the specification (section 4.2). *)
Inductive severity := ok | caution | blocked.

(** The names the program gives the three severities. *)
Definition status_name (s : severity) : text :=
  match s with
  | ok => str "success"
  | caution => str "warning"
  | blocked => str "danger"
  end.

Definition table_description (code : Z) : text :=
  match code with
  | 1 => str "Verified (Automatic)"
  | 2 => str "Approved (User)"
  | 1024 => str "Legacy/Unverified (1024)"
  | _ => str "State Code: " ++ dec code
  end.

Definition table_severity (code : Z) : severity :=
  match code with
  | 1 | 2 => ok
  | 1024 => caution
  | _ => blocked
  end.

Definition spec_severity (code : Z) (user_disabled : bool) : severity :=
  if user_disabled then blocked else table_severity code.

Definition spec_description (code : Z) (user_disabled : bool) : text :=
  if user_disabled then table_description code ++ user_disabled_suffix
  else table_description code.

(** The scenario of the specification: a domain with code 1024 that the
    user disabled. *)
Definition scenario_output : text :=
  str "Domain verification state:" ++ nl ++
  str "  example.com: 1024" ++ nl ++
  str "User 0:" ++ nl ++
  str "  Disabled:" ++ nl ++
  str "    example.com".

(** Only the longer domain is listed as disabled. *)
Definition sub_only_output : text :=
  str "Domain verification state:" ++ nl ++
  str "  example.com: 1" ++ nl ++
  str "  sub.example.com: 1" ++ nl ++
  str "User 0:" ++ nl ++
  str "  Disabled:" ++ nl ++
  str "    sub.example.com".

(** Two users, each with a section of disabled domains. *)
Definition two_sections_output : text :=
  str "Domain verification state:" ++ nl ++
  str "  example.com: 1" ++ nl ++
  str "User 0:" ++ nl ++
  str "  Disabled:" ++ nl ++
  str "    other.org" ++ nl ++
  str "User 10:" ++ nl ++
  str "  Disabled:" ++ nl ++
  str "    example.com".

(** One domain for each row of the table. *)
Definition all_codes_output : text :=
  str "Domain verification state:" ++ nl ++
  str "  a.example: 1" ++ nl ++
  str "  b.example: 2" ++ nl ++
  str "  c.example: 1024" ++ nl ++
  str "  d.example: 0".

(** An interpreter whose Unicode database has nothing above ASCII and
    whose [int] converts at most 4300 digits; the scenarios are ASCII. *)
Definition no_class : char -> bool := fun _ => false.
Definition no_decimal : char -> Z := fun _ => -1.
Definition default_max_str_digits : nat := 4300.

(** ** PackageSecurityAnalyzer: the statements' vocabulary *)

Definition requested_header : text := str "requested permissions:".
Definition install_header : text := str "install permissions:".
Definition runtime_header : text := str "runtime permissions:".

(** The three alternatives that end the span of requested permissions. *)
Definition requested_terminators : regex :=
  Alt (Lit install_header) (Alt user_digit (Lit runtime_header)).

(** One of them stands at the start of [s]: [install permissions:], or
    [User ] and a digit, or [runtime permissions:]. *)
Definition starts_user_digit (s : text) : bool :=
  Str.startswith (str "User ") s
  && match skipn 5 s with
     | c :: _ => is_digit c
     | [] => false
     end.

Definition starts_terminator (s : text) : bool :=
  Str.startswith install_header s || starts_user_digit s
  || Str.startswith runtime_header s.

(** No terminator starts anywhere in [s]. *)
Definition terminator_free (s : text) : bool :=
  forallb (fun k => negb (starts_terminator (skipn k s))) (seq 0 (S (length s))).

(** [p] has the shape of a permission identifier, as the pattern for
    requested permissions has it. *)
Definition permission_shaped (p : text) : Prop :=
  exists rest, den (regex_of P_requested_perm) p rest.

(** All statements of a block return. *)
Fixpoint run_all (body : list stmt) (a : Analysis) : option Analysis :=
  match body with
  | [] => Some a
  | s :: rest =>
      match s a with
      | Some a' => run_all rest a'
      | None => None
      end
  end.

Definition pattern_index (p : pattern) : nat :=
  match p with
  | P_versionName => 0 | P_versionCode => 1 | P_userId => 2 | P_appId => 3
  | P_dataDir => 4 | P_requested => 5 | P_requested_perm => 6
  | P_granted => 7 | P_install => 8 | P_install_perm => 9
  | P_scheme => 10 | P_provider => 11 | P_action => 12 | P_category => 13
  end.

(** [re], except that every call with the pattern [bad] raises. *)
Definition raising_on (bad : pattern) : Engine :=
  {| e_search := fun p s =>
       if Nat.eqb (pattern_index p) (pattern_index bad) then None
       else Some (search (regex_of p) s);
     e_findall := fun p s =>
       if Nat.eqb (pattern_index p) (pattern_index bad) then None
       else Some (findall1 (regex_of p) s) |}.

(** A package dump with every section. *)
Definition full_dump : text :=
  str "    versionName=2.3.1" ++ nl ++
  str "    userId=10123" ++ nl ++
  str "    dataDir=/data/user/0/com.x flags=[ DEBUGGABLE ]" ++ nl ++
  str "    requested permissions:" ++ nl ++
  str "      android.permission.INTERNET" ++ nl ++
  str "      com.foo.bar.permission.C2D_MESSAGE" ++ nl ++
  str "      android.permission.CAMERA" ++ nl ++
  str "      android.permission.INTERNET" ++ nl ++
  str "    install permissions:" ++ nl ++
  str "      android.permission.INTERNET: granted=true" ++ nl ++
  str "      android.permission.WAKE_LOCK: granted=true" ++ nl ++
  str "    User 0: ceDataInode=1 installed=true" ++ nl ++
  str "      runtime permissions:" ++ nl ++
  str "        android.permission.CAMERA: granted=true" ++ nl ++
  str "      Scheme: " ++ dq ++ str "https" ++ dq ++ nl ++
  str "      Provider{1a2b3c com.x/.MyProvider}" ++ nl ++
  str "      Action: " ++ dq ++ str "android.intent.action.VIEW" ++ dq.

(** A header of requested permissions that nothing ends. *)
Definition no_terminator_dump : text :=
  str "    requested permissions:" ++ nl ++
  str "      android.permission.INTERNET" ++ nl ++
  str "      android.permission.CAMERA" ++ nl.

(** No identity marker, one scheme. *)
Definition scheme_only_dump : text :=
  str "      Scheme: " ++ dq ++ str "https" ++ dq.

(** The scenario of the specification: a version name and no version code. *)
Definition version_name_dump : text :=
  str "    versionName=2.3.1" ++ nl ++
  str "    dataDir=/data/user/0/com.x".

(** A version name, a version code and a user id. *)
Definition identity_dump : text :=
  str "versionName=1.0 versionCode=7 userId=10050".

(** [post] is empty or begins with a space character: a value written
    before it ends there. *)
Definition ends_value (post : text) : Prop :=
  post = [] \/ exists c post', post = c :: post' /\ is_space c = true.

(** The terminators of the span of install permissions. *)
Definition install_terminators : regex := Alt user_digit (Lit runtime_header).

(** ** DirectoryListingParser: the statements' vocabulary *)

(** The date token of a line is its token [i]: the first token that the
    date pattern matches at its start. *)
Definition date_at (parts : list text) (i : nat) : Prop :=
  (exists d, nth_error parts i = Some d /\ accepts date_re d = true)
  /\ forall j t, (j < i)%nat -> nth_error parts j = Some t ->
                 accepts date_re t = false.

(** The kind of an entry, by the first character of the permissions. *)
Definition kind_of (perms : text) : text :=
  if Str.startswith (str "d") perms then str "dir"
  else if Str.startswith (str "l") perms then str "link"
  else str "file".

(** The line of the scenario of the specification. *)
Definition sample_ls_line : text :=
  str "-rw-rw---- 1 u0_a123 sdcard_rw 1024 2023-05-01 10:00 my file.txt".

(** A line whose date is its last token. *)
Definition date_last_line : text :=
  str "drwxr-xr-x 2 root root 4096 x 2023-05-01".

(** A line whose date is its first token. *)
Definition date_first_line : text :=
  str "2023-05-01 10:00 a b c d e".

(** ** Records of the scenarios *)

Definition scenario_record : DomainState :=
  {| domain := str "example.com"; code := 1024;
     description := str "Legacy/Unverified (1024) [USER DISABLED]";
     status := str "danger" |}.

Definition two_sections_record : DomainState :=
  {| domain := str "example.com"; code := 1;
     description := str "Verified (Automatic)";
     status := str "success" |}.

Definition caution_record : DomainState :=
  {| domain := str "c.example"; code := 1024;
     description := str "Legacy/Unverified (1024)";
     status := str "warning" |}.

(** [two_sections_output] up to its second Disabled: marker. *)
Definition two_sections_before : text :=
  str "Domain verification state:" ++ nl ++
  str "  example.com: 1" ++ nl ++
  str "User 0:" ++ nl ++
  str "  Disabled:" ++ nl ++
  str "    other.org" ++ nl ++
  str "User 10:" ++ nl ++
  str "  ".

(** ** Further vocabulary: order *)

(** Strictly before, in the order of [sorted]. *)
Definition text_lt (a b : text) : Prop := Str.leb a b = true /\ a <> b.

(** Sorted without repetition. *)
Definition increasing (l : list text) : Prop := StronglySorted text_lt l.

(** A run of the class [p] ends where [post] begins: [post] is empty or its
    first character is outside [p]. *)
Definition run_ends (p : char -> bool) (post : text) : Prop :=
  match post with
  | [] => True
  | c :: _ => p c = false
  end.

(** A terminator of the span of install permissions stands at the start of
    [s]: [User ] and a digit, or [runtime permissions:]. *)
Definition starts_install_terminator (s : text) : bool :=
  starts_user_digit s || Str.startswith runtime_header s.

(** The text of [raw_data] from the first [install permissions:] header up
    to the first terminator after it. *)
Definition install_span (raw_data span : text) : Prop :=
  exists pre rest,
    first_split install_header raw_data pre (span ++ rest)
    /\ starts_install_terminator rest = true
    /\ forall k, (k < length span)%nat ->
                 starts_install_terminator (skipn k (span ++ rest)) = false.

(** [p] is written like a permission: a run of word characters and dots,
    [.permission.], a run of word characters. *)
Definition permission_like (p : text) : Prop :=
  exists a b, p = a ++ str ".permission." ++ b
              /\ a <> [] /\ forallb (word_or (str ".")) a = true
              /\ b <> [] /\ forallb (word_or (str "_")) b = true.

(** A quoted value: not empty, without a double quote. *)
Definition quoted_value (v : text) : Prop :=
  v <> [] /\ forallb (neg (one_of dq)) v = true.

(** ** DomainVerificationParser, further *)

Definition verification_header : text := str "Domain verification state:".

(** The verification section ends where [s] begins: at [User 0:], at the
    end of the text, or before a newline that ends the text. *)
Definition ends_section (s : text) : bool :=
  Str.startswith (str "User 0:") s
  || match s with
     | [] => true
     | [c] => c =? 10
     | _ => false
     end.

(** The text of [output] from its first verification header to the first
    place after it where the section ends. *)
Definition verification_block (output block : text) : Prop :=
  exists pre rest,
    first_split verification_header output pre (block ++ rest)
    /\ ends_section rest = true
    /\ forall k, (k < length block)%nat ->
                 ends_section (skipn k (block ++ rest)) = false.

(** [dom] and [digits] are written in [block] as a line of the section:
    white space, the domain, a colon, white space, the digits. *)
Definition domain_line (block dom digits : text) : Prop :=
  exists ws sp,
    ws <> [] /\ forallb is_space ws = true
    /\ sp <> [] /\ forallb is_space sp = true
    /\ occurs_in (ws ++ dom ++ str ":" ++ sp ++ digits) block.

(** ** DirectoryListingParser, further *)

(** A token of [str.split()]: not empty, without white space. *)
Definition token (t : text) : Prop :=
  t <> [] /\ forallb (neg is_space) t = true.

(** [d] begins with a date: four digits, a hyphen, two digits, a hyphen,
    two digits. *)
Definition begins_with_date (d : text) : Prop :=
  exists y mo dd rest,
    d = y ++ str "-" ++ mo ++ str "-" ++ dd ++ rest
    /\ length y = 4%nat /\ forallb is_digit y = true
    /\ length mo = 2%nat /\ forallb is_digit mo = true
    /\ length dd = 2%nat /\ forallb is_digit dd = true.

(** ** Further inputs *)

(** A dump with an [appId=] before its [userId=]. *)
Definition both_ids_dump : text := str "appId=10001 userId=10050 pkgFlags=[ ]".

(** The bytes of hello. *)
Definition hello_bytes : list byte := [x68; x65; x6c; x6c; x6f].

(** The bytes of cafe with an acute accent, in UTF-8. *)
Definition cafe_bytes : list byte := [x63; x61; x66; xc3; xa9].

(** The entry of [sample_ls_line]. *)
Definition sample_entry : FileEntry :=
  {| name := str "my file.txt";
     type := str "file";
     size := str "1024";
     date := str "2023-05-01 10:00";
     perms := str "-rw-rw----";
     raw_line := sample_ls_line |}.

(** A database whose decimal digits above ASCII all have the value 0. *)
Definition zero_decimal : char -> Z := fun _ => 0.

(** ** Further vocabulary: devices *)

(** The line that [adb devices] prints for a device. *)
Definition device_line (d : Device) : text := dev_id d ++ tab ++ dev_status d.

(** Some character of [s] is not white space. *)
Definition visible (s : text) : Prop := exists c, In c s /\ is_space c = false.

(** A device as it can be printed on a line of its own: no tab and no
    newline inside its fields, and something to see. *)
Definition printable_device (d : Device) : Prop :=
  ~ occurs_in tab (dev_id d) /\ ~ occurs_in nl (dev_id d)
  /\ ~ occurs_in tab (dev_status d) /\ ~ occurs_in nl (dev_status d)
  /\ visible (device_line d).

(** ** Further vocabulary: listings *)

Definition is_dir (x : FileItem) : Prop := type (entry x) = str "dir".

(** The order of a listing: a directory before what is not one, and
    within each of the two groups a name before the names above it. *)
Definition goes_before (x y : FileItem) : Prop :=
  (is_dir y -> is_dir x)
  /\ ((is_dir x <-> is_dir y) ->
      Str.leb (name (entry x)) (name (entry y)) = true).

(** Not after: the key of [y] is not below the key of [x]. *)
Definition not_after (x y : FileItem) : Prop :=
  key_lt (sort_key y) (sort_key x) = false.

(** The line [line] of [file *] describes the name [nm] as [desc]: the
    name stands before its first colon and space, the description after
    them. *)
Definition described (line nm desc : text) : Prop :=
  exists a b, first_split (str ": ") (strip line) a b
              /\ magic_name a = nm /\ strip b = desc.

(** ** Further inputs: devices and listings *)

Definition devices_header : text := str "List of devices attached".

Definition sample_device : Device :=
  {| dev_id := str "emulator-5554"; dev_status := str "device" |}.

Definition devices_output : text :=
  Str.join nl [devices_header; device_line sample_device].

(** What [file *] says of the file of [sample_ls_line]. *)
Definition sample_magic : text := str "./my file.txt: ASCII text".

Definition sample_item : FileItem :=
  {| entry := sample_entry; magic := Some (Some (str "ASCII text")) |}.

(** ** Further vocabulary: packages *)

(** The line that [pm list packages] prints for a package. *)
Definition package_line (n : text) : text := str "package:" ++ n.

(** A name as it is printed there: not empty, no white space at its
    ends, no newline and no [package:] inside. *)
Definition listed_name (n : text) : Prop :=
  n <> [] /\ strip n = n
  /\ ~ occurs_in nl n /\ ~ occurs_in (str "package:") n.

(** The line [line] of the dump, stripped, is the header of the block of
    the package [n]. *)
Definition header_of (line n : text) : Prop :=
  exists rest, strip line = str "Package [" ++ n ++ str "]" ++ rest.

(** What the loop over the dump keeps true, [seen] being the lines read:
    the current package, when it counts as one, has an entry, and every
    entry was opened by the header of a line read. *)
Definition loop_inv (seen : list text) (st : pkg_dict * option text) : Prop :=
  (forall c p, snd st = Some (c :: p) -> pkg_get (c :: p) (fst st) <> None)
  /\ (forall k, pkg_get k (fst st) <> None ->
        exists line, In line seen /\ header_of line k).

(** ** Further inputs: packages *)

Definition sample_names : list text :=
  [str "com.example.app"; str "com.android.chrome"].

(** A dump with the block of the first of the two. *)
Definition sample_dump : text :=
  Str.join nl [str "Packages:";
               str "  Package [com.example.app] (1a2b3c):";
               str "    firstInstallTime=2023-05-01 10:00:00";
               str "    lastUpdateTime=2023-06-01 09:00:00"].

Definition example_app : Package :=
  {| pk_name := str "com.example.app";
     pk_installTime := str "2023-05-01 10:00:00";
     pk_updateTime := Some (str "2023-06-01 09:00:00") |}.

Definition chrome : Package :=
  {| pk_name := str "com.android.chrome";
     pk_installTime := not_available;
     pk_updateTime := Some not_available |}.

Definition sample_answer : PackageList :=
  {| pl_device_id := str "emulator-5554";
     pl_total_count := 2;
     pl_packages := [example_app; chrome] |}.

(** ** Further inputs: the span of requested permissions *)

(** A dump whose list of requested permissions is followed by the line
    of a user, and by neither of the two permission headers. *)
Definition user_terminated_dump : text :=
  str "    requested permissions:" ++ nl ++
  str "      android.permission.CAMERA" ++ nl ++
  str "    User 0: ceDataInode=1 installed=true".

(** ** Further inputs: a listing of several lines *)

Definition dir_ls_line : text :=
  str "drwxrwx--x 2 u0_a123 sdcard_rw 4096 2023-05-02 11:30 docs".

(** The summary line, the line of the scenario and the line of a
    directory. *)
Definition sample_listing : text :=
  str "total 12" ++ nl ++ sample_ls_line ++ nl ++ dir_ls_line.

(** ** Further vocabulary: best effort for each field *)


(** ** Further vocabulary: integers in decimal and the table of states *)

(** The value of a run of ASCII digits, the most significant first. *)
Definition digits_value (ds : text) : Z :=
  fold_left (fun acc c => acc * 10 + (c - 48)) ds 0.

(** A numeral: ASCII digits, at least one, and no zero in front of
    another digit. *)
Definition numeral (ds : text) : Prop :=
  ds <> [] /\ forallb (between 48 57) ds = true
  /\ forall r, ds = 48 :: r -> r = [].

(** [t] is the integer [z] written in decimal, a hyphen before the
    numeral of a negative one. *)
Definition written (z : Z) (t : text) : Prop :=
  if z <? 0
  then exists ds, t = 45 :: ds /\ numeral ds /\ digits_value ds = - z
  else numeral t /\ digits_value t = z.

(** The characters of a decimal of the library. *)
Definition uint_text (d : Decimal.uint) : text :=
  str (NilEmpty.string_of_uint d).

(** The table of the specification with the words of the program:
    description and status of a code. *)
Definition table_row (code : Z) (desc st : text) : Prop :=
  (code = 1 /\ desc = str "Verified (Automatic)" /\ st = str "success")
  \/ (code = 2 /\ desc = str "Approved (User)" /\ st = str "success")
  \/ (code = 1024 /\ desc = str "Legacy/Unverified (1024)"
      /\ st = str "warning")
  \/ (code <> 1 /\ code <> 2 /\ code <> 1024 /\ st = str "danger"
      /\ exists ds, written code ds /\ desc = str "State Code: " ++ ds).

(** The three words for the status of a record. *)
Definition status_words : list text :=
  [str "success"; str "warning"; str "danger"].

(** An output with a code that the table does not name. *)
Definition other_code_output : text :=
  str "Domain verification state:" ++ nl ++
  str "  e.example: 4096".

Definition other_code_record : DomainState :=
  {| domain := str "e.example";
     code := 4096;
     description := str "State Code: 4096";
     status := str "danger" |}.

(** ** Further vocabulary: the first key that a value follows *)

(** [key] and a character of the class [p] stand at the start of [s]. *)
Definition keyed (key : text) (p : char -> bool) (s : text) : Prop :=
  exists c rest, s = key ++ c :: rest /\ p c = true.

(** Somewhere in [s] the key is followed by a character of the class. *)
Definition has_value (key : text) (p : char -> bool) (s : text) : Prop :=
  exists a b, s = a ++ b /\ keyed key p b.

(** [v] is the value of the first [key] of [s] that a character of the
    class follows (an occurrence of the key that none follows is passed
    over): the run of the class after it, whole. *)
Definition first_value (key : text) (p : char -> bool) (s v : text) : Prop :=
  exists pre post,
    s = pre ++ key ++ v ++ post
    /\ v <> [] /\ forallb p v = true /\ run_ends p post
    /\ forall a b, s = a ++ b -> keyed key p b -> (length pre <= length a)%nat.

(** A version name whose first key has no value, and a user id written
    in letters before the id of the application. *)
Definition second_key_dump : text := str "versionName= versionName=2.0".

Definition letters_userId_dump : text := str "userId=abc appId=123".

(** ** Further vocabulary: the times of a package *)

(** [v] is what the line, stripped, has after its first [key]: the text
    up to the next [key], or to the end of the line, stripped. *)
Definition keyed_value (key line v : text) : Prop :=
  exists a b,
    first_split key (strip line) a b
    /\ ((exists v0 c, first_split key b v0 c /\ v = strip v0)
        \/ (~ occurs_in key b /\ v = strip b)).

(** Where the times kept for a package come from, [seen] being the lines
    read: each from a line with its key, the time stamp from a line
    without the key of the first install time, the update time from a line
    with neither of the other two keys. *)
Definition time_sources (seen : list text) (t : PkgTimes) : Prop :=
  (forall v, pt_installTime t = Some v ->
     exists line, In line seen
       /\ keyed_value (str "firstInstallTime=") line v)
  /\ (forall v, pt_timeStamp t = Some v ->
        exists line, In line seen
          /\ ~ occurs_in (str "firstInstallTime=") (strip line)
          /\ keyed_value (str "timeStamp=") line v)
  /\ (forall v, pt_updateTime t = Some v ->
        exists line, In line seen
          /\ ~ occurs_in (str "firstInstallTime=") (strip line)
          /\ ~ occurs_in (str "timeStamp=") (strip line)
          /\ keyed_value (str "lastUpdateTime=") line v).

Definition times_inv (seen : list text) (st : pkg_dict * option text) : Prop :=
  forall k t, pkg_get k (fst st) = Some t -> time_sources seen t.

(** The same list followed by the header of the install permissions
    alone, and by the header of the runtime permissions alone. *)
Definition install_terminated_dump : text :=
  str "    requested permissions:" ++ nl ++
  str "      android.permission.CAMERA" ++ nl ++
  str "    install permissions:".

Definition runtime_terminated_dump : text :=
  str "    requested permissions:" ++ nl ++
  str "      android.permission.CAMERA" ++ nl ++
  str "    runtime permissions:".

(** * Properties *)

(** ** The base64 round trip *)

Lemma all_below_spec (n : nat) (P : Z -> bool) :
  all_below n P = true -> forall v, 0 <= v < Z.of_nat n -> P v = true.
Proof.
  unfold all_below, below. intros H v Hv.
  rewrite forallb_forall in H. apply H.
  apply in_map_iff. exists (Z.to_nat v). split; [lia|].
  apply in_seq. lia.
Qed.

Lemma byte_val_range (b : byte) : is_byte (Utf8.byte_val b).
Proof.
  unfold is_byte, Utf8.byte_val. pose proof (Byte.to_N_bounded b). lia.
Qed.

Lemma of_Z_byte_val (b : byte) : Base64.of_Z (Utf8.byte_val b) = b.
Proof.
  unfold Base64.of_Z, Utf8.byte_val.
  rewrite N2Z.id, Byte.of_to_N. reflexivity.
Qed.

Lemma byte_val_of_Z (z : Z) : is_byte z -> Utf8.byte_val (Base64.of_Z z) = z.
Proof.
  unfold is_byte, Base64.of_Z, Utf8.byte_val. intros Hz.
  destruct (Byte.of_N (Z.to_N z)) eqn:E.
  - apply Byte.to_of_N in E. lia.
  - apply Byte.of_N_None_iff in E. lia.
Qed.

Lemma digit_ascii (v : Z) : 0 <= Base64.digit v < 128.
Proof.
  unfold Base64.digit.
  assert (H : Forall (fun c => 0 <= c < 128) Base64.alphabet).
  { unfold Base64.alphabet. cbv [str ord].
    repeat (constructor; [vm_compute; split; [discriminate | reflexivity] |]).
    constructor. }
  destruct (nth_in_or_default (Z.to_nat v) Base64.alphabet Base64.pad) as [Hin | ->].
  - rewrite Forall_forall in H. apply H, Hin.
  - vm_compute. split; [discriminate | reflexivity].
Qed.

Lemma value_digit (v : Z) :
  0 <= v < 64 ->
  Base64.value (Base64.digit v) = Some v /\ (Base64.digit v =? Base64.pad) = false.
Proof.
  intros Hv.
  pose proof (all_below_spec 64
    (fun v => match Base64.value (Base64.digit v) with
              | Some u => (u =? v) && negb (Base64.digit v =? Base64.pad)
              | None => false
              end) eq_refl v Hv) as H.
  cbv beta in H.
  destruct (Base64.value (Base64.digit v)); [|discriminate].
  apply andb_true_iff in H. destruct H as [H1 H2].
  apply Z.eqb_eq in H1. subst. split; [reflexivity|].
  now apply negb_true_iff.
Qed.

(** The six-bit digits of a group of bytes. *)
Lemma sextets_range (b1 b2 : Z) :
  is_byte b1 -> is_byte b2 ->
  0 <= Z.shiftr b1 2 < 64
  /\ 0 <= Z.lor (Z.shiftl (Z.land b1 3) 4) (Z.shiftr b2 4) < 64
  /\ 0 <= Z.shiftl (Z.land b1 3) 4 < 64
  /\ 0 <= Z.lor (Z.shiftl (Z.land b1 15) 2) (Z.shiftr b2 6) < 64
  /\ 0 <= Z.shiftl (Z.land b1 15) 2 < 64
  /\ 0 <= Z.land b1 63 < 64.
Proof.
  intros H1 H2.
  pose (inr := fun x => (0 <=? x) && (x <? 64)).
  pose proof (all_below_spec 256 (fun b1 => all_below 256 (fun b2 =>
      inr (Z.shiftr b1 2)
      && inr (Z.lor (Z.shiftl (Z.land b1 3) 4) (Z.shiftr b2 4))
      && inr (Z.shiftl (Z.land b1 3) 4)
      && inr (Z.lor (Z.shiftl (Z.land b1 15) 2) (Z.shiftr b2 6))
      && inr (Z.shiftl (Z.land b1 15) 2)
      && inr (Z.land b1 63))) ltac:(vm_compute; reflexivity) b1 H1) as H.
  cbv beta in H.
  pose proof (all_below_spec 256 _ H b2 H2) as H'. cbv beta in H'.
  unfold inr in H'.
  repeat (apply andb_true_iff in H'; destruct H' as [H' ?]).
  repeat match goal with
         | K : (_ && _) = true |- _ => apply andb_true_iff in K; destruct K
         end.
  lia.
Qed.

(** The bytes a decoder rebuilds from the digits of a group. *)
Lemma bytes_rebuilt (b1 b2 : Z) :
  is_byte b1 -> is_byte b2 ->
  let v2 := Z.lor (Z.shiftl (Z.land b1 3) 4) (Z.shiftr b2 4) in
  let v3 := Z.lor (Z.shiftl (Z.land b1 15) 2) (Z.shiftr b2 6) in
  Base64.byte1 (Z.shiftr b1 2) v2 = b1
  /\ Base64.byte1 (Z.shiftr b1 2) (Z.shiftl (Z.land b1 3) 4) = b1
  /\ Z.land v2 15 = Z.shiftr b2 4
  /\ Z.shiftr v3 2 = Z.land b1 15
  /\ Z.shiftr (Z.shiftl (Z.land b1 15) 2) 2 = Z.land b1 15
  /\ Z.lor (Z.shiftl (Z.shiftr b1 4) 4) (Z.land b1 15) = b1
  /\ Base64.byte3 v3 (Z.land b2 63) = b2.
Proof.
  intros H1 H2 v2 v3. subst v2 v3.
  pose proof (all_below_spec 256 (fun b1 => all_below 256 (fun b2 =>
      let v2 := Z.lor (Z.shiftl (Z.land b1 3) 4) (Z.shiftr b2 4) in
      let v3 := Z.lor (Z.shiftl (Z.land b1 15) 2) (Z.shiftr b2 6) in
      (Base64.byte1 (Z.shiftr b1 2) v2 =? b1)
      && (Base64.byte1 (Z.shiftr b1 2) (Z.shiftl (Z.land b1 3) 4) =? b1)
      && (Z.land v2 15 =? Z.shiftr b2 4)
      && (Z.shiftr v3 2 =? Z.land b1 15)
      && (Z.shiftr (Z.shiftl (Z.land b1 15) 2) 2 =? Z.land b1 15)
      && (Z.lor (Z.shiftl (Z.shiftr b1 4) 4) (Z.land b1 15) =? b1)
      && (Base64.byte3 v3 (Z.land b2 63) =? b2)))
      ltac:(vm_compute; reflexivity) b1 H1) as H.
  cbv beta in H.
  pose proof (all_below_spec 256 _ H b2 H2) as H'. cbv beta zeta in H'.
  repeat (apply andb_true_iff in H'; destruct H' as [H' ?]).
  repeat match goal with
         | K : (_ =? _) = true |- _ => apply Z.eqb_eq in K
         end.
  repeat split; assumption.
Qed.

Lemma byte2_rebuilt (b1 b2 b3 : Z) :
  is_byte b1 -> is_byte b2 -> is_byte b3 ->
  Base64.byte2 (Z.lor (Z.shiftl (Z.land b1 3) 4) (Z.shiftr b2 4))
               (Z.lor (Z.shiftl (Z.land b2 15) 2) (Z.shiftr b3 6)) = b2
  /\ Base64.byte2 (Z.lor (Z.shiftl (Z.land b1 3) 4) (Z.shiftr b2 4))
                  (Z.shiftl (Z.land b2 15) 2) = b2.
Proof.
  intros H1 H2 H3. unfold Base64.byte2.
  destruct (bytes_rebuilt b1 b2 H1 H2) as (_ & _ & E1 & _).
  destruct (bytes_rebuilt b2 b3 H2 H3) as (_ & _ & _ & E2 & E3 & E4 & _).
  cbv zeta in *. rewrite E1, E2, E3. split; exact E4.
Qed.

Lemma decode_encode_vals (n : nat) :
  forall bs, (length bs <= n)%nat -> Forall is_byte bs ->
  Base64.decode_vals (Base64.encode_vals bs) = Some bs.
Proof.
  induction n as [|n IH]; intros bs Hlen Hb.
  - destruct bs; [reflexivity | simpl in Hlen; lia].
  - destruct bs as [|b1 [|b2 [|b3 rest]]]; [reflexivity | | | ].
    + inversion Hb as [|? ? H1 _]; subst.
      destruct (sextets_range b1 b1 H1 H1) as (R1 & _ & R2 & _).
      destruct (value_digit _ R1) as [V1 _]. destruct (value_digit _ R2) as [V2 _].
      destruct (bytes_rebuilt b1 b1 H1 H1) as (_ & B1 & _).
      cbn [Base64.encode_vals Base64.decode_vals].
      rewrite V1, V2, Z.eqb_refl. cbn [andb]. rewrite B1. reflexivity.
    + inversion Hb as [|? ? H1 Hb']; subst. inversion Hb' as [|? ? H2 _]; subst.
      destruct (sextets_range b1 b2 H1 H2) as (R1 & R2 & _).
      destruct (sextets_range b2 b2 H2 H2) as (_ & _ & _ & _ & R3 & _).
      destruct (value_digit _ R1) as [V1 _]. destruct (value_digit _ R2) as [V2 _].
      destruct (value_digit _ R3) as [V3 P3].
      destruct (bytes_rebuilt b1 b2 H1 H2) as (B1 & _).
      destruct (byte2_rebuilt b1 b2 b2 H1 H2 H2) as (_ & B2).
      cbn [Base64.encode_vals Base64.decode_vals].
      rewrite V1, V2, V3, P3, Z.eqb_refl. cbn [andb]. rewrite B1, B2. reflexivity.
    + inversion Hb as [|? ? H1 Hb']; subst. inversion Hb' as [|? ? H2 Hb'']; subst.
      inversion Hb'' as [|? ? H3 Hrest]; subst.
      destruct (sextets_range b1 b2 H1 H2) as (R1 & R2 & _).
      destruct (sextets_range b2 b3 H2 H3) as (_ & _ & _ & R3 & _).
      destruct (sextets_range b3 b3 H3 H3) as (_ & _ & _ & _ & _ & R4).
      destruct (value_digit _ R1) as [V1 _]. destruct (value_digit _ R2) as [V2 _].
      destruct (value_digit _ R3) as [V3 P3]. destruct (value_digit _ R4) as [V4 P4].
      destruct (bytes_rebuilt b1 b2 H1 H2) as (B1 & _).
      destruct (byte2_rebuilt b1 b2 b3 H1 H2 H3) as (B2 & _).
      destruct (bytes_rebuilt b2 b3 H2 H3) as (_ & _ & _ & _ & _ & _ & B3).
      cbn [Base64.encode_vals Base64.decode_vals].
      rewrite V1, V2, V3, V4, P3, P4. cbn [andb].
      rewrite (IH rest); [| simpl in Hlen; lia | assumption].
      cbv zeta in B3. rewrite B1, B2, B3. reflexivity.
Qed.

Lemma encode_vals_ascii (bs : list Z) :
  Forall (fun c => 0 <= c < 128) (Base64.encode_vals bs).
Proof.
  assert (Hp : 0 <= Base64.pad < 128) by (vm_compute; split; [discriminate | reflexivity]).
  assert (H : forall n bs, (length bs <= n)%nat ->
                Forall (fun c => 0 <= c < 128) (Base64.encode_vals bs)).
  { clear bs. induction n as [|n IH]; intros bs Hlen.
    - destruct bs; [constructor | simpl in Hlen; lia].
    - destruct bs as [|b1 [|b2 [|b3 rest]]]; cbn [Base64.encode_vals];
        repeat (constructor; [first [apply digit_ascii | exact Hp] |]);
        try constructor.
      apply IH. simpl in Hlen. lia. }
  apply (H (length bs)). lia.
Qed.

(** The strict decoder returns ASCII bytes as they are. *)
Lemma utf8_strict_ascii (cs : text) :
  Forall (fun c => 0 <= c < 128) cs ->
  Utf8.decode Utf8.strict (map Base64.to_byte cs) = Some cs.
Proof.
  unfold Utf8.decode. induction 1 as [|c cs Hc _ IH]; [reflexivity|].
  cbn [map Utf8.run]. unfold Base64.to_byte at 1.
  rewrite byte_val_of_Z by (unfold is_byte; lia).
  unfold Utf8.start. replace (c <? 128) with true by (symmetry; apply Z.ltb_lt; lia).
  rewrite IH. reflexivity.
Qed.

(** ** [str] operations *)

Lemma Str_eqb_eq (a b : text) : Str.eqb a b = true <-> a = b.
Proof.
  revert b. induction a as [|x a IH]; intros [|y b]; cbn; split;
    try congruence; try discriminate.
  - intros H. apply andb_true_iff in H. destruct H as [H1 H2].
    apply Z.eqb_eq in H1. apply IH in H2. congruence.
  - intros H. inversion H; subst. rewrite Z.eqb_refl. cbn. now apply IH.
Qed.

Lemma Str_eqb_refl (a : text) : Str.eqb a a = true.
Proof. now apply Str_eqb_eq. Qed.

Lemma startswith_app (p r : text) : Str.startswith p (p ++ r) = true.
Proof.
  induction p as [|x p IH]; [reflexivity|].
  cbn. now rewrite Z.eqb_refl, IH.
Qed.

Lemma startswith_skipn (p s : text) :
  Str.startswith p s = true -> s = p ++ skipn (length p) s.
Proof.
  revert s. induction p as [|x p IH]; intros s H; [reflexivity|].
  destruct s as [|y s]; [discriminate|]. cbn in H.
  apply andb_true_iff in H. destruct H as [H1 H2].
  apply Z.eqb_eq in H1. subst. cbn. f_equal. now apply IH.
Qed.

Lemma startswith_iff (p s : text) :
  Str.startswith p s = true <-> exists r, s = p ++ r.
Proof.
  split.
  - intros H. eexists. now apply startswith_skipn.
  - intros [r ->]. apply startswith_app.
Qed.

Lemma skipn_app_exact {A : Type} (p r : list A) : skipn (length p) (p ++ r) = r.
Proof. induction p; cbn; auto. Qed.

Lemma find_first (sep s a b : text) :
  Str.find sep s = Some (a, b) -> first_split sep s a b.
Proof.
  revert a b. induction s as [|c s IH]; intros a b H.
  - cbn in H. destruct (Str.startswith sep []) eqn:E; [|discriminate].
    inversion H; subst. split.
    + cbn. now apply startswith_skipn.
    + intros; cbn; lia.
  - cbn [Str.find] in H. destruct (Str.startswith sep (c :: s)) eqn:E.
    + inversion H; subst. split.
      * cbn [app]. now apply startswith_skipn.
      * intros; cbn; lia.
    + destruct (Str.find sep s) as [[a' b']|] eqn:F; [|discriminate].
      inversion H; subst. destruct (IH a' b eq_refl) as [E1 E2]. split.
      * cbn. now rewrite <- E1.
      * intros x y Hxy. destruct x as [|x0 x].
        -- cbn in Hxy. rewrite Hxy, startswith_app in E. discriminate.
        -- cbn in Hxy. inversion Hxy; subst. cbn. apply le_n_S. eapply E2; eauto.
Qed.

Lemma find_none (sep s : text) : Str.find sep s = None -> ~ occurs_in sep s.
Proof.
  induction s as [|c s IH]; intros H (a & b & E).
  - cbn in H. destruct (Str.startswith sep []) eqn:F; [discriminate|].
    destruct a; [| discriminate]. cbn in E. rewrite E, startswith_app in F.
    discriminate.
  - cbn [Str.find] in H. destruct (Str.startswith sep (c :: s)) eqn:F; [discriminate|].
    destruct (Str.find sep s) as [[a' b']|] eqn:G; [discriminate|].
    destruct a as [|x a].
    + cbn in E. rewrite E, startswith_app in F. discriminate.
    + cbn in E. inversion E; subst. apply IH; [reflexivity|]. now exists a, b.
Qed.

Lemma contains_iff (sub s : text) : Str.contains sub s = true <-> occurs_in sub s.
Proof.
  unfold Str.contains. destruct (Str.find sub s) as [[a b]|] eqn:E.
  - split; [|reflexivity]. intros _. apply find_first in E. destruct E as [E _].
    now exists a, b.
  - split; [discriminate|]. intros H. now apply find_none in E.
Qed.

Lemma contains_false (sub s : text) :
  ~ occurs_in sub s -> Str.contains sub s = false.
Proof.
  intros H. destruct (Str.contains sub s) eqn:E; [|reflexivity].
  apply contains_iff in E. contradiction.
Qed.

Lemma occurs_in_app (sub a s b : text) :
  occurs_in sub s -> occurs_in sub (a ++ s ++ b).
Proof.
  intros (x & y & ->). exists (a ++ x), (y ++ b).
  now rewrite <- !app_assoc.
Qed.

Lemma occurs_in_trans (a b c : text) :
  occurs_in a b -> occurs_in b c -> occurs_in a c.
Proof. intros H (x & y & ->). now apply occurs_in_app. Qed.

(** The second piece of [s.split(sep)], when [sep] occurs in [s]: the text
    from the first occurrence up to the next one, or up to the end. *)
Lemma split_second (sep s a b : text) :
  sep <> [] ->
  Str.find sep s = Some (a, b) ->
  nth 1 (Str.split sep s) [] =
    match Str.find sep b with
    | Some (a', _) => a'
    | None => b
    end.
Proof.
  intros Hsep H. pose proof (find_first _ _ _ _ H) as [E _].
  unfold Str.split.
  assert (Hlen : length s = (length a + length sep + length b)%nat).
  { rewrite E, !length_app. lia. }
  destruct sep as [|c0 sep]; [congruence|]. cbn [length] in Hlen.
  destruct (length s) as [|n] eqn:L; [lia|].
  cbn [Str.split_fuel]. rewrite H. cbn [nth].
  destruct n as [|n].
  - assert (b = []) by (destruct b; [reflexivity | cbn in Hlen; lia]).
    subst b. reflexivity.
  - cbn [Str.split_fuel]. destruct (Str.find (c0 :: sep) b) as [[a' b']|]; reflexivity.
Qed.

Lemma find_shrinks (sep s a b : text) :
  sep <> [] -> Str.find sep s = Some (a, b) -> (length b < length s)%nat.
Proof.
  intros Hsep H. apply find_first in H. destruct H as [-> _].
  rewrite !length_app. destruct sep; [congruence | cbn; lia].
Qed.

Lemma find_in_empty (sep : text) : sep <> [] -> Str.find sep [] = None.
Proof. destruct sep; [congruence | reflexivity]. Qed.

(** The rounds of [split] are enough: more of them change nothing. *)
Lemma split_fuel_enough (sep : text) :
  sep <> [] ->
  forall n k s, (length s <= n)%nat -> (length s <= k)%nat ->
  Str.split_fuel n sep s = Str.split_fuel k sep s.
Proof.
  intros Hsep. induction n as [|n IH]; intros k s Hn Hk.
  - destruct s; [|cbn in Hn; lia]. destruct k; [reflexivity|].
    cbn [Str.split_fuel]. now rewrite find_in_empty.
  - destruct k as [|k].
    + destruct s; [|cbn in Hk; lia]. cbn [Str.split_fuel].
      now rewrite find_in_empty.
    + cbn [Str.split_fuel]. destruct (Str.find sep s) as [[a b]|] eqn:E; [|reflexivity].
      pose proof (find_shrinks _ _ _ _ Hsep E). f_equal. apply IH; lia.
Qed.

(** [s.split(sep)]: the text before the first separator, then the pieces
    of the text after it. *)
Lemma split_equation (sep s : text) :
  sep <> [] ->
  Str.split sep s =
    match Str.find sep s with
    | None => [s]
    | Some (a, b) => a :: Str.split sep b
    end.
Proof.
  intros Hsep. unfold Str.split. destruct (length s) as [|n] eqn:L.
  - destruct s; [|discriminate]. now rewrite find_in_empty.
  - cbn [Str.split_fuel]. destruct (Str.find sep s) as [[a b]|] eqn:E; [|reflexivity].
    pose proof (find_shrinks _ _ _ _ Hsep E). f_equal.
    apply split_fuel_enough; [assumption | lia | lia].
Qed.

(** ** The matcher *)

Lemma consumed_app (w rest : text) : consumed (w ++ rest) rest = w.
Proof.
  unfold consumed. rewrite length_app.
  replace (length w + length rest - length rest)%nat with (length w) by lia.
  rewrite firstn_app, firstn_all, Nat.sub_diag. cbn. apply app_nil_r.
Qed.

Lemma run_len_firstn (p : char -> bool) (s : text) (k : nat) :
  (k <= run_len p s)%nat ->
  forallb p (firstn k s) = true /\ length (firstn k s) = k.
Proof.
  revert k. induction s as [|x s IH]; intros k Hk; cbn in Hk.
  - assert (k = 0%nat) by lia. subst. now cbn.
  - destruct k as [|k]; [now cbn|].
    destruct (p x) eqn:E; [|lia].
    destruct (IH k ltac:(lia)) as [H1 H2]. cbn. now rewrite E, H1, H2.
Qed.

Lemma rep_candidate (p : char -> bool) (s : text) (lo mx k : nat) :
  (mx <= run_len p s)%nat ->
  (lo <= k < lo + (S mx - lo))%nat ->
  s = firstn k s ++ skipn k s
  /\ forallb p (firstn k s) = true
  /\ (lo <= length (firstn k s) <= mx)%nat.
Proof.
  intros Hmx Hk. destruct (run_len_firstn p s k ltac:(lia)) as [H1 H2].
  rewrite firstn_skipn, H2. repeat split; auto; lia.
Qed.

(** Soundness: whatever the matcher returns is a match of the pattern. *)
Lemma m_sound (r : regex) :
  forall s c rest c', In (rest, c') (m r s c) ->
  exists w, s = w ++ rest /\ den r w rest.
Proof.
  induction r as [|p|l|r1 IH1 r2 IH2|r1 IH1 r2 IH2|n r1 IH1|p lo hi|p lo|];
    intros s c rest c' H; cbn [m] in H.
  - destruct H as [H|[]]. inversion H; subst. now exists [].
  - destruct s as [|x s]; [destruct H|]. destruct (p x) eqn:E; [|destruct H].
    destruct H as [H|[]]. inversion H; subst. exists [x]. cbn. eauto.
  - destruct (Str.startswith l s) eqn:E; [|destruct H].
    destruct H as [H|[]]. inversion H; subst. exists l. split; [|reflexivity].
    now apply startswith_skipn.
  - apply in_flat_map in H. destruct H as ([s1 c1] & H1 & H2). cbn in H2.
    destruct (IH1 _ _ _ _ H1) as (w1 & E1 & D1).
    destruct (IH2 _ _ _ _ H2) as (w2 & E2 & D2).
    exists (w1 ++ w2). subst. split; [now rewrite app_assoc|].
    cbn. now exists w1, w2.
  - apply in_app_or in H. destruct H as [H|H].
    + destruct (IH1 _ _ _ _ H) as (w & E & D). exists w. cbn. auto.
    + destruct (IH2 _ _ _ _ H) as (w & E & D). exists w. cbn. auto.
  - apply in_map_iff in H. destruct H as ([s1 c1] & E & H). cbn in E.
    inversion E; subst. apply (IH1 _ _ _ _ H).
  - apply in_map_iff in H. destruct H as (k & E & H). inversion E; subst.
    apply in_rev, in_seq in H.
    set (mx := match hi with Some h => Nat.min h (run_len p s) | None => run_len p s end) in *.
    assert (Hmx : (mx <= run_len p s)%nat) by (subst mx; destruct hi; lia).
    destruct (rep_candidate p s lo mx k Hmx H) as (E1 & E2 & E3).
    exists (firstn k s). split; [exact E1|]. cbn. repeat split; auto; try lia.
    destruct hi; [subst mx; lia | exact I].
  - apply in_map_iff in H. destruct H as (k & E & H). inversion E; subst.
    apply in_seq in H.
    destruct (rep_candidate p s lo (run_len p s) k (le_n _) H) as (E1 & E2 & E3).
    exists (firstn k s). split; [exact E1|]. cbn. split; auto; lia.
  - destruct s as [|x [|y s]].
    + destruct H as [H|[]]. inversion H; subst. exists []. cbn. auto.
    + destruct (x =? 10) eqn:E; [|destruct H]. apply Z.eqb_eq in E. subst.
      destruct H as [H|[]]. inversion H; subst. exists []. cbn. auto.
    + destruct H.
Qed.

(** A pattern without groups leaves the captures as they are. *)
Lemma m_group_free (r : regex) :
  group_free r ->
  forall s c, m r s c = map (fun x => (fst x, c)) (m r s []).
Proof.
  induction r as [|p|l|r1 IH1 r2 IH2|r1 IH1 r2 IH2|n r1 IH1|p lo hi|p lo|];
    intros G s c; cbn [m group_free] in *.
  - reflexivity.
  - destruct s as [|x s]; [reflexivity|]. destruct (p x); reflexivity.
  - destruct (Str.startswith l s); reflexivity.
  - destruct G as [G1 G2]. rewrite (IH1 G1 s c).
    rewrite flat_map_concat_map, map_map, <- flat_map_concat_map.
    cbn [fst snd].
    induction (m r1 s []) as [|[s1 c1] l IHl]; [reflexivity|].
    cbn [flat_map]. rewrite map_app, <- IHl. f_equal.
    cbn [fst snd]. rewrite (IH2 G2 s1 c), (IH2 G2 s1 c1), map_map. reflexivity.
  - destruct G as [G1 G2]. rewrite (IH1 G1 s c), (IH2 G2 s c), map_app. reflexivity.
  - destruct G.
  - rewrite !map_map. reflexivity.
  - rewrite !map_map. reflexivity.
  - destruct s as [|x [|y s]]; [reflexivity| |reflexivity].
    destruct (x =? 10); reflexivity.
Qed.

Lemma accepts_group_free (r : regex) (s : text) (c : caps) :
  group_free r ->
  m r s c = [] <-> accepts r s = false.
Proof.
  intros G. rewrite (m_group_free r G s c). unfold accepts.
  destruct (m r s []); cbn; split; congruence.
Qed.

Lemma match_here_sound (r : regex) (before s : text) (x : rmatch) :
  match_here r before s = Some x ->
  s = m_whole x ++ m_after x
  /\ den r (m_whole x) (m_after x)
  /\ m_before x = before
  /\ exists l, m r s [] = (m_after x, m_caps x) :: l.
Proof.
  unfold match_here. destruct (m r s []) as [|[rest c] l] eqn:E; [discriminate|].
  intros H. inversion H; subst; cbn.
  destruct (m_sound r s [] rest c) as (w & E1 & D); [rewrite E; now left|].
  subst s. rewrite consumed_app. repeat split; eauto.
Qed.

Lemma search_from_sound (r : regex) (s : text) :
  forall before_rev x, search_from r before_rev s = Some x ->
  exists a b, s = a ++ b
    /\ m_before x = rev before_rev ++ a
    /\ match_here r (rev before_rev ++ a) b = Some x
    /\ forall a' b', s = a' ++ b' -> (length a' < length a)%nat ->
                     accepts r b' = false.
Proof.
  induction s as [|c s IH]; intros br x H; cbn [search_from] in H.
  - destruct (match_here r (rev br) []) as [y|] eqn:E; [|discriminate].
    inversion H; subst. exists [], [].
    repeat split; rewrite ?app_nil_r; auto.
    + now destruct (match_here_sound _ _ _ _ E) as (_ & _ & ? & _).
    + intros a' b' _ Hl. cbn in Hl. lia.
  - destruct (match_here r (rev br) (c :: s)) as [y|] eqn:E.
    + inversion H; subst. exists [], (c :: s).
      repeat split; rewrite ?app_nil_r; auto.
      * now destruct (match_here_sound _ _ _ _ E) as (_ & _ & ? & _).
      * intros a' b' _ Hl. cbn in Hl. lia.
    + destruct (IH _ _ H) as (a & b & E1 & E2 & E3 & E4).
      exists (c :: a), b. cbn [rev] in E2, E3. rewrite <- app_assoc in E2, E3.
      cbn [app] in *. repeat split; auto.
      * now rewrite E1.
      * intros a' b' Hs Hl. destruct a' as [|c' a'].
        -- cbn in Hs. subst b'. unfold match_here in E. unfold accepts.
           destruct (m r (c :: s) []) as [|[? ?] ?]; [reflexivity | discriminate].
        -- cbn in Hs. inversion Hs; subst.
           apply (E4 a' b'); [assumption | cbn in Hl; lia].
Qed.

(** [re.search]: the match found, and no match at any position before it. *)
Lemma search_sound (r : regex) (s : text) (x : rmatch) :
  search r s = Some x ->
  s = m_before x ++ m_whole x ++ m_after x
  /\ den r (m_whole x) (m_after x)
  /\ match_here r (m_before x) (m_whole x ++ m_after x) = Some x
  /\ forall a' b', s = a' ++ b' -> (length a' < length (m_before x))%nat ->
                   accepts r b' = false.
Proof.
  intros H. apply search_from_sound in H.
  destruct H as (a & b & E1 & E2 & E3 & E4). cbn in E2, E3.
  destruct (match_here_sound _ _ _ _ E3) as (F1 & F2 & F3 & _).
  subst. repeat split; auto.
Qed.

Lemma search_none_accepts (r : regex) (s a b : text) :
  search r s = None -> s = a ++ b -> accepts r b = false.
Proof.
  unfold search. generalize (@nil char) as br. revert a b.
  induction s as [|c s IH]; intros a b br H E; cbn [search_from] in H.
  - destruct (match_here r (rev br) []) eqn:F; [discriminate|].
    destruct a; [|discriminate]. cbn in E. subst b.
    unfold match_here in F. unfold accepts.
    destruct (m r [] []) as [|[? ?] ?]; [reflexivity | discriminate].
  - destruct (match_here r (rev br) (c :: s)) eqn:F; [discriminate|].
    destruct a as [|c' a].
    + cbn in E. subst b. unfold match_here in F. unfold accepts.
      destruct (m r (c :: s) []) as [|[? ?] ?]; [reflexivity | discriminate].
    + cbn in E. inversion E; subst. eapply IH; eauto.
Qed.

Lemma finditer_from_sound (r : regex) (s : text) :
  forall br skip x, In x (finditer_from r br skip s) ->
  exists a b, s = a ++ b /\ match_here r (rev br ++ a) b = Some x.
Proof.
  induction s as [|c s IH]; intros br skip x H.
  - destruct skip; cbn in H; [|destruct H].
    destruct (match_here r (rev br) []) eqn:E; [|destruct H].
    destruct H as [H|[]]. subst. exists [], [].
    split; [reflexivity | now rewrite app_nil_r].
  - assert (Step : forall k, In x (finditer_from r (c :: br) k s) ->
                     exists a b, c :: s = a ++ b
                                 /\ match_here r (rev br ++ a) b = Some x).
    { intros k Hk. destruct (IH _ _ _ Hk) as (a & b & E1 & E2).
      exists (c :: a), b. cbn [rev] in E2. rewrite <- app_assoc in E2.
      subst. auto. }
    destruct skip as [|k]; cbn [finditer_from] in H.
    + destruct (match_here r (rev br) (c :: s)) eqn:E.
      * destruct H as [H|H]; [|now apply Step in H].
        subst. exists [], (c :: s).
        split; [reflexivity | now rewrite app_nil_r].
      * now apply Step in H.
    + now apply Step in H.
Qed.

(** Every match of [re.finditer] is a match of the pattern inside the text. *)
Lemma finditer_sound (r : regex) (s : text) (x : rmatch) :
  In x (finditer r s) ->
  s = m_before x ++ m_whole x ++ m_after x
  /\ den r (m_whole x) (m_after x)
  /\ match_here r (m_before x) (m_whole x ++ m_after x) = Some x.
Proof.
  intros H. apply finditer_from_sound in H. destruct H as (a & b & E1 & E2).
  cbn in E2. destruct (match_here_sound _ _ _ _ E2) as (F1 & F2 & F3 & _).
  subst. auto.
Qed.

Lemma finditer_none (r : regex) (s : text) :
  (forall a b, s = a ++ b -> accepts r b = false) -> finditer r s = [].
Proof.
  intros H. destruct (finditer r s) as [|x l] eqn:E; [reflexivity|].
  destruct (finditer_sound r s x) as (E1 & _ & E2); [rewrite E; now left|].
  specialize (H _ _ E1). unfold accepts in H. unfold match_here in E2.
  destruct (m r (m_whole x ++ m_after x) []) as [|[? ?] ?]; discriminate.
Qed.

(** A pattern that begins with a literal matches only where the literal
    stands. *)
Lemma den_lit_prefix (l : text) (r : regex) (w rest : text) :
  den (Seq (Lit l) r) w rest -> exists w', w = l ++ w'.
Proof. cbn. intros (w1 & w2 & -> & -> & _). now exists w2. Qed.

Lemma search_lit_occurs (l : text) (r : regex) (s : text) (x : rmatch) :
  search (Seq (Lit l) r) s = Some x -> occurs_in l s.
Proof.
  intros H. apply search_sound in H. destruct H as (E & D & _).
  apply den_lit_prefix in D. destruct D as (w' & D).
  exists (m_before x), (w' ++ m_after x). rewrite E, D. now rewrite <- app_assoc.
Qed.

Lemma search_lit_absent (l : text) (r : regex) (s : text) :
  ~ occurs_in l s -> search (Seq (Lit l) r) s = None.
Proof.
  intros H. destruct (search (Seq (Lit l) r) s) eqn:E; [|reflexivity].
  apply search_lit_occurs in E. contradiction.
Qed.

(** ** Section patterns: [header(.*?)(terminators)] *)

Lemma flat_map_map {A B C : Type} (f : B -> list C) (g : A -> B) (l : list A) :
  flat_map f (map g l) = flat_map (fun x => f (g x)) l.
Proof. induction l as [|x l IH]; cbn; [reflexivity | now rewrite IH]. Qed.

Lemma flat_map_seq_hd {B : Type} (f : nat -> list B) (n : nat) :
  forall a y ys, flat_map f (seq a n) = y :: ys ->
  exists k zs, (a <= k < a + n)%nat /\ f k = y :: zs
               /\ forall j, (a <= j < k)%nat -> f j = [].
Proof.
  induction n as [|n IH]; intros a y ys H; [discriminate|].
  cbn [seq flat_map] in H. destruct (f a) as [|z zs] eqn:E.
  - cbn in H. destruct (IH _ _ _ H) as (k & zs & Hk & Fk & Hj).
    exists k, zs. repeat split; [lia | lia | exact Fk |].
    intros j Hjk. destruct (Nat.eq_dec j a) as [->|]; [exact E|].
    apply Hj. lia.
  - cbn in H. inversion H; subst. exists a, zs. repeat split; [lia | lia | |].
    + exact E.
    + intros j Hjk. lia.
Qed.

Lemma flat_map_seq_nonempty {B : Type} (f : nat -> list B) (a n k : nat) :
  (a <= k < a + n)%nat -> f k <> [] -> flat_map f (seq a n) <> [].
Proof.
  intros Hk Hf H. assert (Hin : In k (seq a n)) by (apply in_seq; lia).
  destruct (f k) as [|y ys] eqn:E; [congruence|].
  assert (In y (flat_map f (seq a n))).
  { apply in_flat_map. exists k. split; [exact Hin|]. rewrite E. now left. }
  rewrite H in *. contradiction.
Qed.

Lemma run_len_any (s : text) : run_len any s = length s.
Proof. induction s; cbn; auto. Qed.

Lemma app_eq_suffix {A : Type} (a1 b1 a2 b2 : list A) :
  a1 ++ b1 = a2 ++ b2 -> (length a1 <= length a2)%nat ->
  exists u, b1 = u ++ b2 /\ a2 = a1 ++ u.
Proof.
  revert a2. induction a1 as [|x a1 IH]; intros a2 H Hl.
  - exists a2. cbn in *. auto.
  - destruct a2 as [|y a2]; [cbn in Hl; lia|].
    cbn in H. inversion H; subst.
    destruct (IH a2 H2 ltac:(cbn in Hl; lia)) as (u & E1 & E2).
    exists u. subst. auto.
Qed.

Lemma app_inv_same_length {A : Type} (a1 b1 a2 b2 : list A) :
  a1 ++ b1 = a2 ++ b2 -> length a1 = length a2 -> a1 = a2 /\ b1 = b2.
Proof.
  intros H Hl. destruct (app_eq_suffix a1 b1 a2 b2 H ltac:(lia)) as (u & E1 & E2).
  assert (u = []).
  { apply (f_equal (@length A)) in E2. rewrite length_app in E2.
    destruct u; [reflexivity | cbn in E2; lia]. }
  subst u. rewrite app_nil_r in E2. cbn in E1. auto.
Qed.

(** The matches of a section pattern at the start of [s], one candidate
    span length after the other. *)
Lemma m_lazy_span (h : text) (T : regex) (s : text) :
  m (lazy_span h T) s [] =
    if Str.startswith h s then
      let s' := skipn (length h) s in
      flat_map (fun k =>
                  map (fun sc => (fst sc,
                                  (2%nat, consumed (skipn k s') (fst sc)) :: snd sc))
                      (m T (skipn k s') [(1%nat, consumed s' (skipn k s'))]))
               (seq 0 (S (length s')))
    else [].
Proof.
  unfold lazy_span. cbn [seqs m]. destruct (Str.startswith h s); [|reflexivity].
  cbn [flat_map fst snd]. rewrite app_nil_r, !flat_map_map.
  cbn [fst snd]. rewrite run_len_any, Nat.sub_0_r. reflexivity.
Qed.

Lemma lazy_span_match_here (h : text) (T : regex) (b s : text) (x : rmatch) :
  group_free T ->
  match_here (lazy_span h T) b s = Some x ->
  exists span tw,
    s = h ++ span ++ tw ++ m_after x
    /\ group 1 x = span
    /\ den T tw (m_after x)
    /\ accepts T (tw ++ m_after x) = true
    /\ forall k, (k < length span)%nat ->
                 accepts T (skipn k (span ++ tw ++ m_after x)) = false.
Proof.
  intros G H. unfold match_here in H. rewrite m_lazy_span in H.
  destruct (Str.startswith h s) eqn:E; [|discriminate].
  cbv zeta in H. apply startswith_skipn in E.
  set (s' := skipn (length h) s) in *.
  match type of H with
  | match ?l with _ => _ end = _ => destruct l as [|[rest c] l'] eqn:FM; [discriminate|]
  end.
  inversion H; subst x; clear H. cbn [m_after m_caps].
  apply flat_map_seq_hd in FM. destruct FM as (k & zs & Hk & Fk & Hj).
  destruct (m T (skipn k s') [(1%nat, consumed s' (skipn k s'))])
    as [|[rest0 c0] l0] eqn:MT; [discriminate|].
  cbn [map fst snd] in Fk. inversion Fk; subst rest c zs; clear Fk.
  assert (Hin : In (rest0, c0) (m T (skipn k s') [(1%nat, consumed s' (skipn k s'))]))
    by (rewrite MT; now left).
  destruct (m_sound T _ _ _ _ Hin) as (tw & Etw & Dtw).
  rewrite (m_group_free T G) in Hin. apply in_map_iff in Hin.
  destruct Hin as (y & Ey & _). apply (f_equal snd) in Ey. cbn [snd] in Ey.
  subst c0. clear y.
  assert (Es' : s' = firstn k s' ++ tw ++ rest0).
  { rewrite <- Etw. symmetry. apply firstn_skipn. }
  assert (Hlen : length (firstn k s') = k).
  { apply firstn_length_le. lia. }
  exists (firstn k s'), tw. repeat split.
  - rewrite E at 1. f_equal. exact Es'.
  - unfold group. cbn [m_caps lookup Nat.eqb].
    rewrite Es' at 1. rewrite Etw at 1. apply consumed_app.
  - exact Dtw.
  - rewrite <- Etw. destruct (accepts T (skipn k s')) eqn:A; [reflexivity|].
    apply (accepts_group_free T _ [(1%nat, consumed s' (skipn k s'))] G) in A.
    rewrite A in MT. discriminate.
  - intros j Hjk. rewrite Hlen in Hjk. rewrite <- Es'.
    specialize (Hj j ltac:(lia)).
    apply (accepts_group_free T _ [(1%nat, consumed s' (skipn j s'))] G).
    destruct (m T (skipn j s') [(1%nat, consumed s' (skipn j s'))]); [reflexivity | discriminate].
Qed.

Lemma lazy_span_accepts (h : text) (T : regex) (u rest : text) :
  group_free T ->
  accepts T rest = true -> accepts (lazy_span h T) (h ++ u ++ rest) = true.
Proof.
  intros G A. unfold accepts at 1. rewrite m_lazy_span.
  rewrite startswith_app, skipn_app_exact. cbv zeta.
  match goal with
  | |- match ?l with _ => _ end = _ => destruct l eqn:FM; [|reflexivity]
  end.
  exfalso. revert FM. apply (flat_map_seq_nonempty _ 0 _ (length u)).
  - rewrite length_app. lia.
  - rewrite skipn_app_exact.
    destruct (m T rest [(1%nat, consumed (u ++ rest) rest)]) eqn:MT; [|discriminate].
    apply (accepts_group_free T _ _ G) in MT. congruence.
Qed.

(** [re.search] with a section pattern: the span starts after the first
    header and ends where a terminator first matches. *)
Lemma lazy_span_search (h : text) (T : regex) (s : text) (x : rmatch) :
  group_free T ->
  search (lazy_span h T) s = Some x ->
  exists pre span rest,
    s = pre ++ h ++ span ++ rest
    /\ group 1 x = span
    /\ first_split h s pre (span ++ rest)
    /\ accepts T rest = true
    /\ forall k, (k < length span)%nat ->
                 accepts T (skipn k (span ++ rest)) = false.
Proof.
  intros G H. apply search_sound in H. destruct H as (E & _ & MH & Left).
  destruct (lazy_span_match_here _ _ _ _ _ G MH) as (span & tw & E1 & E2 & _ & A & F).
  exists (m_before x), span, (tw ++ m_after x).
  assert (Es : s = m_before x ++ h ++ span ++ tw ++ m_after x).
  { rewrite E. f_equal. exact E1. }
  repeat split; auto.
  intros a b Hab.
  destruct (Nat.le_gt_cases (length (m_before x)) (length a)) as [|Hlt]; [assumption|].
  exfalso. specialize (Left a (h ++ b) Hab Hlt).
  assert (Hsuf : exists u, b = u ++ tw ++ m_after x).
  { destruct (app_eq_suffix (a ++ h) b (m_before x ++ h ++ span) (tw ++ m_after x))
      as (u & Eu & _).
    - rewrite <- !app_assoc. rewrite <- Hab, Es. reflexivity.
    - rewrite !length_app. lia.
    - now exists u. }
  destruct Hsuf as (u & ->).
  rewrite (lazy_span_accepts h T u _ G A) in Left. discriminate.
Qed.

(** ... and it finds nothing when no terminator follows the first header. *)
Lemma lazy_span_search_none (h : text) (T : regex) (s : text) :
  group_free T ->
  (forall pre rest, first_split h s pre rest ->
     forall a b, rest = a ++ b -> accepts T b = false) ->
  search (lazy_span h T) s = None.
Proof.
  intros G H. destruct (search (lazy_span h T) s) as [x|] eqn:E; [|reflexivity].
  destruct (lazy_span_search _ _ _ _ G E) as (pre & span & rest & _ & _ & F & A & _).
  rewrite (H pre (span ++ rest) F span rest eq_refl) in A. discriminate.
Qed.

Lemma utf8_run_total (t : text) (bs : list Z) :
  forall st, exists out, Utf8.run (Some t) st bs = Some out.
Proof.
  assert (He : forall o k, (exists out, k = Some out) ->
                exists out, Utf8.emit (Some t) o k = Some out).
  { intros o k [out ->]. unfold Utf8.emit. destruct o; eauto. }
  induction bs as [|b rest IH]; intros st.
  - destruct st; cbn; eauto.
  - cbn [Utf8.run]. destruct st as [|acc r rs].
    + destruct (Utf8.start b) as [o st']. apply He, IH.
    + destruct (Utf8.in_range r b).
      * destruct rs; [apply He, IH | apply IH].
      * destruct (Utf8.start b) as [o st']. apply He, He, IH.
Qed.

Lemma b64decode_b64encode (B : list byte) :
  exists s, Utf8.decode Utf8.strict (Base64.b64encode B) = Some s
            /\ Base64.b64decode s = Some B.
Proof.
  exists (Base64.encode_vals (map Utf8.byte_val B)). split.
  - apply utf8_strict_ascii, encode_vals_ascii.
  - unfold Base64.b64decode.
    rewrite (decode_encode_vals (length (map Utf8.byte_val B))).
    + cbn [option_map]. rewrite map_map.
      f_equal. erewrite map_ext; [apply map_id|]. apply of_Z_byte_val.
    + lia.
    + apply Forall_forall. intros z Hz. apply in_map_iff in Hz.
      destruct Hz as (b & <- & _). apply byte_val_range.
Qed.

(** C4. For every byte sequence [B], valid UTF-8 or not, the file-read
    operation returns a record; decoding its base64 field gives back
    exactly [B], and its size is the number of bytes of [B].  The text view
    plays no part in either. *)
Theorem read_file_base64_round_trip (path : text) (B : list byte) :
  exists r, read_file_content path B = Some r
            /\ Base64.b64decode (fc_base64 r) = Some B
            /\ fc_size r = Z.of_nat (length B).
Proof.
  unfold read_file_content.
  destruct (utf8_run_total [0xFFFD] (map Utf8.byte_val B) Utf8.Idle) as [c Hc].
  change (Utf8.decode Utf8.replace B = Some c) in Hc. rewrite Hc.
  destruct (b64decode_b64encode B) as (s & Hs & Hd).
  rewrite Hs. eexists. split; [reflexivity|]. cbn. auto.
Qed.

(** C1, as amended.  For the bytes [68 69 FF 74 68 65 72 65] the text view
    is hi, one replacement marker, there; the printable runs are the single
    run hithere, because [extract_strings_from_bytes] decodes with
    [errors='ignore'], which drops the invalid byte and joins its two
    neighbours. *)
Theorem read_file_sample (path : text) :
  read_file_content path sample_bytes =
    Some {| fc_path := path;
            fc_size := 8;
            fc_content := str "hi" ++ [0xFFFD] ++ str "there";
            fc_strings := [str "hithere"];
            fc_base64 := str "aGn/dGhlcmU=" |}
  /\ extract_strings_from_bytes sample_bytes 4 = [str "hithere"].
Proof. split; reflexivity. Qed.

(** ** DomainVerificationParser *)

Lemma first_split_unique (sep s a b a' b' : text) :
  first_split sep s a b -> first_split sep s a' b' -> a = a' /\ b = b'.
Proof.
  intros [E1 M1] [E2 M2].
  pose proof (M1 _ _ E2). pose proof (M2 _ _ E1).
  assert (Hlen : length a = length a') by lia.
  rewrite E1 in E2. apply app_inv_same_length in E2; [|exact Hlen].
  destruct E2 as [-> E2]. apply app_inv_head in E2. auto.
Qed.

Lemma find_complete (sep s : text) :
  occurs_in sep s -> exists a b, Str.find sep s = Some (a, b).
Proof.
  intros H. destruct (Str.find sep s) as [[a b]|] eqn:E; [eauto|].
  now apply find_none in E.
Qed.

Lemma disabled_section_find (output pre rest : text) :
  Str.find disabled_marker output = Some (pre, rest) ->
  disabled_section output
    (match Str.find disabled_marker rest with
     | Some (seg, _) => seg
     | None => rest
     end).
Proof.
  intros H. exists pre, rest. split; [now apply find_first|].
  destruct (Str.find disabled_marker rest) as [[seg after]|] eqn:E.
  - left. exists after. now apply find_first.
  - right. split; [now apply find_none | reflexivity].
Qed.

Lemma disabled_section_unique (output pre rest seg : text) :
  Str.find disabled_marker output = Some (pre, rest) ->
  disabled_section output seg ->
  seg = match Str.find disabled_marker rest with
        | Some (s, _) => s
        | None => rest
        end.
Proof.
  intros H (pre' & rest' & F & D). apply find_first in H.
  destruct (first_split_unique _ _ _ _ _ _ H F) as [<- <-].
  destruct D as [(after & D) | (N & ->)].
  - destruct (Str.find disabled_marker rest) as [[s a]|] eqn:E.
    + apply find_first in E. now destruct (first_split_unique _ _ _ _ _ _ D E).
    + apply find_none in E. destruct D as [D _]. exfalso. apply E.
      now exists seg, after.
  - destruct (Str.find disabled_marker rest) as [[s a]|] eqn:E; [|reflexivity].
    apply find_first in E. destruct E as [E _]. exfalso. apply N. now exists s, a.
Qed.

Lemma marker_in_marker_line (s : text) :
  occurs_in (disabled_marker ++ nl) s -> occurs_in disabled_marker s.
Proof.
  intros (a & b & ->). exists a, (nl ++ b). now rewrite <- app_assoc.
Qed.

Lemma disabled_marker_nonempty : disabled_marker <> [].
Proof. cbv. discriminate. Qed.

(** The user-disabled check, read off the text. *)
Lemma is_disabled_iff (output domain : text) :
  is_disabled output domain = true <->
  occurs_in (disabled_marker ++ nl) output
  /\ exists seg, disabled_section output seg /\ occurs_in domain seg.
Proof.
  unfold is_disabled. fold disabled_marker. split.
  - destruct (Str.contains (disabled_marker ++ nl) output) eqn:C; [|discriminate].
    apply contains_iff in C. intros H. split; [exact C|].
    destruct (find_complete _ _ (marker_in_marker_line _ C)) as (pre & rest & F).
    rewrite (split_second _ _ _ _ disabled_marker_nonempty F) in H.
    eexists. split; [apply (disabled_section_find _ _ _ F)|].
    now apply contains_iff.
  - intros (C & seg & D & O).
    destruct (find_complete _ _ (marker_in_marker_line _ C)) as (pre & rest & F).
    apply contains_iff in C. rewrite C.
    rewrite (split_second _ _ _ _ disabled_marker_nonempty F).
    rewrite <- (disabled_section_unique _ _ _ _ F D).
    now apply contains_iff.
Qed.

Lemma classify_table (c : Z) :
  classify c = (table_description c, status_name (table_severity c)).
Proof.
  unfold classify.
  destruct (c =? 1) eqn:E1; [apply Z.eqb_eq in E1; now subst|].
  destruct (c =? 2) eqn:E2; [apply Z.eqb_eq in E2; now subst|].
  destruct (c =? 1024) eqn:E3; [apply Z.eqb_eq in E3; now subst|].
  apply Z.eqb_neq in E1, E2, E3.
  unfold table_description, table_severity.
  destruct c as [|p|p]; try reflexivity.
  repeat (destruct p as [p|p|]; try reflexivity; try congruence).
Qed.

(** What the loop body makes of one match. *)
Lemma domain_record_value (output dom sc : text) (d : DomainState) :
  domain_record output (dom, sc) = Value d ->
  domain d = dom
  /\ py_int sc = Value (code d)
  /\ description d =
       (if is_disabled output dom
        then fst (classify (code d)) ++ user_disabled_suffix
        else fst (classify (code d)))
  /\ status d =
       (if is_disabled output dom then str "danger" else snd (classify (code d))).
Proof.
  unfold domain_record. destruct (py_int sc) as [c|e]; [|discriminate].
  destruct (classify c) as [desc st] eqn:K.
  destruct (is_disabled output dom); intros H; inversion H; subst; cbn;
    rewrite K; auto.
Qed.

Lemma domain_records_in (output : text) (ms : list (text * text)) :
  forall ds d, domain_records output ms = Value ds -> In d ds ->
  exists dom sc, In (dom, sc) ms /\ domain_record output (dom, sc) = Value d.
Proof.
  induction ms as [|[dom sc] ms IH]; intros ds d H Hin; cbn [domain_records] in H.
  - inversion H; subst. destruct Hin.
  - destruct (domain_record output (dom, sc)) as [d0|] eqn:E; [|discriminate].
    destruct (domain_records output ms) as [ds0|] eqn:F; [|discriminate].
    inversion H; subst. destruct Hin as [->|Hin].
    + exists dom, sc. split; [now left | exact E].
    + destruct (IH _ _ eq_refl Hin) as (dom' & sc' & I & R).
      exists dom', sc'. split; [now right | exact R].
Qed.

(** Every record of the result comes from one pass of the loop. *)
Lemma get_app_links_record (output : text) (d : DomainState) :
  In d (domains (get_app_links_state output)) ->
  description d =
    (if is_disabled output (domain d)
     then fst (classify (code d)) ++ user_disabled_suffix
     else fst (classify (code d)))
  /\ status d =
    (if is_disabled output (domain d)
     then str "danger" else snd (classify (code d))).
Proof.
  unfold get_app_links_state.
  destruct (search verification_section_re output) as [vs|]; [|intros []].
  destruct (domain_records output _) as [ds|e] eqn:E; [|intros []].
  cbn [domains]. intros Hin.
  destruct (domain_records_in _ _ _ _ E Hin) as (dom & sc & _ & R).
  apply domain_record_value in R. destruct R as (<- & _ & R1 & R2). auto.
Qed.

(** C2, as amended.  When the text contains the marker Disabled: followed
    by a newline, and a domain's name occurs in the text between the first
    Disabled: and the next one (or the end of the text), the record of that
    domain has status danger and its description is the description of its
    code followed by the suffix [[USER DISABLED]], whatever the code.  (The
    record has no field of its own for the flag.) *)
Theorem disabled_domain_is_blocked (output : text) (d : DomainState) :
  In d (domains (get_app_links_state output)) ->
  occurs_in (disabled_marker ++ nl) output ->
  (exists seg, disabled_section output seg /\ occurs_in (domain d) seg) ->
  status d = status_name blocked
  /\ description d = fst (classify (code d)) ++ user_disabled_suffix.
Proof.
  intros Hin C S. destruct (get_app_links_record _ _ Hin) as [R1 R2].
  assert (D : is_disabled output (domain d) = true) by (apply is_disabled_iff; auto).
  rewrite D in R1, R2. auto.
Qed.

(** *** Integers in decimal *)

Lemma uint_text_digits (d : Decimal.uint) :
  forallb (between 48 57) (uint_text d) = true.
Proof.
  unfold uint_text.
  induction d; cbn [NilEmpty.string_of_uint str forallb]; try reflexivity;
    rewrite IHd; reflexivity.
Qed.

Lemma uint_text_acc (d : Decimal.uint) :
  forall acc : positive,
  fold_left (fun a c => a * 10 + (c - 48)) (uint_text d) (Z.pos acc)
  = Z.pos (Pos.of_uint_acc d acc).
Proof.
  unfold uint_text.
  induction d; intros acc;
    cbn [NilEmpty.string_of_uint str fold_left Pos.of_uint_acc];
    try reflexivity;
    rewrite <- IHd; f_equal;
    match goal with
    | |- context [ord ?a] =>
        let v := eval vm_compute in (ord a) in change (ord a) with v
    end; lia.
Qed.

Lemma uint_text_value (d : Decimal.uint) :
  digits_value (uint_text d) = Z.of_N (Pos.of_uint d).
Proof.
  unfold digits_value, uint_text.
  induction d; cbn [NilEmpty.string_of_uint str fold_left Pos.of_uint];
    try reflexivity; try exact IHd;
    cbn [N.to_nat Z.of_N]; rewrite <- (uint_text_acc d); reflexivity.
Qed.

Lemma uint_text_nonempty (d : Decimal.uint) :
  d <> Decimal.Nil -> uint_text d <> [].
Proof. destruct d; intros H; [congruence | discriminate ..]. Qed.

Lemma uint_text_zero_head (d : Decimal.uint) (r : text) :
  uint_text d = 48 :: r -> exists d', d = Decimal.D0 d'.
Proof.
  destruct d; intros H; try discriminate H.
  eexists. reflexivity.
Qed.

(** The decimal of a positive number has no zero in front. *)
Lemma to_uint_no_zero_head (p : positive) (d' : Decimal.uint) :
  Pos.to_uint p <> Decimal.D0 d'.
Proof.
  intros E.
  pose proof (DecimalPos.Unsigned.to_of (Pos.to_uint p)) as H.
  rewrite DecimalPos.Unsigned.of_to in H. cbn [N.to_uint] in H.
  rewrite E in H. rewrite DecimalFacts.unorm_D0 in H.
  destruct (Decimal.nzhead d') eqn:Hz;
    [ unfold Decimal.unorm in H; rewrite Hz in H;
      apply (DecimalPos.Unsigned.to_uint_nonzero p); rewrite E, H; reflexivity
    | rewrite DecimalFacts.unorm_nzhead in H by (rewrite Hz; discriminate);
      symmetry in H; now apply DecimalFacts.nzhead_nonzero in H .. ].
Qed.

Lemma positive_numeral (p : positive) :
  numeral (uint_text (Pos.to_uint p))
  /\ digits_value (uint_text (Pos.to_uint p)) = Z.pos p.
Proof.
  split; [split; [|split]|].
  - apply uint_text_nonempty, DecimalPos.Unsigned.to_uint_nonnil.
  - apply uint_text_digits.
  - intros r H. apply uint_text_zero_head in H. destruct H as [d' H].
    now apply to_uint_no_zero_head in H.
  - rewrite uint_text_value, DecimalPos.Unsigned.of_to. reflexivity.
Qed.

Lemma dec_positive (p : positive) : dec (Z.pos p) = uint_text (Pos.to_uint p).
Proof.
  unfold dec, uint_text. cbn [Z.to_int NilZero.string_of_int].
  unfold NilZero.string_of_uint.
  pose proof (DecimalPos.Unsigned.to_uint_nonnil p).
  destruct (Pos.to_uint p); [congruence | reflexivity ..].
Qed.

Lemma dec_negative (p : positive) :
  dec (Z.neg p) = 45 :: uint_text (Pos.to_uint p).
Proof.
  unfold dec, uint_text. cbn [Z.to_int NilZero.string_of_int str].
  unfold NilZero.string_of_uint.
  pose proof (DecimalPos.Unsigned.to_uint_nonnil p).
  destruct (Pos.to_uint p); [congruence | reflexivity ..].
Qed.

(** [str(z)] is [z] written in decimal. *)
Lemma dec_written (z : Z) : written z (dec z).
Proof.
  unfold written. destruct z as [|p|p].
  - cbn [Z.ltb Z.compare]. repeat split; try discriminate.
    intros r H. now inversion H.
  - cbn [Z.ltb Z.compare]. rewrite dec_positive. apply positive_numeral.
  - cbn [Z.ltb Z.compare]. rewrite dec_negative.
    exists (uint_text (Pos.to_uint p)).
    destruct (positive_numeral p) as [N V]. repeat split; try apply N.
    rewrite V. reflexivity.
Qed.

(** The chain of comparisons gives the row of the table. *)
Lemma classify_row (c : Z) :
  table_row c (fst (classify c)) (snd (classify c)).
Proof.
  unfold classify, table_row.
  destruct (c =? 1) eqn:E1; [apply Z.eqb_eq in E1; left; auto|].
  destruct (c =? 2) eqn:E2; [apply Z.eqb_eq in E2; right; left; auto|].
  destruct (c =? 1024) eqn:E3;
    [apply Z.eqb_eq in E3; right; right; left; auto|].
  apply Z.eqb_neq in E1, E2, E3. right. right. right. cbn [fst snd].
  repeat (split; [assumption|]). split; [reflexivity|].
  exists (dec c). split; [apply dec_written | reflexivity].
Qed.

(** C5, as amended.  Description and status of every record are the
    function of its code and of the user-disabled flag that the table
    gives, with the words of the program: 1 is success, Verified
    (Automatic); 2 is success, Approved (User); 1024 is warning,
    Legacy/Unverified (1024); any other code is danger, State Code: and
    the code in decimal; the flag forces danger and adds its suffix to the
    description.  The status of a record is one of success, warning and
    danger, and each of them occurs. *)
Theorem severity_is_table_of_code_and_flag :
  (forall output d,
     In d (domains (get_app_links_state output)) ->
     exists desc st,
       table_row (code d) desc st
       /\ (if is_disabled output (domain d)
           then description d = desc ++ user_disabled_suffix
                /\ status d = str "danger"
           else description d = desc /\ status d = st)
       /\ In (status d) status_words)
  /\ (map (fun d => (code d, description d, status d))
          (domains (get_app_links_state all_codes_output))
      = [(1, str "Verified (Automatic)", str "success");
         (2, str "Approved (User)", str "success");
         (1024, str "Legacy/Unverified (1024)", str "warning");
         (0, str "State Code: 0", str "danger")]).
Proof.
  split.
  - intros output d Hin. destruct (get_app_links_record _ _ Hin) as [R1 R2].
    exists (fst (classify (code d))), (snd (classify (code d))).
    pose proof (classify_row (code d)) as T.
    split; [exact T|].
    destruct (is_disabled output (domain d)).
    + split; [auto|]. rewrite R2. right. right. left. reflexivity.
    + split; [auto|]. rewrite R2. unfold status_words.
      destruct T as [(_ & _ & ->)|[(_ & _ & ->)|[(_ & _ & ->)|(_ & _ & _ & -> & _)]]];
        cbn; auto.
  - vm_compute. reflexivity.
Qed.

(** C9.  The user-disabled check is containment of substrings: it holds
    exactly when Disabled: followed by a newline occurs in the text and
    the domain's name occurs somewhere in the text between the first
    Disabled: and the next one; a record is marked, by status danger and
    the suffix [[USER DISABLED]], exactly when the check holds for its
    domain; so example.com is marked disabled when only sub.example.com
    is listed. *)
Theorem disabled_check_is_substring_containment :
  (forall output domain,
     is_disabled output domain = true <->
     occurs_in (disabled_marker ++ nl) output
     /\ exists seg, disabled_section output seg /\ occurs_in domain seg)
  /\ (forall output d,
        In d (domains (get_app_links_state output)) ->
        description d =
          (if is_disabled output (domain d)
           then fst (classify (code d)) ++ user_disabled_suffix
           else fst (classify (code d)))
        /\ status d =
          (if is_disabled output (domain d)
           then str "danger" else snd (classify (code d))))
  /\ map (fun d => (domain d, description d, status d))
         (domains (get_app_links_state sub_only_output))
     = [(str "example.com", str "Verified (Automatic) [USER DISABLED]", str "danger");
        (str "sub.example.com", str "Verified (Automatic) [USER DISABLED]", str "danger")].
Proof.
  split; [exact is_disabled_iff|]. split; [exact get_app_links_record|].
  vm_compute. reflexivity.
Qed.

(** ** PackageSecurityAnalyzer *)

(** With [re] itself every statement of the block returns, and the
    dictionary at the end holds, field by field, what the statements
    assigned. *)
Lemma analyze_closed (raw_data : text) :
  analyze_security_posture raw_data =
    {| version_name :=
         match search (regex_of P_versionName) raw_data with
         | Some x => group 1 x
         | None => unknown
         end;
       version_code :=
         match search (regex_of P_versionCode) raw_data with
         | Some x => group 1 x
         | None => unknown
         end;
       user_id :=
         match search (regex_of P_userId) raw_data with
         | Some x => group 1 x
         | None =>
             if Str.contains (str "appId=") raw_data then
               match search (regex_of P_appId) raw_data with
               | Some x => group 1 x
               | None => unknown
               end
             else unknown
         end;
       data_dir :=
         match search (regex_of P_dataDir) raw_data with
         | Some x => group 1 x
         | None => unknown
         end;
       permissions :=
         match search (regex_of P_requested) raw_data with
         | Some x =>
             sorted (set_of (findall1 (regex_of P_requested_perm) (group 1 x)))
         | None => []
         end;
       granted_permissions :=
         sorted (set_of
           (findall1 (regex_of P_granted) raw_data ++
            match search (regex_of P_install) raw_data with
            | Some x => findall1 (regex_of P_install_perm) (group 1 x)
            | None => []
            end));
       schemes :=
         sorted (filter (fun s => negb (reserved_category s))
                        (set_of (findall1 (regex_of P_scheme) raw_data)));
       providers := sorted (set_of (findall1 (regex_of P_provider) raw_data));
       intent_actions := sorted (set_of (findall1 (regex_of P_action) raw_data));
       intent_categories :=
         sorted (set_of (findall1 (regex_of P_category) raw_data));
       is_debuggable :=
         Str.contains (str "DEBUGGABLE") raw_data
         || Str.contains (str "debuggable=true") raw_data |}.
Proof.
  unfold analyze_security_posture, analyze_with, try_body,
    stmt_version_name, stmt_version_code, stmt_user_id, stmt_data_dir,
    stmt_debuggable, stmt_permissions, stmt_granted_permissions,
    stmt_schemes, stmt_providers, stmt_intents, re_engine.
  cbn [run_try bind e_search e_findall].
  destruct (search (regex_of P_versionName) raw_data);
  destruct (search (regex_of P_versionCode) raw_data);
  destruct (search (regex_of P_userId) raw_data);
  destruct (Str.contains (str "appId=") raw_data);
  destruct (search (regex_of P_appId) raw_data);
  destruct (search (regex_of P_dataDir) raw_data);
  destruct (Str.contains (str "DEBUGGABLE") raw_data
            || Str.contains (str "debuggable=true") raw_data);
  destruct (search (regex_of P_requested) raw_data);
  destruct (search (regex_of P_install) raw_data);
  cbn [run_try bind when_match]; rewrite ?app_nil_r; reflexivity.
Qed.

Lemma in_insert (x y : text) (l : list text) :
  In y (insert x l) <-> y = x \/ In y l.
Proof.
  induction l as [|z l IH]; cbn.
  - intuition.
  - destruct (Str.leb x z); cbn; [intuition|]. rewrite IH. intuition.
Qed.

Lemma in_sorted (y : text) (l : list text) : In y (sorted l) <-> In y l.
Proof.
  induction l as [|x l IH]; cbn; [reflexivity|].
  rewrite in_insert, IH. intuition.
Qed.

Lemma in_set_of (y : text) (l : list text) : In y (set_of l) <-> In y l.
Proof.
  induction l as [|x l IH]; cbn; [reflexivity|].
  destruct (existsb (Str.eqb x) (set_of l)) eqn:E.
  - rewrite IH. split; [auto|]. intros [<-|H]; [|exact H].
    apply existsb_exists in E. destruct E as (z & Hz & Ez).
    apply Str_eqb_eq in Ez. subst z. now apply IH.
  - cbn. rewrite IH. reflexivity.
Qed.

Lemma in_sorted_set (y : text) (l : list text) :
  In y (sorted (set_of l)) <-> In y l.
Proof. now rewrite in_sorted, in_set_of. Qed.

Lemma sorted_set_nil (l : list text) : l = [] -> sorted (set_of l) = [].
Proof. now intros ->. Qed.

(** The one group of a pattern that is a group holds the whole match. *)
Lemma group_1_whole (r : regex) (b s : text) (x : rmatch) :
  match_here (Grp 1 r) b s = Some x -> group 1 x = m_whole x.
Proof.
  unfold match_here. cbn [m].
  destruct (m r s []) as [|[rest c] l]; [discriminate|].
  cbn [map fst snd]. intros H. inversion H; subst. reflexivity.
Qed.

(** What [re.findall] returns for a pattern that is one group: pieces of
    the text that the pattern denotes. *)
Lemma findall1_group_sound (r : regex) (s p : text) :
  In p (findall1 (Grp 1 r) s) ->
  occurs_in p s /\ exists rest, den r p rest.
Proof.
  unfold findall1. intros H. apply in_map_iff in H. destruct H as (x & E & H).
  apply finditer_sound in H. destruct H as (Es & D & MH).
  apply group_1_whole in MH. rewrite MH in E. subst p. split.
  - now exists (m_before x), (m_after x).
  - now exists (m_after x).
Qed.

Lemma requested_terminators_group_free : group_free requested_terminators.
Proof. cbn. tauto. Qed.

Lemma accepts_requested_terminators (s : text) :
  accepts requested_terminators s = starts_terminator s.
Proof.
  unfold accepts, requested_terminators, starts_terminator, starts_user_digit,
    user_digit.
  cbn [m]. change (length (str "User ")) with 5%nat.
  destruct (Str.startswith install_header s); [reflexivity|].
  destruct (Str.startswith (str "User ") s); cbn [flat_map app fst snd andb orb].
  - destruct (skipn 5 s) as [|c t]; cbn [app].
    + destruct (Str.startswith runtime_header s); reflexivity.
    + destruct (is_digit c); [reflexivity|].
      destruct (Str.startswith runtime_header s); reflexivity.
  - destruct (Str.startswith runtime_header s); reflexivity.
Qed.

Lemma requested_is_lazy_span :
  regex_of P_requested = lazy_span requested_header requested_terminators.
Proof. reflexivity. Qed.

(** C3, as amended.  A permission reaches [permissions] only from the span
    between the first [requested permissions:] header and the first place
    after it where one of three markers starts ([install permissions:],
    [User ] and a digit, [runtime permissions:]): the list is what the
    permission pattern finds in that span, so an identifier that stands
    only outside the span is not in it. *)
Theorem requested_permissions_come_from_span (raw_data p : text) :
  In p (permissions (analyze_security_posture raw_data)) ->
  exists pre span rest,
    raw_data = pre ++ requested_header ++ span ++ rest
    /\ first_split requested_header raw_data pre (span ++ rest)
    /\ starts_terminator rest = true
    /\ (forall k, (k < length span)%nat ->
                  starts_terminator (skipn k (span ++ rest)) = false)
    /\ permissions (analyze_security_posture raw_data)
       = sorted (set_of (findall1 (regex_of P_requested_perm) span))
    /\ occurs_in p span
    /\ permission_shaped p.
Proof.
  rewrite analyze_closed. cbn [permissions].
  destruct (search (regex_of P_requested) raw_data) as [x|] eqn:S; [|intros []].
  rewrite requested_is_lazy_span in S.
  destruct (lazy_span_search _ _ _ _ requested_terminators_group_free S)
    as (pre & span & rest & E & G & F & A & N).
  rewrite G. intros Hin. apply (proj1 (in_sorted_set _ _)) in Hin.
  apply findall1_group_sound in Hin. destruct Hin as [O D].
  exists pre, span, rest.
  split; [exact E|]. split; [exact F|].
  split; [now rewrite <- accepts_requested_terminators|].
  split; [intros k Hk; rewrite <- accepts_requested_terminators; now apply N|].
  split; [reflexivity|]. split; [exact O | exact D].
Qed.

Lemma terminator_free_spec (s : text) :
  terminator_free s = true ->
  forall a b, s = a ++ b -> starts_terminator b = false.
Proof.
  unfold terminator_free. intros H a b ->. rewrite forallb_forall in H.
  specialize (H (length a)). rewrite skipn_app_exact in H.
  apply negb_true_iff, H, in_seq. rewrite length_app. lia.
Qed.

(** C10.  When no following header ([install permissions:], [User ] and a
    digit, [runtime permissions:]) starts anywhere after the first
    [requested permissions:] header, the span is not matched and
    [permissions] is empty: the end of the text does not end the span,
    and identifiers listed under the header are left out. *)
Theorem unterminated_span_gives_no_permissions (raw_data : text) :
  (forall pre rest, first_split requested_header raw_data pre rest ->
     forall a b, rest = a ++ b -> starts_terminator b = false) ->
  permissions (analyze_security_posture raw_data) = [].
Proof.
  intros H. rewrite analyze_closed. cbn [permissions].
  rewrite requested_is_lazy_span.
  rewrite (lazy_span_search_none _ _ _ requested_terminators_group_free);
    [reflexivity|].
  intros pre rest F a b Eb. rewrite accepts_requested_terminators. eauto.
Qed.

(** *** Absent markers *)

Lemma search_den_absent (r : regex) (l s : text) :
  (forall w rest, den r w rest -> occurs_in l w) ->
  ~ occurs_in l s -> search r s = None.
Proof.
  intros Hd Hs. destruct (search r s) as [x|] eqn:E; [|reflexivity].
  apply search_sound in E. destruct E as (E & D & _).
  exfalso. apply Hs. rewrite E. apply Hd in D.
  destruct D as (a & b & ->). exists (m_before x ++ a), (b ++ m_after x).
  now rewrite <- !app_assoc.
Qed.

Lemma findall1_den_absent (r : regex) (l s : text) :
  (forall w rest, den r w rest -> occurs_in l w) ->
  ~ occurs_in l s -> findall1 r s = [].
Proof.
  intros Hd Hs. unfold findall1.
  destruct (finditer r s) as [|x t] eqn:E; [reflexivity|].
  destruct (finditer_sound r s x) as (Es & D & _); [rewrite E; now left|].
  exfalso. apply Hs. apply Hd in D. destruct D as (u & v & Ew).
  exists (m_before x ++ u), (v ++ m_after x). rewrite Es, Ew.
  now rewrite <- !app_assoc.
Qed.

Lemma den_lit_occurs (l : text) (r : regex) (w rest : text) :
  den (Seq (Lit l) r) w rest -> occurs_in l w.
Proof. intros D. apply den_lit_prefix in D. destruct D as (w' & ->). now exists [], w'. Qed.

Lemma den_any_permission (w rest : text) :
  den any_permission w rest -> occurs_in (str ".permission.") w.
Proof.
  unfold any_permission. cbn [seqs den].
  intros (w1 & w2 & -> & _ & w3 & w4 & -> & -> & _). now exists w1, w4.
Qed.

Lemma den_granted (w rest : text) :
  den (regex_of P_granted) w rest -> occurs_in (str ".permission.") w.
Proof.
  cbn [regex_of seqs]. intros (w1 & w2 & -> & D & _). cbn [den] in D.
  apply den_any_permission in D. destruct D as (a & b & ->).
  exists a, (b ++ w2). now rewrite <- !app_assoc.
Qed.

Lemma den_install_perm (w rest : text) :
  den (regex_of P_install_perm) w rest -> occurs_in (str ".permission.") w.
Proof. cbn [regex_of den]. apply den_any_permission. Qed.

Lemma search_group_occurs (h : text) (T : regex) (s : text) (x : rmatch) :
  group_free T ->
  search (lazy_span h T) s = Some x -> occurs_in (group 1 x) s.
Proof.
  intros G H. destruct (lazy_span_search _ _ _ _ G H) as (pre & span & rest & E & <- & _).
  exists (pre ++ h), rest. rewrite E. now rewrite <- !app_assoc.
Qed.

(** With [re] itself no statement of the block raises. *)
Lemma re_statements_return (raw_data : text) (a : Analysis) (s : stmt) :
  In s (try_body re_engine raw_data) -> s a <> None.
Proof.
  unfold try_body. cbn [In].
  intros [<-|[<-|[<-|[<-|[<-|[<-|[<-|[<-|[<-|[<-|[]]]]]]]]]]];
    unfold stmt_version_name, stmt_version_code, stmt_user_id, stmt_data_dir,
      stmt_debuggable, stmt_permissions, stmt_granted_permissions,
      stmt_schemes, stmt_providers, stmt_intents, re_engine;
    cbn [bind e_search e_findall]; try discriminate.
  - destruct (search (regex_of P_userId) raw_data); [discriminate|].
    destruct (Str.contains (str "appId=") raw_data); cbn [bind]; discriminate.
  - destruct (_ || _); discriminate.
  - destruct (search (regex_of P_requested) raw_data); cbn [bind]; discriminate.
  - destruct (search (regex_of P_install) raw_data); cbn [bind]; discriminate.
Qed.

(** *** A value that is present *)

Lemma search_from_found (r : regex) (x : rmatch) (pre : text) :
  forall b br,
  (forall a' b', pre ++ b = a' ++ b' -> (length a' < length pre)%nat ->
                 accepts r b' = false) ->
  match_here r (rev br ++ pre) b = Some x ->
  search_from r br (pre ++ b) = Some x.
Proof.
  induction pre as [|c pre IH]; intros b br Hf Hm.
  - rewrite app_nil_r in Hm. cbn [app]. destruct b; cbn [search_from]; now rewrite Hm.
  - cbn [app search_from].
    assert (A : accepts r (c :: pre ++ b) = false).
    { apply (Hf [] (c :: pre ++ b)); [reflexivity | cbn; lia]. }
    unfold match_here at 1. unfold accepts in A.
    destruct (m r (c :: pre ++ b) []) as [|[? ?] ?]; [|discriminate].
    apply IH.
    + intros a' b' E Hl. apply (Hf (c :: a') b'); [cbn; now rewrite E | cbn; lia].
    + cbn [rev]. now rewrite <- app_assoc.
Qed.

Lemma search_found (r : regex) (x : rmatch) (pre b : text) :
  (forall a' b', pre ++ b = a' ++ b' -> (length a' < length pre)%nat ->
                 accepts r b' = false) ->
  match_here r pre b = Some x ->
  search r (pre ++ b) = Some x.
Proof. intros Hf Hm. now apply search_from_found. Qed.

Lemma accepts_lit_prefix (l : text) (r : regex) (s : text) :
  accepts (Seq (Lit l) r) s = true -> Str.startswith l s = true.
Proof.
  unfold accepts. cbn [m]. destruct (Str.startswith l s); [reflexivity|].
  cbn. discriminate.
Qed.

Lemma first_split_no_earlier (l : text) (r : regex) (s pre rest : text) :
  first_split l s pre rest ->
  forall a' b', s = a' ++ b' -> (length a' < length pre)%nat ->
                accepts (Seq (Lit l) r) b' = false.
Proof.
  intros [_ Hmin] a' b' E Hl.
  destruct (accepts (Seq (Lit l) r) b') eqn:A; [|reflexivity].
  apply accepts_lit_prefix, startswith_iff in A. destruct A as (t & ->).
  specialize (Hmin a' t E). lia.
Qed.

Lemma run_len_value (p : char -> bool) (v post : text) :
  forallb p v = true ->
  match post with [] => true | c :: _ => negb (p c) end = true ->
  run_len p (v ++ post) = length v.
Proof.
  intros Hv Hp. induction v as [|c v IH]; cbn in *.
  - destruct post as [|c post]; [reflexivity|]. cbn.
    apply negb_true_iff in Hp. now rewrite Hp.
  - apply andb_true_iff in Hv. destruct Hv as [-> Hv]. now rewrite IH.
Qed.

(** A [key=value] pattern finds the value written after the first [key=]
    when the value is a run of the class that ends there. *)
Lemma search_key_value (key : text) (p : char -> bool) (v pre post s : text) :
  v <> [] ->
  forallb p v = true ->
  match post with [] => true | c :: _ => negb (p c) end = true ->
  first_split key s pre (v ++ post) ->
  exists x, search (Seq (Lit key) (Grp 1 (Rep p 1 None))) s = Some x
            /\ group 1 x = v.
Proof.
  intros Hne Hv Hp F. pose proof F as [E _].
  set (r := Seq (Lit key) (Grp 1 (Rep p 1 None))).
  assert (M : m r (key ++ v ++ post) [] <> [] /\
              forall y l, m r (key ++ v ++ post) [] = y :: l ->
                          y = (post, [(1%nat, v)])).
  { subst r. cbn [m]. rewrite startswith_app, skipn_app_exact.
    cbn [flat_map fst snd]. rewrite app_nil_r, run_len_value by assumption.
    destruct v as [|c v]; [congruence|]. cbn [length].
    replace (S (S (length v)) - 1)%nat with (S (length v)) by lia.
    rewrite seq_S, rev_app_distr. cbn [rev app map].
    replace (1 + length v)%nat with (length (c :: v)) by reflexivity.
    change (c :: v ++ post) with ((c :: v) ++ post).
    rewrite skipn_app_exact. cbn [fst snd]. rewrite consumed_app.
    split; [discriminate|]. intros y l H. now inversion H. }
  destruct M as [M1 M2].
  destruct (m r (key ++ v ++ post) []) as [|y l] eqn:Em; [congruence|].
  rewrite (M2 y l eq_refl) in Em.
  eexists. split.
  - rewrite E. apply search_found.
    + rewrite <- E. apply (first_split_no_earlier _ _ _ _ _ F).
    + unfold match_here. fold r. rewrite Em. reflexivity.
  - reflexivity.
Qed.

Lemma install_is_lazy_span :
  regex_of P_install = lazy_span install_header install_terminators.
Proof. reflexivity. Qed.

Lemma install_terminators_group_free : group_free install_terminators.
Proof. cbn. tauto. Qed.

Lemma granted_without_marker (raw_data : text) :
  ~ occurs_in (str ".permission.") raw_data ->
  granted_permissions (analyze_security_posture raw_data) = [].
Proof.
  intros H. rewrite analyze_closed. cbn [granted_permissions].
  rewrite (findall1_den_absent _ _ _ den_granted H). cbn [app].
  destruct (search (regex_of P_install) raw_data) as [x|] eqn:S; [|reflexivity].
  rewrite install_is_lazy_span in S.
  apply (search_group_occurs _ _ _ _ install_terminators_group_free) in S.
  rewrite (findall1_den_absent _ (str ".permission.") _ den_install_perm); [reflexivity|].
  intros O. apply H. eapply occurs_in_trans; eauto.
Qed.

(** C6, as amended.  For every text without the identity markers
    [versionName=], [versionCode=], [userId=], [appId=] and [dataDir=] the
    four identity fields are Unknown.  The sets do not depend on those
    markers: for every text, with or without them, each set is empty when
    its own marker is absent, the header [requested permissions:] for
    [permissions], [.permission.] for [granted_permissions], [Scheme: ],
    [Provider{], [Action: ] and [Category: ] with their quotes for the
    others.  No statement of the function raises.  When the first
    [versionName=] of a text is followed by 2.3.1 and a space or the end,
    and the text has no [versionCode=], the version name is 2.3.1 and the
    version code Unknown. *)
Theorem defaults_follow_own_markers :
  (forall raw_data,
     ~ occurs_in (str "versionName=") raw_data ->
     ~ occurs_in (str "versionCode=") raw_data ->
     ~ occurs_in (str "userId=") raw_data ->
     ~ occurs_in (str "appId=") raw_data ->
     ~ occurs_in (str "dataDir=") raw_data ->
     let a := analyze_security_posture raw_data in
     version_name a = unknown /\ version_code a = unknown
     /\ user_id a = unknown /\ data_dir a = unknown)
  /\ (forall raw_data,
        let a := analyze_security_posture raw_data in
        (~ occurs_in requested_header raw_data -> permissions a = [])
        /\ (~ occurs_in (str ".permission.") raw_data -> granted_permissions a = [])
        /\ (~ occurs_in (str "Scheme: " ++ dq) raw_data -> schemes a = [])
        /\ (~ occurs_in (str "Provider{") raw_data -> providers a = [])
        /\ (~ occurs_in (str "Action: " ++ dq) raw_data -> intent_actions a = [])
        /\ (~ occurs_in (str "Category: " ++ dq) raw_data -> intent_categories a = []))
  /\ (forall raw_data a s, In s (try_body re_engine raw_data) -> s a <> None)
  /\ (forall raw_data pre post,
        first_split (str "versionName=") raw_data pre (str "2.3.1" ++ post) ->
        ends_value post ->
        ~ occurs_in (str "versionCode=") raw_data ->
        version_name (analyze_security_posture raw_data) = str "2.3.1"
        /\ version_code (analyze_security_posture raw_data) = unknown).
Proof.
  split; [|split; [|split]].
  - intros raw_data N1 N2 N3 N4 N5 a. subst a.
    repeat split; rewrite analyze_closed;
      cbn [version_name version_code user_id data_dir regex_of seqs].
    + now rewrite (search_lit_absent _ _ _ N1).
    + now rewrite (search_lit_absent _ _ _ N2).
    + now rewrite (search_lit_absent _ _ _ N3), (contains_false _ _ N4).
    + now rewrite (search_lit_absent _ _ _ N5).
  - intros raw_data a. subst a.
    repeat split; intros N; try (now apply granted_without_marker);
      rewrite analyze_closed;
      cbn [permissions schemes providers intent_actions intent_categories
           regex_of seqs].
    + unfold lazy_span. cbn [seqs]. now rewrite (search_lit_absent _ _ _ N).
    + now rewrite (findall1_den_absent _ _ _ (den_lit_occurs _ _) N).
    + now rewrite (findall1_den_absent _ _ _ (den_lit_occurs _ _) N).
    + now rewrite (findall1_den_absent _ _ _ (den_lit_occurs _ _) N).
    + now rewrite (findall1_den_absent _ _ _ (den_lit_occurs _ _) N).
  - exact re_statements_return.
  - intros raw_data pre post F Hend N. rewrite analyze_closed.
    cbn [version_name version_code]. cbn [regex_of].
    rewrite (search_lit_absent _ _ _ N).
    destruct (search_key_value (str "versionName=") not_space (str "2.3.1")
                pre post raw_data) as (x & -> & G); auto.
    + discriminate.
    + destruct Hend as [->|(c & post' & -> & Hc)]; [reflexivity|].
      unfold not_space, neg. now rewrite Hc.
Qed.

(** *** One handler for the whole block *)

Lemma run_try_stops (pre : list stmt) (s : stmt) (post : list stmt) :
  forall a a', run_all pre a = Some a' -> s a' = None ->
  run_try (pre ++ s :: post) a = a'.
Proof.
  induction pre as [|s0 pre IH]; intros a a' H N; cbn in *.
  - inversion H; subst. now rewrite N.
  - destruct (s0 a) as [a0|]; [|discriminate]. now apply IH.
Qed.

(** A remark on the handler.  The block has one handler for all its
    statements: were a statement to raise, the block would end there, the
    fields assigned before keep their values and the others their
    defaults. *)
Lemma single_handler_ends_the_block :
  (forall re raw_data pre s post a',
     try_body re raw_data = pre ++ s :: post ->
     run_all pre initial_analysis = Some a' ->
     s a' = None ->
     analyze_with re raw_data = a')
  /\ (forall raw_data,
        analyze_with (raising_on P_versionCode) raw_data =
          when_match (search (regex_of P_versionName) raw_data)
                     (fun x => set_version_name (group 1 x)) initial_analysis).
Proof.
  split.
  - intros re raw_data pre s post a' E H N. unfold analyze_with. rewrite E.
    now apply run_try_stops.
  - intros raw_data. reflexivity.
Qed.



(** ** DirectoryListingParser *)

Lemma match_accepts (r : regex) (s : text) :
  match_ r s = None <-> accepts r s = false.
Proof.
  unfold match_, match_here, accepts.
  destruct (m r s []) as [|[? ?] ?]; split; congruence.
Qed.

Lemma find_date_range (parts : list text) :
  forall k, find_date k parts = -1 \/ k <= find_date k parts.
Proof.
  induction parts as [|p parts IH]; intros k; cbn [find_date]; [now left|].
  destruct (match_ date_re p); [right; lia|].
  destruct (IH (k + 1)); [now left | right; lia].
Qed.

(** The loop over the tokens returns the index of the date token. *)
Lemma find_date_located (parts : list text) :
  forall k i, 0 <= k ->
  (find_date k parts = k + Z.of_nat i <-> date_at parts i).
Proof.
  induction parts as [|p parts IH]; intros k i Hk; cbn [find_date].
  - split; [lia|]. intros [(d & H & _) _]. destruct i; discriminate.
  - destruct (match_ date_re p) as [x|] eqn:E.
    + assert (A : accepts date_re p = true).
      { destruct (accepts date_re p) eqn:A; [reflexivity|].
        apply match_accepts in A. congruence. }
      split.
      * intros H. assert (i = 0%nat) by lia. subst i. split.
        -- now exists p.
        -- intros j t Hj. lia.
      * intros [_ H]. destruct i as [|i]; [lia|].
        specialize (H 0%nat p ltac:(lia) eq_refl). congruence.
    + apply match_accepts in E. destruct i as [|i].
      * split.
        -- intros H. destruct (find_date_range parts (k + 1)); lia.
        -- intros [(d & H & A) _]. cbn in H. inversion H; subst. congruence.
      * replace (k + Z.of_nat (S i)) with ((k + 1) + Z.of_nat i) by lia.
        rewrite (IH (k + 1) i ltac:(lia)). unfold date_at. cbn [nth_error].
        split; intros [H1 H2]; (split; [exact H1|]).
        -- intros [|j] t Hj Ht; [cbn in Ht; inversion Ht; now subst|].
           cbn in Ht. apply (H2 j t); [lia | exact Ht].
        -- intros j t Hj Ht. apply (H2 (S j) t); [lia | exact Ht].
Qed.

Lemma index_nonneg (l : list text) (n : nat) :
  (n < length l)%nat -> index l (Z.of_nat n) = Some (nth n l []).
Proof.
  intros H. unfold index.
  replace (Z.of_nat n <? 0) with false by (symmetry; apply Z.ltb_ge; lia).
  rewrite Nat2Z.id. now apply nth_error_nth'.
Qed.

Lemma index_beyond (l : list text) (n : nat) :
  (length l <= n)%nat -> index l (Z.of_nat n) = None.
Proof.
  intros H. unfold index.
  replace (Z.of_nat n <? 0) with false by (symmetry; apply Z.ltb_ge; lia).
  rewrite Nat2Z.id. now apply nth_error_None.
Qed.

Lemma split_no_sep (sep s : text) :
  ~ occurs_in sep s -> Str.split sep s = [s].
Proof.
  intros H. unfold Str.split. destruct (length s); [reflexivity|].
  cbn [Str.split_fuel]. destruct (Str.find sep s) as [[a b]|] eqn:E; [|reflexivity].
  apply find_first in E. destruct E as [E _]. exfalso. apply H. now exists a, b.
Qed.

(** The loop body on a line whose date token has a token before it and a
    token after it. *)
Lemma parse_line_located (line : text) (i : nat) :
  let l := strip line in
  let parts := split_ws l in
  l <> [] ->
  Str.startswith (str "total ") l = false ->
  (7 <= length parts)%nat ->
  date_at parts i ->
  (1 <= i)%nat ->
  (i + 1 < length parts)%nat ->
  parse_line line =
    Some {| name := Str.join (str " ") (skipn (i + 2) parts);
            type := kind_of (nth 0 parts []);
            size := nth (i - 1) parts [];
            date := nth i parts [] ++ str " " ++ nth (i + 1) parts [];
            perms := nth 0 parts [];
            raw_line := l |}.
Proof.
  intros l parts Hl Ht H7 Hd H1 H2. unfold parse_line. fold l. fold parts.
  rewrite Ht. destruct l as [|c0 l0] eqn:El; [congruence|]. cbn [orb].
  replace (length parts <? 7)%nat with false by (symmetry; apply Nat.ltb_ge; lia).
  apply (find_date_located parts 0 i ltac:(lia)) in Hd. cbn [Z.add] in Hd.
  rewrite Hd.
  replace (Z.of_nat i =? -1) with false by (symmetry; apply Z.eqb_neq; lia).
  change 0 with (Z.of_nat 0).
  rewrite (index_nonneg parts 0) by lia. cbn [bind].
  replace (Z.of_nat i - 1) with (Z.of_nat (i - 1)) by lia.
  replace (Z.of_nat i + 1) with (Z.of_nat (i + 1)) by lia.
  rewrite (index_nonneg parts (i - 1)), (index_nonneg parts i),
    (index_nonneg parts (i + 1)) by lia.
  cbn [bind].
  replace (Z.to_nat (Z.of_nat i + 2)) with (i + 2)%nat by lia.
  reflexivity.
Qed.

(** The loop body on a line whose date token is the last token: the
    token after the date is missing, the handler passes the line over. *)
Lemma parse_line_date_last (line : text) (i : nat) :
  let l := strip line in
  let parts := split_ws l in
  (7 <= length parts)%nat ->
  date_at parts i ->
  (i + 1 = length parts)%nat ->
  parse_line line = None.
Proof.
  intros l parts H7 Hd H2. unfold parse_line. fold l. fold parts.
  destruct (_ || _); [reflexivity|].
  replace (length parts <? 7)%nat with false by (symmetry; apply Nat.ltb_ge; lia).
  apply (find_date_located parts 0 i ltac:(lia)) in Hd. cbn [Z.add] in Hd.
  rewrite Hd.
  replace (Z.of_nat i =? -1) with false by (symmetry; apply Z.eqb_neq; lia).
  change 0 with (Z.of_nat 0).
  rewrite (index_nonneg parts 0) by lia. cbn [bind].
  replace (Z.of_nat i - 1) with (Z.of_nat (i - 1)) by lia.
  replace (Z.of_nat i + 1) with (Z.of_nat (i + 1)) by lia.
  rewrite (index_nonneg parts (i - 1)), (index_nonneg parts i),
    (index_beyond parts (i + 1)) by lia.
  reflexivity.
Qed.

Lemma parse_ls_output_one_line (line : text) :
  ~ occurs_in nl line ->
  parse_ls_output line =
    match parse_line line with Some f => [f] | None => [] end.
Proof.
  intros H. unfold parse_ls_output. rewrite (split_no_sep _ _ H).
  cbn [flat_map]. apply app_nil_r.
Qed.

Lemma index_in (l : list text) (i : Z) (t : text) : index l i = Some t -> In t l.
Proof.
  unfold index. destruct (i <? 0).
  - destruct (0 <=? Z.of_nat (length l) + i); [|discriminate]. apply nth_error_In.
  - apply nth_error_In.
Qed.

(** What the loop body has established when it appends an entry. *)
Lemma parse_line_some (line : text) (f : FileEntry) :
  parse_line line = Some f ->
  let l := strip line in
  let parts := split_ws l in
  let date_idx := find_date 0 parts in
  l <> [] /\ Str.startswith (str "total ") l = false
  /\ (7 <= length parts)%nat
  /\ raw_line f = l
  /\ index parts 0 = Some (perms f)
  /\ type f = kind_of (perms f)
  /\ date_idx <> -1
  /\ index parts (date_idx - 1) = Some (size f)
  /\ (exists d0 d1, index parts date_idx = Some d0
                    /\ index parts (date_idx + 1) = Some d1
                    /\ date f = d0 ++ str " " ++ d1)
  /\ name f = Str.join (str " ") (skipn (Z.to_nat (date_idx + 2)) parts).
Proof.
  intros H l parts date_idx. unfold parse_line in H. fold l in H. fold parts in H.
  fold date_idx in H.
  destruct l as [|c0 l0] eqn:El; [discriminate|]. cbn [orb] in H.
  destruct (Str.startswith (str "total ") (c0 :: l0)) eqn:Et; [discriminate|].
  destruct (length parts <? 7)%nat eqn:E7; [discriminate|].
  apply Nat.ltb_ge in E7.
  destruct (index parts 0) as [p0|] eqn:E0; [|discriminate]. cbn [bind] in H.
  destruct (date_idx =? -1) eqn:Ed; [discriminate|]. apply Z.eqb_neq in Ed.
  destruct (index parts (date_idx - 1)) as [sz|] eqn:E1; [|discriminate].
  cbn [bind] in H.
  destruct (index parts date_idx) as [d0|] eqn:E2; [|discriminate].
  cbn [bind] in H.
  destruct (index parts (date_idx + 1)) as [d1|] eqn:E3; [|discriminate].
  cbn [bind] in H. inversion H; subst f; clear H. cbn.
  repeat split; auto; try discriminate.
  exists d0, d1. auto.
Qed.

Lemma parse_ls_output_in (output : text) (f : FileEntry) :
  In f (parse_ls_output output) ->
  exists line, In line (Str.split nl output) /\ parse_line line = Some f.
Proof.
  unfold parse_ls_output. intros H. apply in_flat_map in H.
  destruct H as (line & Hl & Hf). exists line. split; [exact Hl|].
  destruct (parse_line line) as [g|]; [|destruct Hf].
  destruct Hf as [->|[]]. reflexivity.
Qed.

(** The entries of the lines of a list, with the lines they come from. *)
Lemma entries_of_lines (lines : list text) (f : FileEntry) :
  In f (flat_map (fun line => match parse_line line with
                              | Some f => [f]
                              | None => []
                              end) lines) ->
  exists l0, In l0 lines /\ raw_line f = strip l0.
Proof.
  intros H. apply in_flat_map in H. destruct H as (l0 & Hl & Hf).
  exists l0. split; [exact Hl|].
  destruct (parse_line l0) as [g|] eqn:P; [|destruct Hf].
  destruct Hf as [->|[]].
  now destruct (parse_line_some _ _ P) as (_ & _ & _ & R & _).
Qed.

(** C8, as amended.  The line of the scenario gives one entry: a regular
    file of size 1024, modified 2023-05-01 10:00, named my file.txt.  In
    general, for every line of an output, of one line or of many, that is
    not blank, is not the summary line and has at least seven tokens, and
    whose date token has a token before it and a token after it: the
    result has the entry of the line, between the entries of the lines
    before it and those of the lines after it; in this entry the token
    before the date is the size, the date token and the one after it form
    the date, and the tokens after these, joined by single spaces, form
    the name.  A line whose date token is its last token gives no entry:
    the result is made of the entries of the other lines. *)
Theorem date_token_delimits_size_date_and_name :
  parse_ls_output sample_ls_line =
    [{| name := str "my file.txt";
        type := str "file";
        size := str "1024";
        date := str "2023-05-01 10:00";
        perms := str "-rw-rw----";
        raw_line := sample_ls_line |}]
  /\ (forall output before line after i,
        let l := strip line in
        let parts := split_ws l in
        Str.split nl output = before ++ line :: after ->
        l <> [] ->
        Str.startswith (str "total ") l = false ->
        (7 <= length parts)%nat ->
        date_at parts i ->
        (1 <= i)%nat ->
        (i + 1 < length parts)%nat ->
        exists es_before es_after,
          parse_ls_output output =
            es_before
            ++ {| name := Str.join (str " ") (skipn (i + 2) parts);
                  type := kind_of (nth 0 parts []);
                  size := nth (i - 1) parts [];
                  date := nth i parts [] ++ str " " ++ nth (i + 1) parts [];
                  perms := nth 0 parts [];
                  raw_line := l |}
            :: es_after
          /\ (forall f, In f es_before ->
                exists l0, In l0 before /\ raw_line f = strip l0)
          /\ (forall f, In f es_after ->
                exists l0, In l0 after /\ raw_line f = strip l0))
  /\ (forall output before line after i,
        let l := strip line in
        let parts := split_ws l in
        Str.split nl output = before ++ line :: after ->
        (7 <= length parts)%nat ->
        date_at parts i ->
        (i + 1 = length parts)%nat ->
        exists es_before es_after,
          parse_ls_output output = es_before ++ es_after
          /\ (forall f, In f es_before ->
                exists l0, In l0 before /\ raw_line f = strip l0)
          /\ (forall f, In f es_after ->
                exists l0, In l0 after /\ raw_line f = strip l0)).
Proof.
  split; [vm_compute; reflexivity | split].
  - intros output before line after i l parts Hs Hl Ht H7 Hd H1 H2.
    unfold parse_ls_output. rewrite Hs, flat_map_app. cbn [flat_map].
    rewrite (parse_line_located line i Hl Ht H7 Hd H1 H2). cbn [app].
    eexists. eexists. split; [reflexivity|].
    split; intros f Hf; now apply entries_of_lines.
  - intros output before line after i l parts Hs H7 Hd H2.
    unfold parse_ls_output. rewrite Hs, flat_map_app. cbn [flat_map].
    rewrite (parse_line_date_last line i H7 Hd H2). cbn [app].
    eexists. eexists. split; [reflexivity|].
    split; intros f Hf; now apply entries_of_lines.
Qed.

(** * Further properties *)

(** ** [sorted] and [set] *)

Lemma leb_refl (a : text) : Str.leb a a = true.
Proof.
  induction a as [|x a IH]; cbn; [reflexivity|].
  now rewrite Z.eqb_refl, IH, orb_true_r.
Qed.

Lemma leb_cons (x y : char) (a b : text) :
  Str.leb (x :: a) (y :: b) = true <-> x < y \/ (x = y /\ Str.leb a b = true).
Proof.
  cbn. rewrite orb_true_iff, andb_true_iff, Z.ltb_lt, Z.eqb_eq. reflexivity.
Qed.

Lemma leb_total (a : text) : forall b, Str.leb a b = true \/ Str.leb b a = true.
Proof.
  induction a as [|x a IH]; intros [|y b]; try (now left); try (now right).
  rewrite !leb_cons. destruct (IH b); destruct (Z.lt_trichotomy x y) as [|[|]]; auto.
Qed.

Lemma leb_trans (a : text) :
  forall b c, Str.leb a b = true -> Str.leb b c = true -> Str.leb a c = true.
Proof.
  induction a as [|x a IH]; intros [|y b] [|z c]; try reflexivity; try discriminate.
  rewrite !leb_cons. intros [H1|[H1 H1']] [H2|[H2 H2']]; subst; try (left; lia).
  right. split; [reflexivity|]. eapply IH; eauto.
Qed.

Lemma leb_antisym (a : text) :
  forall b, Str.leb a b = true -> Str.leb b a = true -> a = b.
Proof.
  induction a as [|x a IH]; intros [|y b]; try reflexivity; try discriminate.
  rewrite !leb_cons. intros [H1|[H1 H1']] [H2|[H2 H2']]; subst; try lia.
  f_equal. now apply IH.
Qed.

Lemma insert_perm (x : text) (l : list text) : Permutation (insert x l) (x :: l).
Proof.
  induction l as [|y l IH]; cbn; [reflexivity|].
  destruct (Str.leb x y); [reflexivity|].
  rewrite IH. apply perm_swap.
Qed.

Lemma sorted_perm (l : list text) : Permutation (sorted l) l.
Proof.
  induction l as [|x l IH]; cbn; [reflexivity|].
  rewrite insert_perm. now constructor.
Qed.

Lemma insert_sorted (x : text) (l : list text) :
  StronglySorted (fun a b => Str.leb a b = true) l ->
  StronglySorted (fun a b => Str.leb a b = true) (insert x l).
Proof.
  induction 1 as [|y l Hs IH Hy]; cbn; [repeat constructor|].
  destruct (Str.leb x y) eqn:E.
  - constructor; [now constructor|]. constructor; [exact E|].
    rewrite Forall_forall in *. intros z Hz. eapply leb_trans; eauto.
  - constructor; [exact IH|].
    assert (Hyx : Str.leb y x = true) by (destruct (leb_total x y); congruence).
    rewrite Forall_forall in *. intros z Hz.
    apply (Permutation_in _ (insert_perm x l)) in Hz. destruct Hz as [<-|Hz]; auto.
Qed.

Lemma sorted_sorted (l : list text) :
  StronglySorted (fun a b => Str.leb a b = true) (sorted l).
Proof.
  induction l as [|x l IH]; cbn; [constructor | now apply insert_sorted].
Qed.

Lemma set_of_nodup (l : list text) : NoDup (set_of l).
Proof.
  induction l as [|x l IH]; cbn; [constructor|].
  destruct (existsb (Str.eqb x) (set_of l)) eqn:E; [exact IH|].
  constructor; [|exact IH]. intros Hin.
  assert (existsb (Str.eqb x) (set_of l) = true); [|congruence].
  apply existsb_exists. exists x. split; [exact Hin | apply Str_eqb_refl].
Qed.

Lemma sorted_nodup_increasing (l : list text) : NoDup l -> increasing (sorted l).
Proof.
  intros Hn.
  assert (Hn' : NoDup (sorted l)).
  { eapply Permutation_NoDup; [symmetry; apply sorted_perm | exact Hn]. }
  pose proof (sorted_sorted l) as Hs. unfold increasing.
  induction Hs as [|y t Hs IH Hy]; [constructor|].
  inversion Hn' as [|? ? Hnot Hn'']; subst.
  constructor; [now apply IH|].
  rewrite Forall_forall in *. intros z Hz. split; [now apply Hy|].
  intros ->. contradiction.
Qed.

Lemma increasing_nodup (l : list text) : increasing l -> NoDup l.
Proof.
  induction 1 as [|y t Hs IH Hy]; constructor; [|exact IH].
  intros Hin. rewrite Forall_forall in Hy. now destruct (Hy y Hin).
Qed.

(** X1.  Every set-valued field of the profile is sorted in increasing
    order of code points and has no element twice. *)
Theorem set_fields_are_increasing (raw_data : text) :
  let a := analyze_security_posture raw_data in
  increasing (permissions a) /\ increasing (granted_permissions a)
  /\ increasing (schemes a) /\ increasing (providers a)
  /\ increasing (intent_actions a) /\ increasing (intent_categories a).
Proof.
  intros a. subst a. rewrite analyze_closed.
  cbn [permissions granted_permissions schemes providers intent_actions
       intent_categories].
  repeat split; try (apply sorted_nodup_increasing, set_of_nodup).
  - destruct (search (regex_of P_requested) raw_data).
    + apply sorted_nodup_increasing, set_of_nodup.
    + constructor.
  - apply sorted_nodup_increasing, NoDup_filter, set_of_nodup.
Qed.

(** ** Identity fields *)

Lemma run_len_stops (p : char -> bool) (s : text) :
  run_ends p (skipn (run_len p s) s).
Proof.
  induction s as [|c s IH]; cbn; [exact I|].
  destruct (p c) eqn:E; cbn; [exact IH | exact E].
Qed.

Lemma run_len_le (p : char -> bool) (s : text) : (run_len p s <= length s)%nat.
Proof. induction s as [|c s IH]; cbn; [lia|]. destruct (p c); cbn; lia. Qed.

(** A greedy repeat first tries the whole run. *)
Lemma m_rep_greedy (p : char -> bool) (lo : nat) (s : text) (c : caps) :
  (lo <= run_len p s)%nat ->
  exists l, m (Rep p lo None) s c = (skipn (run_len p s) s, c) :: l.
Proof.
  intros H. cbn [m].
  replace (S (run_len p s) - lo)%nat with (S (run_len p s - lo)) by lia.
  rewrite seq_S, rev_app_distr. cbn [rev app map].
  replace (lo + (run_len p s - lo))%nat with (run_len p s) by lia.
  eexists. reflexivity.
Qed.

Lemma m_rep_short (p : char -> bool) (lo : nat) (s : text) (c : caps) :
  (run_len p s < lo)%nat -> m (Rep p lo None) s c = [].
Proof.
  intros H. cbn [m].
  replace (S (run_len p s) - lo)%nat with 0%nat by lia. reflexivity.
Qed.

(** *** The first key with a value *)

Lemma keyed_accepts (key : text) (p : char -> bool) (b : text) :
  keyed key p b -> accepts (Seq (Lit key) (Grp 1 (Rep p 1 None))) b = true.
Proof.
  intros (c & rest & -> & Hc). unfold accepts. cbn [m].
  rewrite startswith_app, skipn_app_exact. cbn [flat_map fst snd].
  rewrite app_nil_r.
  assert (H : (1 <= run_len p (c :: rest))%nat) by (cbn; rewrite Hc; lia).
  destruct (m_rep_greedy p 1 (c :: rest) [] H) as (l & Hm). cbn [m] in Hm.
  rewrite Hm. reflexivity.
Qed.

Lemma accepts_keyed (key : text) (p : char -> bool) (b : text) :
  accepts (Seq (Lit key) (Grp 1 (Rep p 1 None))) b = true -> keyed key p b.
Proof.
  unfold accepts. cbn [m].
  destruct (Str.startswith key b) eqn:SW; [|discriminate].
  apply startswith_skipn in SW. set (q := skipn (length key) b) in *.
  cbn [flat_map fst snd]. rewrite app_nil_r.
  destruct (Nat.le_gt_cases 1 (run_len p q)) as [Hle|Hlt].
  - intros _. destruct q as [|c rest]; [cbn in Hle; lia|].
    exists c, rest. split; [exact SW|].
    cbn in Hle. destruct (p c); [reflexivity | lia].
  - pose proof (m_rep_short p 1 q [] Hlt) as Hm. cbn [m] in Hm.
    rewrite Hm. discriminate.
Qed.

(** The search finds something exactly when some key has a value. *)
Lemma has_value_search (key : text) (p : char -> bool) (s : text) :
  has_value key p s <-> search (Seq (Lit key) (Grp 1 (Rep p 1 None))) s <> None.
Proof.
  split.
  - intros (a & b & E & K) N. apply keyed_accepts in K.
    rewrite (search_none_accepts _ _ _ _ N E) in K. discriminate.
  - intros N.
    destruct (search (Seq (Lit key) (Grp 1 (Rep p 1 None))) s) as [x|] eqn:S;
      [|congruence].
    apply search_sound in S. destruct S as (E & _ & MH & _).
    exists (m_before x), (m_whole x ++ m_after x). split; [exact E|].
    apply accepts_keyed. unfold accepts. unfold match_here in MH.
    destruct (m _ (m_whole x ++ m_after x) []); [discriminate | reflexivity].
Qed.

(** What the search finds is the value of the first key that has one. *)
Lemma search_first_value (key : text) (p : char -> bool) (s : text)
      (x : rmatch) :
  search (Seq (Lit key) (Grp 1 (Rep p 1 None))) s = Some x ->
  first_value key p s (group 1 x).
Proof.
  intros H. apply search_sound in H. destruct H as (E & _ & MH & Min).
  unfold match_here in MH. cbn [m] in MH.
  destruct (Str.startswith key (m_whole x ++ m_after x)) eqn:SW; [|discriminate].
  apply startswith_skipn in SW.
  set (q := skipn (length key) (m_whole x ++ m_after x)) in *.
  cbn [flat_map fst snd] in MH. rewrite app_nil_r in MH.
  destruct (Nat.le_gt_cases 1 (run_len p q)) as [Hle|Hlt].
  - destruct (m_rep_greedy p 1 q [] Hle) as (l & Hm). cbn [m] in Hm.
    rewrite Hm in MH. cbn [map fst snd] in MH. inversion MH as [Hx].
    unfold group. cbn [m_caps lookup Nat.eqb].
    assert (Hq : q = firstn (run_len p q) q ++ skipn (run_len p q) q)
      by (symmetry; apply firstn_skipn).
    assert (Hc : consumed q (skipn (run_len p q) q) = firstn (run_len p q) q).
    { rewrite Hq at 1. apply consumed_app. }
    rewrite Hc. destruct (run_len_firstn p q (run_len p q) (le_n _)) as [F1 F2].
    exists (m_before x), (skipn (run_len p q) q).
    split; [rewrite E, SW; fold q; now rewrite <- Hq|].
    split; [intros N; rewrite N in F2; cbn in F2; lia|].
    split; [exact F1|]. split; [apply run_len_stops|].
    intros a b Es K. apply keyed_accepts in K.
    destruct (Nat.le_gt_cases (length (m_before x)) (length a)) as [L|L];
      [exact L|].
    rewrite (Min a b Es L) in K. discriminate.
  - pose proof (m_rep_short p 1 q [] Hlt) as Hm. cbn [m] in Hm.
    rewrite Hm in MH. discriminate.
Qed.

(** A field that one [key=(class+)] search fills. *)
Lemma searched_field (key : text) (p : char -> bool) (s : text) :
  let field :=
    match search (Seq (Lit key) (Grp 1 (Rep p 1 None))) s with
    | Some x => group 1 x
    | None => unknown
    end in
  (has_value key p s -> first_value key p s field)
  /\ (~ has_value key p s -> field = unknown).
Proof.
  cbv zeta. rewrite has_value_search.
  destruct (search (Seq (Lit key) (Grp 1 (Rep p 1 None))) s) as [x|] eqn:S.
  - split; [intros _; now apply search_first_value|].
    intros N. exfalso. apply N. discriminate.
  - split; [intros N; congruence | reflexivity].
Qed.

(** X2.  The version name, the version code and the data directory are
    each read after the first occurrence of their key that a value
    follows, a character without white space after [versionName=] and
    [dataDir=], a digit after [versionCode=]; an occurrence of the key that
    no such character follows is passed over.  The field is the run of
    such characters that stands there, whole; it is Unknown when no
    occurrence of the key has a value. *)
Theorem identity_fields_are_values_of_the_text (raw_data : text) :
  let a := analyze_security_posture raw_data in
  ((has_value (str "versionName=") not_space raw_data ->
    first_value (str "versionName=") not_space raw_data (version_name a))
   /\ (~ has_value (str "versionName=") not_space raw_data ->
       version_name a = unknown))
  /\ ((has_value (str "versionCode=") is_digit raw_data ->
       first_value (str "versionCode=") is_digit raw_data (version_code a))
      /\ (~ has_value (str "versionCode=") is_digit raw_data ->
          version_code a = unknown))
  /\ ((has_value (str "dataDir=") not_space raw_data ->
       first_value (str "dataDir=") not_space raw_data (data_dir a))
      /\ (~ has_value (str "dataDir=") not_space raw_data ->
          data_dir a = unknown)).
Proof.
  intros a. subst a. rewrite analyze_closed.
  cbn [version_name version_code data_dir regex_of].
  split; [|split]; apply searched_field.
Qed.

(** X3.  The user id is read after the first [userId=] that a digit
    follows, whether or not the text has an [appId=].  When no [userId=]
    is followed by a digit, also when the text has a [userId=] with
    something else after it, the user id is read after the first [appId=]
    that a digit follows; it is Unknown when there is none either. *)
Theorem user_id_prefers_userId_to_appId (raw_data : text) :
  let a := analyze_security_posture raw_data in
  (has_value (str "userId=") is_digit raw_data ->
   first_value (str "userId=") is_digit raw_data (user_id a))
  /\ (~ has_value (str "userId=") is_digit raw_data ->
      has_value (str "appId=") is_digit raw_data ->
      first_value (str "appId=") is_digit raw_data (user_id a))
  /\ (~ has_value (str "userId=") is_digit raw_data ->
      ~ has_value (str "appId=") is_digit raw_data ->
      user_id a = unknown).
Proof.
  intros a. subst a. rewrite analyze_closed. cbn [user_id regex_of].
  rewrite !has_value_search.
  destruct (search (Seq (Lit (str "userId=")) _) raw_data) as [x|] eqn:S.
  - split; [intros _; now apply search_first_value|].
    split; intros N; exfalso; apply N; discriminate.
  - split; [intros N; congruence|].
    destruct (search (Seq (Lit (str "appId=")) _) raw_data) as [y|] eqn:T.
    + assert (C : Str.contains (str "appId=") raw_data = true).
      { apply contains_iff. apply search_first_value in T.
        destruct T as (pre & post & E & _). exists pre, (group 1 y ++ post).
        exact E. }
      rewrite C. split; [intros _ _; now apply search_first_value|].
      intros _ N. exfalso. apply N. discriminate.
    + split; [intros _ N; congruence|]. intros _ _.
      destruct (Str.contains (str "appId=") raw_data); reflexivity.
Qed.

(** ** Where the entries of the sets come from *)

Lemma m_group_free_caps (r : regex) (s : text) (c : caps) (rest : text) (c' : caps) :
  group_free r -> In (rest, c') (m r s c) -> c' = c.
Proof.
  intros G H. rewrite (m_group_free r G s c) in H. apply in_map_iff in H.
  destruct H as (y & E & _). now inversion E.
Qed.

(** A match of [A R] with [A] free of groups: a match of [A], then one of
    [R] with the captures unchanged. *)
Lemma m_seq_head (A R : regex) (s : text) (c : caps) (rest : text) (c' : caps) :
  group_free A ->
  In (rest, c') (m (Seq A R) s c) ->
  exists u s1, s = u ++ s1 /\ den A u s1 /\ In (rest, c') (m R s1 c).
Proof.
  intros G H. cbn [m] in H. apply in_flat_map in H.
  destruct H as ([s1 c1] & H1 & H2). cbn [fst snd] in H2.
  pose proof (m_group_free_caps _ _ _ _ _ G H1). subst c1.
  destruct (m_sound _ _ _ _ _ H1) as (u & E & D). now exists u, s1.
Qed.

(** A match of [(G) B] with [G] free of groups: the group holds the match
    of [G]. *)
Lemma m_seq_group (n : nat) (G B : regex) (s : text) (c : caps) (rest : text)
      (c' : caps) :
  group_free G ->
  In (rest, c') (m (Seq (Grp n G) B) s c) ->
  exists v s1, s = v ++ s1 /\ den G v s1 /\ In (rest, c') (m B s1 ((n, v) :: c)).
Proof.
  intros GF H. cbn [m] in H. apply in_flat_map in H.
  destruct H as ([s1 c1] & H1 & H2). cbn [fst snd] in H2.
  apply in_map_iff in H1. destruct H1 as ([s0 c0] & E & H1). cbn [fst snd] in E.
  inversion E; subst s1 c1; clear E.
  pose proof (m_group_free_caps _ _ _ _ _ GF H1). subst c0.
  destruct (m_sound _ _ _ _ _ H1) as (v & E & D). subst s.
  rewrite consumed_app in H2. now exists v, s0.
Qed.

Lemma m_group_last (n : nat) (G : regex) (s : text) (c : caps) (rest : text)
      (c' : caps) :
  group_free G ->
  In (rest, c') (m (Grp n G) s c) ->
  exists v, s = v ++ rest /\ den G v rest /\ c' = (n, v) :: c.
Proof.
  intros GF H. cbn [m] in H.
  apply in_map_iff in H. destruct H as ([s0 c0] & E & H1). cbn [fst snd] in E.
  inversion E; subst; clear E.
  pose proof (m_group_free_caps _ _ _ _ _ GF H1). subst c0.
  destruct (m_sound _ _ _ _ _ H1) as (v & E & D). subst s.
  rewrite consumed_app. now exists v.
Qed.

Lemma m_last (B : regex) (s : text) (c : caps) (rest : text) (c' : caps) :
  group_free B ->
  In (rest, c') (m B s c) ->
  c' = c /\ exists w, s = w ++ rest /\ den B w rest.
Proof.
  intros G H. split; [now apply (m_group_free_caps _ _ _ _ _ G H)|].
  now apply (m_sound _ _ _ _ _ H).
Qed.

Lemma match_here_in (r : regex) (b s : text) (x : rmatch) :
  match_here r b s = Some x -> In (m_after x, m_caps x) (m r s []).
Proof.
  intros H. destruct (match_here_sound _ _ _ _ H) as (_ & _ & _ & l & E).
  rewrite E. now left.
Qed.

Lemma findall1_in (r : regex) (s v : text) :
  In v (findall1 r s) ->
  exists x, group 1 x = v
            /\ s = m_before x ++ m_whole x ++ m_after x
            /\ In (m_after x, m_caps x) (m r (m_whole x ++ m_after x) []).
Proof.
  unfold findall1. intros H. apply in_map_iff in H. destruct H as (x & E & H).
  apply finditer_sound in H. destruct H as (Es & _ & MH).
  exists x. repeat split; auto. now apply match_here_in in MH.
Qed.

(** What the pattern [label Q([^Q]+)Q] finds: values written between
    quotes after the label. *)
Lemma findall1_quoted (label : text) (s v : text) :
  In v (findall1 (seqs [Lit (label ++ dq); Grp 1 (Rep (neg (one_of dq)) 1 None);
                        Lit dq]) s) ->
  quoted_value v /\ occurs_in (label ++ dq ++ v ++ dq) s.
Proof.
  intros H. apply findall1_in in H. destruct H as (x & G & Es & H).
  cbn [seqs] in H.
  apply m_seq_head in H; [|exact I]. destruct H as (u & s1 & E1 & D1 & H).
  apply m_seq_group in H; [|exact I]. destruct H as (w & s2 & E2 & D2 & H).
  apply m_last in H; [|exact I]. destruct H as (Ec & q & E3 & D3).
  cbn [den] in D1, D2, D3. subst u q.
  unfold group in G. rewrite Ec in G. cbn [lookup Nat.eqb] in G. subst w.
  destruct D2 as (F & L & _). split.
  - split; [|exact F]. intros N. rewrite N in L. cbn in L. lia.
  - exists (m_before x), (m_after x). rewrite Es, E1, E2, E3.
    now rewrite <- !app_assoc.
Qed.

Lemma reserved_category_false (s : text) :
  reserved_category s = false ->
  s <> str "android.intent.category.DEFAULT"
  /\ s <> str "android.intent.category.BROWSABLE".
Proof.
  unfold reserved_category. intros H. apply orb_false_iff in H.
  destruct H as [H1 H2]. split; intros ->; rewrite Str_eqb_refl in *; discriminate.
Qed.

(** X4.  Every scheme, intent action and intent category of the profile is
    a non-empty value without a double quote that the text has between
    double quotes after [Scheme: ], [Action: ] or [Category: ]; the two
    framework categories DEFAULT and BROWSABLE are never schemes. *)
Theorem quoted_fields_are_values_of_the_text (raw_data v : text) :
  let a := analyze_security_posture raw_data in
  (In v (schemes a) ->
     quoted_value v
     /\ occurs_in (str "Scheme: " ++ dq ++ v ++ dq) raw_data
     /\ v <> str "android.intent.category.DEFAULT"
     /\ v <> str "android.intent.category.BROWSABLE")
  /\ (In v (intent_actions a) ->
        quoted_value v /\ occurs_in (str "Action: " ++ dq ++ v ++ dq) raw_data)
  /\ (In v (intent_categories a) ->
        quoted_value v /\ occurs_in (str "Category: " ++ dq ++ v ++ dq) raw_data).
Proof.
  intros a. subst a. rewrite analyze_closed.
  cbn [schemes intent_actions intent_categories regex_of].
  split; [|split].
  - intros H. apply in_sorted, filter_In in H. destruct H as [H R].
    apply in_set_of, findall1_quoted in H. destruct H as [Q O].
    apply negb_true_iff, reserved_category_false in R.
    tauto.
  - intros H. now apply (proj1 (in_sorted_set _ _)), findall1_quoted in H.
  - intros H. now apply (proj1 (in_sorted_set _ _)), findall1_quoted in H.
Qed.

Lemma den_any_permission_like (p rest : text) :
  den any_permission p rest -> permission_like p.
Proof.
  unfold any_permission. cbn [seqs den].
  intros (a & w & -> & (Fa & La & _) & l & b & -> & -> & (Fb & Lb & _)).
  exists a, b. repeat split; auto.
  - intros N. rewrite N in La. cbn in La. lia.
  - intros N. rewrite N in Lb. cbn in Lb. lia.
Qed.

Lemma accepts_install_terminators (s : text) :
  accepts install_terminators s = starts_install_terminator s.
Proof.
  unfold accepts, install_terminators, starts_install_terminator,
    starts_user_digit, user_digit.
  cbn [m]. change (length (str "User ")) with 5%nat.
  destruct (Str.startswith (str "User ") s); cbn [flat_map app fst snd andb orb].
  - destruct (skipn 5 s) as [|c t]; cbn [app].
    + destruct (Str.startswith runtime_header s); reflexivity.
    + destruct (is_digit c); [reflexivity|].
      destruct (Str.startswith runtime_header s); reflexivity.
  - destruct (Str.startswith runtime_header s); reflexivity.
Qed.

(** X5.  Every granted permission is written like a permission and reaches
    the list in one of two ways: the text has it followed by a colon,
    optional white space and [granted=true]; or it stands in the span from
    the first [install permissions:] header to the first terminator,
    whatever is written after it there. *)
Theorem granted_permissions_have_two_sources (raw_data p : text) :
  In p (granted_permissions (analyze_security_posture raw_data)) ->
  permission_like p
  /\ ((exists sp, forallb is_space sp = true
                  /\ occurs_in (p ++ str ":" ++ sp ++ str "granted=true") raw_data)
      \/ (exists span, install_span raw_data span /\ occurs_in p span)).
Proof.
  rewrite analyze_closed. cbn [granted_permissions]. intros H.
  apply (proj1 (in_sorted_set _ _)), in_app_or in H. destruct H as [H|H].
  - apply findall1_in in H. destruct H as (x & G & Es & H).
    cbn [regex_of seqs] in H.
    apply m_seq_group in H; [|cbn; tauto]. destruct H as (v & s1 & E1 & D1 & H).
    apply m_seq_head in H; [|exact I]. destruct H as (u & s2 & E2 & D2 & H).
    apply m_seq_head in H; [|exact I]. destruct H as (sp & s3 & E3 & D3 & H).
    apply m_last in H; [|exact I]. destruct H as (Ec & q & E4 & D4).
    cbn [den] in D2, D3, D4. subst u q.
    unfold group in G. rewrite Ec in G. cbn [lookup Nat.eqb] in G. subst v.
    split; [now apply den_any_permission_like in D1|].
    left. exists sp. split; [now destruct D3|].
    exists (m_before x), (m_after x). rewrite Es, E1, E2, E3, E4.
    now rewrite <- !app_assoc.
  - destruct (search (regex_of P_install) raw_data) as [x|] eqn:S; [|destruct H].
    rewrite install_is_lazy_span in S.
    destruct (lazy_span_search _ _ _ _ install_terminators_group_free S)
      as (pre & span & rest & E & G & F & A & N).
    rewrite G in H. apply findall1_group_sound in H. destruct H as [O (r & D)].
    split; [now apply den_any_permission_like in D|].
    right. exists span. split; [|exact O].
    exists pre, rest. split; [exact F|]. split.
    + now rewrite <- accepts_install_terminators.
    + intros k Hk. rewrite <- accepts_install_terminators. now apply N.
Qed.

(** X6.  The profile is flagged debuggable exactly when the text contains
    [DEBUGGABLE] or [debuggable=true] somewhere, as a substring of anything. *)
Theorem debuggable_iff_a_marker_occurs (raw_data : text) :
  is_debuggable (analyze_security_posture raw_data) = true
  <-> occurs_in (str "DEBUGGABLE") raw_data
      \/ occurs_in (str "debuggable=true") raw_data.
Proof.
  rewrite analyze_closed. cbn [is_debuggable].
  now rewrite orb_true_iff, !contains_iff.
Qed.

(** ** BinaryContentExtractor *)

Lemma utf8_ascii (h : Utf8.handler) (cs : text) :
  Forall (fun c => 0 <= c < 128) cs -> Utf8.run h Utf8.Idle cs = Some cs.
Proof.
  induction 1 as [|c cs Hc _ IH]; [reflexivity|].
  cbn [Utf8.run]. unfold Utf8.start.
  replace (c <? 128) with true by (symmetry; apply Z.ltb_lt; lia).
  rewrite IH. reflexivity.
Qed.

Lemma run_len_all (p : char -> bool) (s : text) :
  forallb p s = true -> run_len p s = length s.
Proof.
  induction s as [|c s IH]; cbn; [reflexivity|].
  intros H. apply andb_true_iff in H. destruct H as [-> H]. now rewrite IH.
Qed.

(** X7.  Every string that [extract_strings_from_bytes] returns has at
    least [min_length] characters, all of them printable ASCII, and is a
    piece of the decoded text that ends where the run of printable
    characters ends. *)
Theorem extracted_strings_are_printable_runs (data : list byte) (min_length : nat)
        (s : text) :
  In s (extract_strings_from_bytes data min_length) ->
  (min_length <= length s)%nat
  /\ forallb printable s = true
  /\ exists t pre post,
       Utf8.decode Utf8.ignore data = Some t
       /\ t = pre ++ s ++ post
       /\ run_ends printable post.
Proof.
  unfold extract_strings_from_bytes.
  destruct (Utf8.decode Utf8.ignore data) as [t|]; [|intros []].
  unfold findall0. intros H. apply in_map_iff in H. destruct H as (x & <- & H).
  apply finditer_sound in H. destruct H as (E & D & MH).
  cbn [den] in D. destruct D as (F & L & _).
  split; [exact L|]. split; [exact F|].
  exists t, (m_before x), (m_after x). split; [reflexivity|]. split; [exact E|].
  destruct (match_here_sound _ _ _ _ MH) as (_ & _ & _ & l & Hm).
  set (q := m_whole x ++ m_after x) in *.
  destruct (Nat.le_gt_cases min_length (run_len printable q)) as [Hle|Hlt].
  - destruct (m_rep_greedy printable min_length q [] Hle) as (l' & Hg).
    rewrite Hg in Hm. injection Hm as Ha _ _.
    replace (m_after x) with (skipn (run_len printable q) q) by exact Ha.
    apply run_len_stops.
  - rewrite (m_rep_short printable min_length q [] Hlt) in Hm. discriminate.
Qed.

Lemma finditer_skip_all (r : regex) (s : text) :
  (forall b, match_here r b [] = None) ->
  forall k br, (length s <= k)%nat -> finditer_from r br k s = [].
Proof.
  intros Hn. induction s as [|c s IH]; intros k br Hk.
  - destruct k; cbn; [now rewrite Hn | reflexivity].
  - destruct k as [|k]; [cbn in Hk; lia|]. cbn [finditer_from].
    apply IH. cbn in Hk. lia.
Qed.

(** X8.  Bytes that are all printable ASCII, at least [min_length] of
    them and at least one, come back as one string: the bytes themselves. *)
Theorem printable_bytes_are_one_string (data : list byte) (min_length : nat) :
  (1 <= min_length <= length data)%nat ->
  Forall (fun b => printable (Utf8.byte_val b) = true) data ->
  extract_strings_from_bytes data min_length = [map Utf8.byte_val data].
Proof.
  intros Hn Hp. unfold extract_strings_from_bytes, Utf8.decode.
  set (t := map Utf8.byte_val data).
  assert (Pt : forallb printable t = true).
  { subst t. apply forallb_forall. intros c Hc. apply in_map_iff in Hc.
    destruct Hc as (b & <- & Hb). rewrite Forall_forall in Hp. now apply Hp. }
  assert (At : Forall (fun c => 0 <= c < 128) t).
  { apply Forall_forall. intros c Hc. rewrite forallb_forall in Pt.
    specialize (Pt c Hc). unfold printable, between in Pt.
    apply andb_true_iff in Pt. destruct Pt as [P1 P2].
    apply Z.leb_le in P1, P2. lia. }
  rewrite (utf8_ascii _ t At).
  assert (Lt : length t = length data) by (subst t; apply length_map).
  assert (R : run_len printable t = length t) by now apply run_len_all.
  unfold findall0, finditer.
  destruct t as [|c t'] eqn:Et; [cbn in Lt; lia|]. rewrite <- Et in *.
  rewrite Et at 1. cbn [finditer_from]. rewrite <- Et.
  destruct (m_rep_greedy printable min_length t [] ltac:(lia)) as (l & Hm).
  unfold match_here. rewrite Hm, R, skipn_all.
  assert (Hw : consumed t [] = t).
  { rewrite <- (app_nil_r t) at 1. apply consumed_app. }
  cbn [map m_whole]. f_equal; [exact Hw|].
  rewrite finditer_skip_all; [reflexivity | | ].
  - intros b. unfold match_here.
    now rewrite (m_rep_short printable min_length [] [] ltac:(cbn; lia)).
  - unfold consumed. rewrite Et. cbn. rewrite firstn_all. lia.
Qed.

Lemma b64_text (B : list byte) :
  Utf8.decode Utf8.strict (Base64.b64encode B)
  = Some (Base64.encode_vals (map Utf8.byte_val B)).
Proof. apply utf8_strict_ascii, encode_vals_ascii. Qed.

Lemma encode_vals_length (n : nat) :
  forall bs, (length bs <= n)%nat ->
  length (Base64.encode_vals bs) = (4 * ((length bs + 2) / 3))%nat.
Proof.
  induction n as [|n IH]; intros bs Hlen.
  - destruct bs; [reflexivity | cbn in Hlen; lia].
  - destruct bs as [|b1 [|b2 [|b3 rest]]]; try reflexivity.
    cbn [Base64.encode_vals length]. rewrite IH by (cbn in Hlen; lia).
    replace (S (S (S (length rest))) + 2)%nat with (1 * 3 + (length rest + 2))%nat by lia.
    rewrite Nat.div_add_l by lia. lia.
Qed.

Lemma encode_vals_alphabet (n : nat) :
  forall bs, (length bs <= n)%nat ->
  Forall (fun c => In c Base64.alphabet \/ c = Base64.pad) (Base64.encode_vals bs).
Proof.
  assert (Hd : forall v, In (Base64.digit v) Base64.alphabet
                         \/ Base64.digit v = Base64.pad).
  { intros v. unfold Base64.digit.
    destruct (nth_in_or_default (Z.to_nat v) Base64.alphabet Base64.pad); auto. }
  induction n as [|n IH]; intros bs Hlen.
  - destruct bs; [constructor | cbn in Hlen; lia].
  - destruct bs as [|b1 [|b2 [|b3 rest]]]; cbn [Base64.encode_vals];
      repeat (constructor; [first [apply Hd | now right] |]);
      try constructor.
    apply IH. cbn in Hlen. lia.
Qed.

(** X9.  The base64 field of a file of [n] bytes has [4 * ceil(n / 3)]
    characters, each a letter, a digit, [+], [/] or the padding [=]. *)
Theorem base64_field_length_and_alphabet (path : text) (B : list byte) :
  exists r, read_file_content path B = Some r
    /\ length (fc_base64 r) = (4 * ((length B + 2) / 3))%nat
    /\ Forall (fun c => In c Base64.alphabet \/ c = Base64.pad) (fc_base64 r).
Proof.
  unfold read_file_content.
  destruct (utf8_run_total [0xFFFD] (map Utf8.byte_val B) Utf8.Idle) as [c Hc].
  change (Utf8.decode Utf8.replace B = Some c) in Hc. rewrite Hc, b64_text.
  eexists. split; [reflexivity|]. cbn [fc_base64]. split.
  - rewrite (encode_vals_length (length (map Utf8.byte_val B))) by lia.
    now rewrite length_map.
  - now apply (encode_vals_alphabet (length (map Utf8.byte_val B))).
Qed.

Lemma utf8_strict_agrees (e : text) (bs : list Z) :
  forall st t, Utf8.run Utf8.strict st bs = Some t ->
               Utf8.run (Some e) st bs = Some t.
Proof.
  assert (He : forall o k t, Utf8.emit Utf8.strict o k = Some t ->
                 exists out rest, o = Some out /\ k = Some rest /\ t = out ++ rest).
  { intros o k t. unfold Utf8.emit, Utf8.strict.
    destruct o as [out|]; [|discriminate]. destruct k as [rest|]; [|discriminate].
    intros H. inversion H. eauto. }
  induction bs as [|b rest IH]; intros st t H.
  - destruct st; cbn in *; [exact H | discriminate].
  - cbn [Utf8.run] in *. destruct st as [|acc r rs].
    + destruct (Utf8.start b) as [o st'].
      apply He in H. destruct H as (out & k & -> & Hk & ->).
      apply IH in Hk. now rewrite Hk.
    + destruct (Utf8.in_range r b).
      * destruct rs as [|r' rs'].
        -- apply He in H. destruct H as (out & k & Eo & Hk & ->).
           apply IH in Hk. rewrite Hk. now inversion Eo.
        -- now apply IH.
      * destruct (Utf8.start b) as [o st']. apply He in H.
        destruct H as (out & k & Eo & _). discriminate.
Qed.

(** X10.  When the bytes of a file are valid UTF-8 the text view is their
    exact decoding, without any replacement, and the printable runs are
    those of the text view. *)
Theorem valid_utf8_is_shown_exactly (path : text) (B : list byte) (t : text) :
  Utf8.decode Utf8.strict B = Some t ->
  exists r, read_file_content path B = Some r
    /\ fc_content r = t
    /\ fc_strings r = findall0 (Rep printable 4 None) t.
Proof.
  intros H. unfold read_file_content, extract_strings_from_bytes.
  unfold Utf8.decode in *.
  rewrite (utf8_strict_agrees [0xFFFD] _ _ _ H : Utf8.run Utf8.replace _ _ = _).
  rewrite (utf8_strict_agrees [] _ _ _ H : Utf8.run Utf8.ignore _ _ = _).
  pose proof (b64_text B) as Hb. unfold Utf8.decode in Hb. rewrite Hb.
  eexists. split; [reflexivity|]. split; reflexivity.
Qed.

(** ** DomainVerificationParser, further *)

Lemma verification_is_lazy_span :
  verification_section_re
  = lazy_span verification_header (Alt (Lit (str "User 0:")) Eos).
Proof. reflexivity. Qed.

Lemma accepts_section_end (s : text) :
  accepts (Alt (Lit (str "User 0:")) Eos) s = ends_section s.
Proof.
  unfold accepts, ends_section. cbn [m].
  destruct (Str.startswith (str "User 0:") s); [reflexivity|].
  cbn [app orb]. destruct s as [|c [|c' s]]; try reflexivity.
  destruct (c =? 10); reflexivity.
Qed.

(** X11.  Without the header [Domain verification state:] there are no
    domains, and [raw] is the output as it came. *)
Theorem no_verification_header_no_domains (output : text) :
  ~ occurs_in verification_header output ->
  get_app_links_state output = {| domains := []; raw := output |}.
Proof.
  intros N. unfold get_app_links_state.
  rewrite verification_is_lazy_span. unfold lazy_span. cbn [seqs].
  now rewrite (search_lit_absent _ _ _ N).
Qed.

Lemma nonempty_of_length (w : text) : (1 <= length w)%nat -> w <> [].
Proof. intros H ->. cbn in H. lia. Qed.

(** One match of the pattern for a line of the section. *)
Lemma domain_code_match (s rest : text) (c' : caps) :
  In (rest, c') (m domain_code_re s []) ->
  exists ws dom sp digits,
    s = ws ++ dom ++ str ":" ++ sp ++ digits ++ rest
    /\ c' = [(2%nat, digits); (1%nat, dom)]
    /\ ws <> [] /\ forallb is_space ws = true
    /\ dom <> [] /\ forallb (word_or (str ".-")) dom = true
    /\ sp <> [] /\ forallb is_space sp = true
    /\ digits <> [] /\ forallb is_digit digits = true.
Proof.
  unfold domain_code_re. cbn [seqs]. intros H.
  apply m_seq_head in H; [|exact I]. destruct H as (ws & s1 & E1 & D1 & H).
  apply m_seq_group in H; [|exact I]. destruct H as (dom & s2 & E2 & D2 & H).
  apply m_seq_head in H; [|exact I]. destruct H as (col & s3 & E3 & D3 & H).
  apply m_seq_head in H; [|exact I]. destruct H as (sp & s4 & E4 & D4 & H).
  apply m_group_last in H; [|exact I]. destruct H as (digits & E5 & D5 & Ec).
  cbn [den] in D1, D2, D3, D4, D5. subst col.
  destruct D1 as (F1 & L1 & _). destruct D2 as (F2 & L2 & _).
  destruct D4 as (F4 & L4 & _). destruct D5 as (F5 & L5 & _).
  exists ws, dom, sp, digits.
  split; [now rewrite E1, E2, E3, E4, E5|]. split; [exact Ec|].
  repeat split; auto using nonempty_of_length.
Qed.

Lemma py_int_value (s : text) (z : Z) : py_int s = Value z -> z = int_value s.
Proof.
  unfold py_int. destruct (_ && _); [discriminate|]. intros H. now inversion H.
Qed.

(** Where a record of the result comes from. *)
Lemma app_links_record_source (output : text) (d : DomainState) :
  In d (domains (get_app_links_state output)) ->
  exists block digits,
    verification_block output block
    /\ domain_line block (domain d) digits
    /\ domain d <> [] /\ forallb (word_or (str ".-")) (domain d) = true
    /\ digits <> [] /\ forallb is_digit digits = true
    /\ code d = int_value digits.
Proof.
  unfold get_app_links_state.
  destruct (search verification_section_re output) as [vs|] eqn:S; [|intros []].
  destruct (domain_records output _) as [ds|e] eqn:E; [|intros []].
  cbn [domains]. intros Hin.
  destruct (domain_records_in _ _ _ _ E Hin) as (dom & sc & Hm & R).
  apply domain_record_value in R. destruct R as (Ed & Ei & _).
  apply py_int_value in Ei.
  rewrite verification_is_lazy_span in S.
  destruct (lazy_span_search _ _ _ _
              (conj I I : group_free (Alt (Lit (str "User 0:")) Eos)) S)
    as (pre & block & rest & Eo & G & F & A & N).
  rewrite G in Hm. unfold findall2 in Hm. apply in_map_iff in Hm.
  destruct Hm as (x & Ex & Hx). apply finditer_sound in Hx.
  destruct Hx as (Eb & _ & MH). apply match_here_in, domain_code_match in MH.
  destruct MH as (ws & dom' & sp & digits & Ew & Ec & W1 & W2 & M1 & M2 & P1 & P2 & G1 & G2).
  unfold group in Ex. rewrite Ec in Ex. cbn [lookup Nat.eqb] in Ex.
  inversion Ex; subst dom' digits. clear Ex.
  exists block, sc. rewrite Ed. repeat split; auto.
  - exists pre, rest. split; [exact F|]. split.
    + now rewrite <- accepts_section_end.
    + intros k Hk. rewrite <- accepts_section_end. now apply N.
  - exists ws, sp. repeat split; auto.
    exists (m_before x), (m_after x). rewrite Eb, Ew.
    now rewrite <- !app_assoc.
Qed.

(** X12.  Every record comes from a line of the verification section: its
    domain is a non-empty run of word characters, dots and hyphens, written
    after white space and followed by a colon, white space and the digits
    of its code, inside the text between the first header and the first
    [User 0:] after it (or the end).  Lines of that shape elsewhere give no
    record. *)
Theorem records_come_from_the_verification_section (output : text)
        (d : DomainState) :
  In d (domains (get_app_links_state output)) ->
  domain d <> []
  /\ forallb (word_or (str ".-")) (domain d) = true
  /\ exists block digits,
       verification_block output block
       /\ domain_line block (domain d) digits
       /\ digits <> [] /\ forallb is_digit digits = true
       /\ code d = int_value digits.
Proof.
  intros H. apply app_links_record_source in H.
  destruct H as (block & digits & V & L & D1 & D2 & G1 & G2 & C).
  split; [exact D1|]. split; [exact D2|]. exists block, digits. tauto.
Qed.

Lemma int_value_nonneg (digits : text) :
  (forall c, 0 <= uni_todecimal c) ->
  forallb is_digit digits = true ->
  forall acc, 0 <= acc ->
  0 <= fold_left (fun a c => a * 10 + digit_value c) digits acc.
Proof.
  intros Hdb. induction digits as [|c digits IH]; intros Hd acc Ha; cbn; [exact Ha|].
  cbn in Hd. apply andb_true_iff in Hd. destruct Hd as [Hc Hd].
  apply IH; [exact Hd|].
  assert (0 <= digit_value c); [|lia].
  unfold digit_value, is_digit, between in *. destruct (c <? 128).
  - apply andb_true_iff in Hc. destruct Hc as [Hc _]. apply Z.leb_le in Hc. lia.
  - apply Hdb.
Qed.

(** X13.  The code of every record is a non-negative integer, when the
    Unicode database gives its decimal digits non-negative values. *)
Theorem codes_are_not_negative (output : text) (d : DomainState) :
  (forall c, 0 <= uni_todecimal c) ->
  In d (domains (get_app_links_state output)) ->
  0 <= code d.
Proof.
  intros Hdb H. apply app_links_record_source in H.
  destruct H as (block & digits & _ & _ & _ & _ & _ & G2 & ->).
  unfold int_value. apply int_value_nonneg; auto. lia.
Qed.

(** ** DirectoryListingParser, further *)

Lemma split_ws_from_tokens (s : text) :
  forall cur, forallb (neg is_space) cur = true ->
  Forall token (split_ws_from cur s).
Proof.
  assert (Hrev : forall cur, cur <> [] -> forallb (neg is_space) cur = true ->
                             token (rev cur)).
  { intros cur Hne Hc. split.
    - intros E. apply Hne. apply (f_equal (@rev char)) in E.
      now rewrite rev_involutive in E.
    - apply forallb_forall. intros c Hin. apply in_rev in Hin.
      rewrite forallb_forall in Hc. now apply Hc. }
  induction s as [|c s IH]; intros cur Hc; cbn [split_ws_from].
  - destruct cur as [|c0 cur]; [constructor|].
    constructor; [|constructor]. now apply Hrev.
  - destruct (is_space c) eqn:E.
    + destruct cur as [|c0 cur]; [now apply IH|].
      constructor; [now apply Hrev | now apply IH].
    + apply IH. cbn. unfold neg at 1. now rewrite E.
Qed.

Lemma split_ws_tokens (s : text) : Forall token (split_ws s).
Proof. now apply split_ws_from_tokens. Qed.

(** X14.  The kind of every entry follows from the first character of its
    permissions, dir for d, link for l, file otherwise; and the
    permissions are the first token of the line. *)
Theorem kind_follows_the_permissions (output : text) (f : FileEntry) :
  In f (parse_ls_output output) ->
  type f = kind_of (perms f)
  /\ token (perms f)
  /\ nth_error (split_ws (raw_line f)) 0 = Some (perms f).
Proof.
  intros H. apply parse_ls_output_in in H. destruct H as (line & _ & H).
  apply parse_line_some in H. cbv zeta in H.
  destruct H as (_ & _ & _ & Er & E0 & Et & _).
  split; [exact Et|]. split.
  - pose proof (split_ws_tokens (strip line)) as T. rewrite Forall_forall in T.
    apply T. eapply index_in; eauto.
  - rewrite Er. exact E0.
Qed.

Lemma flat_map_option_length {A B : Type} (g : A -> option B) (l : list A) :
  (length (flat_map (fun x => match g x with Some y => [y] | None => [] end) l)
   <= length l)%nat.
Proof.
  induction l as [|x l IH]; cbn; [lia|].
  rewrite length_app. destruct (g x); cbn; lia.
Qed.

(** X15.  Blank lines, the summary line that begins with [total ] and
    lines of fewer than seven tokens give no entry: the raw line of every
    entry is a line of the output, stripped, that is none of these; so
    there are at most as many entries as lines. *)
Theorem entries_are_lines_of_seven_tokens (output : text) :
  (forall f, In f (parse_ls_output output) ->
     (exists line, In line (Str.split nl output) /\ raw_line f = strip line)
     /\ raw_line f <> []
     /\ Str.startswith (str "total ") (raw_line f) = false
     /\ (7 <= length (split_ws (raw_line f)))%nat)
  /\ (length (parse_ls_output output) <= length (Str.split nl output))%nat.
Proof.
  split.
  - intros f H. apply parse_ls_output_in in H. destruct H as (line & Hl & H).
    apply parse_line_some in H. cbv zeta in H.
    destruct H as (H1 & H2 & H3 & Er & _). rewrite Er.
    split; [now exists line|]. auto.
  - apply flat_map_option_length.
Qed.

Lemma skipn_forall {A : Type} (P : A -> Prop) (n : nat) (l : list A) :
  Forall P l -> Forall P (skipn n l).
Proof.
  intros H. rewrite Forall_forall in *. intros x Hx. apply H.
  rewrite <- (firstn_skipn n l). apply in_or_app. now right.
Qed.

(** X16.  The name of every entry is made of tokens of the line joined by
    single spaces: it has no white space at either end, and between two
    of its words exactly one space, whatever the line had there. *)
Theorem name_is_tokens_joined_by_single_spaces (output : text) (f : FileEntry) :
  In f (parse_ls_output output) ->
  exists toks, name f = Str.join (str " ") toks /\ Forall token toks.
Proof.
  intros H. apply parse_ls_output_in in H. destruct H as (line & _ & H).
  apply parse_line_some in H. cbv zeta in H.
  destruct H as (_ & _ & _ & _ & _ & _ & _ & _ & _ & En).
  eexists. split; [exact En|]. apply skipn_forall, split_ws_tokens.
Qed.

Lemma den_date (w rest : text) :
  den date_re w rest ->
  exists y mo dd,
    w = y ++ str "-" ++ mo ++ str "-" ++ dd
    /\ length y = 4%nat /\ forallb is_digit y = true
    /\ length mo = 2%nat /\ forallb is_digit mo = true
    /\ length dd = 2%nat /\ forallb is_digit dd = true.
Proof.
  unfold date_re. cbn [seqs den].
  intros (y & w1 & -> & (Fy & Ly & Hy) & h1 & w2 & -> & -> &
          mo & w3 & -> & (Fm & Lm & Hm) & h2 & dd & -> & -> & (Fd & Ld & Hd)).
  exists y, mo, dd. repeat split; auto; lia.
Qed.

Lemma accepts_date (d : text) : accepts date_re d = true -> begins_with_date d.
Proof.
  unfold accepts. destruct (m date_re d []) as [|[rest c] l] eqn:E; [discriminate|].
  intros _. destruct (m_sound date_re d [] rest c) as (w & Ew & D);
    [rewrite E; now left|].
  apply den_date in D. destruct D as (y & mo & dd & -> & H).
  exists y, mo, dd, rest. split; [|exact H].
  rewrite Ew. now rewrite <- !app_assoc.
Qed.

(** X17.  The date of every entry is two tokens of the line with one
    space between them, and the first of the two is the first token of
    the line that begins with a date: four digits, a hyphen, two digits,
    a hyphen, two digits. *)
Theorem date_is_the_first_date_token_and_the_next (output : text) (f : FileEntry) :
  In f (parse_ls_output output) ->
  exists i d0 d1,
    date f = d0 ++ str " " ++ d1
    /\ date_at (split_ws (raw_line f)) i
    /\ nth_error (split_ws (raw_line f)) i = Some d0
    /\ nth_error (split_ws (raw_line f)) (i + 1) = Some d1
    /\ begins_with_date d0 /\ token d0 /\ token d1.
Proof.
  intros H. apply parse_ls_output_in in H. destruct H as (line & _ & H).
  apply parse_line_some in H. cbv zeta in H.
  destruct H as (_ & _ & _ & Er & _ & _ & Ed & _ & (d0 & d1 & E0 & E1 & Edate) & _).
  rewrite Er. set (parts := split_ws (strip line)) in *.
  destruct (find_date_range parts 0) as [Hneg|Hpos]; [contradiction|].
  set (i := Z.to_nat (find_date 0 parts)).
  assert (Hi : find_date 0 parts = 0 + Z.of_nat i) by (subst i; lia).
  pose proof (proj1 (find_date_located parts 0 i ltac:(lia)) Hi) as Hat.
  rewrite Hi in E0, E1. cbn [Z.add] in E0.
  unfold index in E0, E1.
  replace (Z.of_nat i <? 0) with false in E0 by (symmetry; apply Z.ltb_ge; lia).
  replace (0 + Z.of_nat i + 1 <? 0) with false in E1 by (symmetry; apply Z.ltb_ge; lia).
  rewrite Nat2Z.id in E0.
  replace (Z.to_nat (0 + Z.of_nat i + 1)) with (i + 1)%nat in E1 by lia.
  pose proof (split_ws_tokens (strip line)) as T. rewrite Forall_forall in T.
  exists i, d0, d1. repeat split; auto.
  - apply Hat.
  - apply Hat.
  - destruct Hat as [(d & Hd & A) _]. fold parts in Hd. rewrite E0 in Hd.
    inversion Hd; subst d. now apply accepts_date.
  - apply T. eapply nth_error_In; eauto.
  - apply T. eapply nth_error_In; eauto.
  - apply T. eapply nth_error_In; eauto.
  - apply T. eapply nth_error_In; eauto.
Qed.

(** * Further properties: the list of devices *)

(** ** Splitting at one character *)

Lemma occurs_single (c : char) (s : text) : occurs_in [c] s <-> In c s.
Proof.
  split.
  - intros (a & b & ->). apply in_or_app. right. left. reflexivity.
  - intros H. apply in_split in H. destruct H as (a & b & ->).
    exists a, b. reflexivity.
Qed.

Lemma find_char_absent (c : char) (s : text) :
  ~ In c s -> Str.find [c] s = None.
Proof.
  induction s as [|y s IH]; intros H; [reflexivity|].
  cbn [Str.find Str.startswith].
  destruct (c =? y) eqn:E.
  - apply Z.eqb_eq in E. exfalso. apply H. left. congruence.
  - cbn [andb]. rewrite IH; [reflexivity|]. intros K. apply H. now right.
Qed.

Lemma find_char_first (c : char) (a b : text) :
  ~ In c a -> Str.find [c] (a ++ c :: b) = Some (a, b).
Proof.
  induction a as [|y a IH]; intros H.
  - cbn [app Str.find Str.startswith]. rewrite Z.eqb_refl. reflexivity.
  - cbn [app Str.find Str.startswith].
    destruct (c =? y) eqn:E.
    + apply Z.eqb_eq in E. exfalso. apply H. left. congruence.
    + cbn [andb]. rewrite IH; [reflexivity|]. intros K. apply H. now right.
Qed.

(** Splitting what was joined gives the pieces back, when no piece has
    the separator inside. *)
Lemma split_join_char (c : char) (p : text) (rest : list text) :
  Forall (fun q => ~ In c q) (p :: rest) ->
  Str.split [c] (Str.join [c] (p :: rest)) = p :: rest.
Proof.
  revert p. induction rest as [|q rest IH]; intros p H.
  - cbn [Str.join]. rewrite split_equation by discriminate.
    rewrite find_char_absent; [reflexivity|]. now inversion H.
  - change (Str.join [c] (p :: q :: rest))
      with (p ++ c :: Str.join [c] (q :: rest)).
    rewrite split_equation by discriminate.
    inversion H as [|? ? Hp Hr]; subst.
    rewrite find_char_first by exact Hp. f_equal. now apply IH.
Qed.

Lemma first_split_pre_free (sep s a b : text) :
  sep <> [] -> first_split sep s a b -> ~ occurs_in sep a.
Proof.
  intros Hsep [E Hmin] (x & y & Ha).
  specialize (Hmin x (y ++ sep ++ b)).
  assert (Hs : s = x ++ sep ++ y ++ sep ++ b).
  { rewrite E, Ha, <- !app_assoc. reflexivity. }
  specialize (Hmin Hs). rewrite Ha, !length_app in Hmin.
  destruct sep; [congruence | cbn in Hmin; lia].
Qed.

(** No piece of a split has the separator inside. *)
Lemma split_pieces_free (sep : text) :
  sep <> [] ->
  forall n s, (length s <= n)%nat ->
  Forall (fun p => ~ occurs_in sep p) (Str.split sep s).
Proof.
  intros Hsep. induction n as [|n IH]; intros s Hn;
    rewrite split_equation by exact Hsep;
    destruct (Str.find sep s) as [[a b]|] eqn:F.
  - pose proof (find_shrinks _ _ _ _ Hsep F). lia.
  - constructor; [|constructor]. now apply find_none.
  - constructor.
    + exact (first_split_pre_free _ _ _ _ Hsep (find_first _ _ _ _ F)).
    + apply IH. pose proof (find_shrinks _ _ _ _ Hsep F). lia.
  - constructor; [|constructor]. now apply find_none.
Qed.

(** ** Stripping *)

Lemma lstrip_empty (s : text) : lstrip s = [] <-> forallb is_space s = true.
Proof.
  induction s as [|c s IH]; cbn [lstrip forallb]; [tauto|].
  destruct (is_space c); cbn [andb]; [exact IH|].
  split; discriminate.
Qed.

Lemma lstrip_head (s : text) :
  match lstrip s with [] => True | c :: _ => is_space c = false end.
Proof.
  induction s as [|c s IH]; cbn [lstrip]; [exact I|].
  destruct (is_space c) eqn:E; [exact IH | exact E].
Qed.

Lemma strip_empty (s : text) : strip s = [] <-> forallb is_space s = true.
Proof.
  unfold strip. split.
  - intros H. apply (f_equal (@rev char)) in H. rewrite rev_involutive in H.
    cbn in H. apply lstrip_empty in H. rewrite forallb_forall in H.
    pose proof (lstrip_head s) as Hh. destruct (lstrip s) as [|c r] eqn:L.
    + now apply lstrip_empty.
    + rewrite (H c) in Hh; [discriminate|]. apply in_rev.
      rewrite rev_involutive. left. reflexivity.
  - intros H. apply lstrip_empty in H. rewrite H. reflexivity.
Qed.

Lemma strip_visible (s : text) : visible s -> strip s <> [].
Proof.
  intros (c & Hin & Hc) E. apply strip_empty in E.
  rewrite forallb_forall in E. rewrite (E c Hin) in Hc. discriminate.
Qed.

(** ** The lines of [adb devices] *)

Lemma device_of_line_some (line : text) (d : Device) :
  device_of_line line = Some d ->
  strip line <> []
  /\ (line = device_line d \/ exists more, line = device_line d ++ tab ++ more)
  /\ ~ occurs_in tab (dev_id d) /\ ~ occurs_in tab (dev_status d).
Proof.
  unfold device_of_line. intros H.
  destruct (strip line) as [|c0 r0] eqn:S; [discriminate|].
  split; [discriminate|].
  assert (Ht : tab <> []) by discriminate.
  rewrite split_equation in H by exact Ht.
  destruct (Str.find tab line) as [[a b]|] eqn:F; [|discriminate].
  pose proof (find_first _ _ _ _ F) as Fa.
  pose proof (first_split_pre_free _ _ _ _ Ht Fa) as Na.
  destruct Fa as [E _].
  rewrite split_equation in H by exact Ht.
  destruct (Str.find tab b) as [[a' b']|] eqn:F'.
  - inversion H; subst d; clear H. unfold device_line. cbn [dev_id dev_status].
    pose proof (find_first _ _ _ _ F') as Fb.
    pose proof (first_split_pre_free _ _ _ _ Ht Fb) as Nb.
    destruct Fb as [E' _]. split; [|split; assumption].
    right. exists b'. rewrite E, E', <- !app_assoc. reflexivity.
  - inversion H; subst d; clear H. unfold device_line. cbn [dev_id dev_status].
    split; [left; exact E|]. split; [exact Na|]. now apply find_none.
Qed.

(** X19.  Every device of the answer comes from a line after the first
    line of the output: the line is not blank, it begins with the id, a tab
    and the status, and what follows a second tab is dropped; neither
    field has a tab or a newline inside. *)
Theorem devices_come_from_lines_after_the_first (output : text) (d : Device) :
  In d (list_devices (Value output)) ->
  exists line,
    In line (tl (Str.split nl output))
    /\ strip line <> []
    /\ ~ occurs_in nl line
    /\ (line = device_line d \/ exists more, line = device_line d ++ tab ++ more)
    /\ ~ occurs_in tab (dev_id d) /\ ~ occurs_in tab (dev_status d).
Proof.
  cbn [list_devices]. intros H. apply in_flat_map in H.
  destruct H as (line & Hl & Hd).
  destruct (device_of_line line) as [d'|] eqn:D; [|contradiction].
  destruct Hd as [->|[]].
  exists line. split; [exact Hl|].
  destruct (device_of_line_some _ _ D) as (S & Sh & N1 & N2).
  split; [exact S|]. split; [|split; [exact Sh | split; assumption]].
  assert (Hn : nl <> []) by discriminate.
  pose proof (split_pieces_free nl Hn (length output) output (le_n _)) as Fr.
  rewrite Forall_forall in Fr. apply Fr.
  destruct (Str.split nl output); [contradiction | now right].
Qed.

Lemma device_of_line_printed (d : Device) :
  printable_device d -> device_of_line (device_line d) = Some d.
Proof.
  intros (T1 & _ & T2 & _ & V). unfold device_of_line.
  pose proof (strip_visible _ V) as S.
  destruct (strip (device_line d)); [congruence|].
  change (device_line d) with (Str.join tab [dev_id d; dev_status d]).
  unfold tab. rewrite split_join_char.
  - destruct d; reflexivity.
  - constructor; [|constructor; [|constructor]].
    + intros K. apply T1. now apply occurs_single.
    + intros K. apply T2. now apply occurs_single.
Qed.

Lemma device_line_no_newline (d : Device) :
  printable_device d -> ~ In 10 (device_line d).
Proof.
  intros (_ & N1 & _ & N2 & _) K. unfold device_line in K.
  apply in_app_or in K. destruct K as [K|K].
  - apply N1. now apply occurs_single.
  - apply in_app_or in K. destruct K as [K|K].
    + cbn in K. destruct K as [K|[]]. discriminate.
    + apply N2. now apply occurs_single.
Qed.

(** X20.  The answer reads back what was printed: for a first line
    without a newline and devices printed one on a line, id, tab, status,
    the devices of the answer are these devices, in their order, whatever
    the first line says. *)
Theorem list_devices_reads_back (header : text) (ds : list Device) :
  ~ occurs_in nl header ->
  Forall printable_device ds ->
  list_devices (Value (Str.join nl (header :: map device_line ds))) = ds.
Proof.
  intros Hh Hds. cbn [list_devices]. unfold nl. rewrite split_join_char.
  - cbn [tl]. induction Hds as [|d ds Hd Hds IH]; [reflexivity|].
    cbn [map flat_map]. rewrite (device_of_line_printed _ Hd).
    cbn [app]. f_equal. exact IH.
  - constructor.
    + intros K. apply Hh. now apply occurs_single.
    + apply Forall_forall. intros l Hl. apply in_map_iff in Hl.
      destruct Hl as (d & <- & Hd). rewrite Forall_forall in Hds.
      apply device_line_no_newline. now apply Hds.
Qed.

(** * Further properties: the path of adb *)

(** X18.  The configured path is the bare command adb or a path that
    exists.  A non-empty path in the environment is used when it exists;
    when it does not exist the bare command is used, the default place of
    the SDK is not tried, whether or not adb is there. *)
Theorem adb_path_is_adb_or_exists (env_adb : option text) (local_adb : text)
        (path_exists : text -> bool) :
  let p := ADB_PATH env_adb local_adb path_exists in
  (p = adb \/ path_exists p = true)
  /\ (forall e, env_adb = Some e -> e <> [] -> path_exists e = true -> p = e)
  /\ (forall e, env_adb = Some e -> e <> [] -> path_exists e = false -> p = adb).
Proof.
  cbv zeta. unfold ADB_PATH. split; [|split].
  - destruct env_adb as [[|c e]|].
    + destruct (path_exists local_adb) eqn:L.
      * rewrite L. cbn [negb andb]. now right.
      * destruct (path_exists adb) eqn:A; cbn [negb andb]; [now right|].
        rewrite Str_eqb_refl. cbn. now left.
    + destruct (path_exists (c :: e)) eqn:L; cbn [negb andb]; [now right|].
      destruct (Str.eqb (c :: e) adb) eqn:Q; cbn [negb].
      * apply Str_eqb_eq in Q. now left.
      * now left.
    + destruct (path_exists local_adb) eqn:L.
      * rewrite L. cbn [negb andb]. now right.
      * destruct (path_exists adb) eqn:A; cbn [negb andb]; [now right|].
        rewrite Str_eqb_refl. cbn. now left.
  - intros e -> He Hx. destruct e as [|c e]; [congruence|].
    rewrite Hx. reflexivity.
  - intros e -> He Hx. destruct e as [|c e]; [congruence|].
    rewrite Hx. cbn [negb andb].
    destruct (Str.eqb (c :: e) adb) eqn:Q; cbn [negb]; [|reflexivity].
    now apply Str_eqb_eq in Q.
Qed.

(** * Further properties: the listing of a directory *)

(** ** The sort *)

Lemma insert_item_perm (x : FileItem) (l : list FileItem) :
  Permutation (insert_item x l) (x :: l).
Proof.
  induction l as [|y l IH]; cbn [insert_item]; [reflexivity|].
  destruct (key_lt (sort_key y) (sort_key x)); [|reflexivity].
  rewrite IH. apply perm_swap.
Qed.

Lemma sort_items_perm (l : list FileItem) : Permutation (sort_items l) l.
Proof.
  induction l as [|x l IH]; cbn; [reflexivity|].
  unfold sort_items in IH. rewrite insert_item_perm. now constructor.
Qed.

Lemma not_after_iff (x y : FileItem) :
  not_after x y <->
  (fst (sort_key x) = fst (sort_key y)
   /\ Str.leb (snd (sort_key x)) (snd (sort_key y)) = true)
  \/ (fst (sort_key x) = false /\ fst (sort_key y) = true).
Proof.
  unfold not_after, key_lt.
  destruct (fst (sort_key x)), (fst (sort_key y)); cbn [Bool.eqb negb];
    rewrite ?negb_false_iff; intuition congruence.
Qed.

Lemma not_after_trans (x y z : FileItem) :
  not_after x y -> not_after y z -> not_after x z.
Proof.
  rewrite !not_after_iff.
  intros [[E1 L1]|[E1 E1']] [[E2 L2]|[E2 E2']].
  - left. split; [congruence | eapply leb_trans; eauto].
  - right. split; congruence.
  - right. split; congruence.
  - congruence.
Qed.

Lemma not_after_total (x y : FileItem) :
  key_lt (sort_key y) (sort_key x) = true -> not_after y x.
Proof.
  unfold not_after, key_lt.
  destruct (fst (sort_key x)), (fst (sort_key y)); cbn [Bool.eqb negb];
    try congruence; rewrite negb_true_iff, negb_false_iff; intros H;
    destruct (leb_total (snd (sort_key x)) (snd (sort_key y))); congruence.
Qed.

Lemma insert_item_sorted (x : FileItem) (l : list FileItem) :
  StronglySorted not_after l -> StronglySorted not_after (insert_item x l).
Proof.
  induction 1 as [|y l Hs IH Hy]; cbn [insert_item].
  - constructor; constructor.
  - destruct (key_lt (sort_key y) (sort_key x)) eqn:K.
    + constructor; [exact IH|].
      apply Forall_forall. intros z Hz.
      apply (Permutation_in _ (insert_item_perm x l)) in Hz.
      destruct Hz as [<-|Hz].
      * now apply not_after_total.
      * rewrite Forall_forall in Hy. now apply Hy.
    + constructor; [now constructor|].
      constructor; [exact K|].
      apply Forall_forall. intros z Hz. rewrite Forall_forall in Hy.
      eapply not_after_trans; [exact K | now apply Hy].
Qed.

Lemma sort_items_sorted (l : list FileItem) :
  StronglySorted not_after (sort_items l).
Proof.
  induction l as [|x l IH]; cbn; [constructor|].
  now apply insert_item_sorted.
Qed.

Lemma negb_eqb_dir (x : FileItem) :
  fst (sort_key x) = false <-> is_dir x.
Proof.
  unfold is_dir. cbn [sort_key fst]. rewrite negb_false_iff. apply Str_eqb_eq.
Qed.

Lemma not_after_goes_before (x y : FileItem) :
  not_after x y -> goes_before x y.
Proof.
  rewrite not_after_iff. unfold goes_before. rewrite <- !negb_eqb_dir.
  cbn [sort_key snd].
  intros [[E L]|[E E']].
  - split; [congruence | intros _; exact L].
  - split; [intros _; exact E|]. intros [K _]. specialize (K E). congruence.
Qed.

(** ** The answer *)

Lemma entry_set_magic (mp : dict) (f : FileItem) : entry (set_magic mp f) = entry f.
Proof. unfold set_magic. destruct (Str.eqb _ _); reflexivity. Qed.

Lemma listing_files (path output : text) (magic_output : exc text) :
  Str.contains (str "Permission denied") output = false ->
  Str.contains (str "No such file") output = false ->
  list_files_in_path path (Value output) magic_output =
    {| ls_path := path; ls_error := None;
       ls_files :=
         sort_items
           match magic_output with
           | Value m => map (set_magic (magic_map_of m))
                            (map plain (parse_ls_output output))
           | Raised _ => map plain (parse_ls_output output)
           end |}.
Proof. intros H1 H2. cbn [list_files_in_path]. rewrite H1, H2. reflexivity. Qed.

(** X21.  When the output of the listing has neither of the two error
    phrases, the answer has no error and its files are the entries of
    [parse_ls_output], each once, in another order, whatever the second
    command gave.  When one of the phrases stands anywhere in the output,
    a file name included, the answer has an error and no files. *)
Theorem listing_is_the_parsed_entries_reordered (path output : text)
        (magic_output : exc text) :
  let r := list_files_in_path path (Value output) magic_output in
  (~ occurs_in (str "Permission denied") output ->
   ~ occurs_in (str "No such file") output ->
   ls_error r = None
   /\ Permutation (map entry (ls_files r)) (parse_ls_output output))
  /\ (occurs_in (str "Permission denied") output
      \/ occurs_in (str "No such file") output ->
      ls_error r <> None /\ ls_files r = []).
Proof.
  cbv zeta. split.
  - intros H1 H2.
    rewrite listing_files by (apply contains_false; assumption).
    cbn [ls_error ls_files]. split; [reflexivity|].
    rewrite sort_items_perm.
    destruct magic_output as [m|msg].
    + rewrite !map_map. erewrite map_ext; [rewrite map_id; reflexivity|].
      intros f. rewrite entry_set_magic. reflexivity.
    + rewrite map_map. rewrite map_id. reflexivity.
  - intros H. cbn [list_files_in_path].
    destruct (Str.contains (str "Permission denied") output) eqn:P.
    + cbn. split; [discriminate | reflexivity].
    + destruct (Str.contains (str "No such file") output) eqn:N.
      * cbn. split; [discriminate | reflexivity].
      * exfalso. destruct H as [H|H]; apply contains_iff in H; congruence.
Qed.

(** X22.  The files of every answer are in order: directories first, and
    within the directories and within the rest the names ascending by
    code point. *)
Theorem directories_first_then_by_name (path : text)
        (output magic_output : exc text) :
  StronglySorted goes_before
    (ls_files (list_files_in_path path output magic_output)).
Proof.
  assert (S : forall l, StronglySorted goes_before (sort_items l)).
  { intros l. pose proof (sort_items_sorted l) as H.
    induction H as [|x l' Hs IH Hx]; constructor; [exact IH|].
    eapply Forall_impl; [|exact Hx]. intros y. apply not_after_goes_before. }
  destruct output as [output|msg]; cbn [list_files_in_path ls_files];
    [|constructor].
  destruct (Str.contains (str "Permission denied") output); [constructor|].
  destruct (Str.contains (str "No such file") output); [constructor|].
  apply S.
Qed.

Lemma listing_in (path output : text) (magic_output : exc text) (it : FileItem) :
  In it (ls_files (list_files_in_path path (Value output) magic_output)) ->
  exists f, In f (parse_ls_output output)
    /\ it = match magic_output with
            | Value m => set_magic (magic_map_of m) (plain f)
            | Raised _ => plain f
            end.
Proof.
  cbn [list_files_in_path].
  destruct (Str.contains (str "Permission denied") output); [intros []|].
  destruct (Str.contains (str "No such file") output); [intros []|].
  cbn [ls_files]. intros H.
  apply (Permutation_in _ (sort_items_perm _)) in H.
  destruct magic_output as [m|msg].
  - apply in_map_iff in H. destruct H as (p & <- & H).
    apply in_map_iff in H. destruct H as (f & <- & H). eauto.
  - apply in_map_iff in H. destruct H as (f & <- & H). eauto.
Qed.

(** X23.  When the second command fails no file of the answer has the
    key magic, and the listing is given all the same; when it succeeds,
    the files of type file have the key, directories and links do not. *)
Theorem magic_is_set_for_files_only (path output : text)
        (magic_output : exc text) (it : FileItem) :
  In it (ls_files (list_files_in_path path (Value output) magic_output)) ->
  (forall msg, magic_output = Raised msg -> magic it = None)
  /\ (forall m, magic_output = Value m ->
        (magic it <> None <-> type (entry it) = str "file")).
Proof.
  intros H. apply listing_in in H. destruct H as (f & _ & ->). split.
  - intros msg ->. reflexivity.
  - intros m ->. unfold set_magic. cbn [plain entry].
    destruct (Str.eqb (type f) (str "file")) eqn:E; cbn [magic entry].
    + apply Str_eqb_eq in E. split; [intros _; exact E | discriminate].
    + split; [intros K; exfalso; apply K; reflexivity|].
      intros K. cbn [plain entry] in K. apply Str_eqb_eq in K. congruence.
Qed.

(** ** The descriptions *)

Lemma described_iff (line nm desc : text) :
  described line nm desc <->
  exists a b, Str.find (str ": ") (strip line) = Some (a, b)
              /\ magic_name a = nm /\ strip b = desc.
Proof.
  split.
  - intros (a & b & F & Hn & Hd).
    destruct (find_complete (str ": ") (strip line)) as (a' & b' & F').
    { destruct F as [E _]. exists a, b. exact E. }
    destruct (first_split_unique _ _ _ _ _ _ F (find_first _ _ _ _ F'))
      as [-> ->].
    eauto.
  - intros (a & b & F & Hn & Hd). exists a, b.
    split; [now apply find_first | auto].
Qed.

Lemma magic_line_eq (mp : dict) (line : text) :
  magic_line mp line =
    match Str.find (str ": ") (strip line) with
    | Some (a, b) => dict_set (magic_name a) (strip b) mp
    | None => mp
    end.
Proof.
  unfold magic_line, Str.contains, split1.
  destruct (Str.find (str ": ") (strip line)) as [[a b]|]; reflexivity.
Qed.

(** What [get] finds in the map after the loop over the lines. *)
Lemma fold_magic_get (k : text) (lines : list text) :
  forall mp,
  match dict_get k (fold_left magic_line lines mp) with
  | Some d =>
      (exists before line after,
         lines = before ++ line :: after
         /\ described line k d
         /\ forall l d', In l after -> ~ described l k d')
      \/ (dict_get k mp = Some d
          /\ forall l d', In l lines -> ~ described l k d')
  | None =>
      dict_get k mp = None /\ forall l d', In l lines -> ~ described l k d'
  end.
Proof.
  induction lines as [|l lines IH]; intros mp.
  - cbn [fold_left]. destruct (dict_get k mp); [right|]; split; auto.
  - cbn [fold_left]. specialize (IH (magic_line mp l)).
    assert (Step :
      forall o, dict_get k (magic_line mp l) = o ->
        (exists d, o = Some d /\ described l k d)
        \/ (dict_get k mp = o /\ forall d', ~ described l k d')).
    { intros o Ho. rewrite magic_line_eq in Ho.
      destruct (Str.find (str ": ") (strip l)) as [[a b]|] eqn:F.
      - cbn [dict_set dict_get] in Ho.
        destruct (Str.eqb k (magic_name a)) eqn:Q.
        + apply Str_eqb_eq in Q. left. exists (strip b). split; [auto|].
          apply described_iff. exists a, b. auto.
        + right. split; [exact Ho|]. intros d' D. apply described_iff in D.
          destruct D as (a' & b' & F' & Hn & _). rewrite F in F'.
          inversion F'; subst a' b'.
          assert (Str.eqb k (magic_name a) = true) by (apply Str_eqb_eq; auto).
          congruence.
      - right. split; [exact Ho|]. intros d' D. apply described_iff in D.
        destruct D as (a' & b' & F' & _). congruence. }
    destruct (dict_get k (fold_left magic_line lines (magic_line mp l)))
      as [d|] eqn:G.
    + destruct IH as [(before & line & after & -> & D & N)|[Hg N]].
      * left. exists (l :: before), line, after. auto.
      * destruct (Step _ Hg) as [(d0 & E0 & D0)|[Hm N0]].
        -- inversion E0; subst d0. left. exists [], l, lines. auto.
        -- right. split; [exact Hm|]. intros l' d' [<-|Hin]; [apply N0|].
           now apply N.
    + destruct IH as [Hg N].
      destruct (Step _ Hg) as [(d0 & E0 & _)|[Hm N0]]; [discriminate|].
      split; [exact Hm|]. intros l' d' [<-|Hin]; [apply N0 | now apply N].
Qed.

(** X24.  After a second command that succeeded, every file of type file
    has the key magic: the description of the last line of its output that
    describes the name of the file, or [None] when no line does. *)
Theorem magic_is_the_last_description_of_the_name (path output m : text)
        (it : FileItem) :
  In it (ls_files (list_files_in_path path (Value output) (Value m))) ->
  type (entry it) = str "file" ->
  match magic it with
  | Some (Some d) =>
      exists before line after,
        Str.split nl m = before ++ line :: after
        /\ described line (name (entry it)) d
        /\ forall l d', In l after -> ~ described l (name (entry it)) d'
  | Some None =>
      forall l d', In l (Str.split nl m) -> ~ described l (name (entry it)) d'
  | None => False
  end.
Proof.
  intros H T. apply listing_in in H. destruct H as (f & _ & ->).
  unfold set_magic in *. cbn [plain entry] in *.
  destruct (Str.eqb (type f) (str "file")) eqn:E.
  - cbn [magic entry]. unfold magic_map_of.
    pose proof (fold_magic_get (name f) (Str.split nl m) []) as G.
    destruct (dict_get (name f) (fold_left magic_line (Str.split nl m) []))
      as [d|].
    + destruct G as [G|[G _]]; [exact G | discriminate].
    + exact (proj2 G).
  - cbn [plain entry] in T. apply Str_eqb_eq in T. congruence.
Qed.

(** * Further properties: the list of packages *)

Lemma find_prefix (p n : text) :
  p <> [] -> Str.find p (p ++ n) = Some ([], n).
Proof.
  intros Hp. destruct (p ++ n) as [|y l] eqn:E.
  - destruct p; [congruence | discriminate].
  - cbn [Str.find]. rewrite <- E, startswith_app, skipn_app_exact. reflexivity.
Qed.

Lemma replace_prefix (p n : text) :
  p <> [] -> ~ occurs_in p n -> str_replace p [] (p ++ n) = n.
Proof.
  intros Hp Hn. unfold str_replace.
  rewrite split_equation by exact Hp.
  rewrite (find_prefix _ _ Hp), (split_no_sep _ _ Hn). reflexivity.
Qed.

Lemma package_line_visible (n : text) : visible (package_line n).
Proof. exists 112. split; [now left | reflexivity]. Qed.

Lemma package_line_no_newline (n : text) :
  ~ occurs_in nl n -> ~ In 10 (package_line n).
Proof.
  intros H K. unfold package_line in K. apply in_app_or in K.
  destruct K as [K|K].
  - cbn in K. intuition discriminate.
  - apply H. now apply occurs_single.
Qed.

Lemma package_names_of_lines (ns : list text) :
  Forall listed_name ns ->
  package_names (Str.join nl (map package_line ns)) = ns.
Proof.
  intros H. unfold package_names. destruct ns as [|n ns]; [reflexivity|].
  cbn [map]. unfold nl at 1 2. rewrite split_join_char.
  - change (package_line n :: map package_line ns)
      with (map package_line (n :: ns)).
    induction H as [|x l Hx Hl IH]; [reflexivity|].
    cbn [map filter].
    pose proof (strip_visible _ (package_line_visible x)) as V.
    destruct (strip (package_line x)) eqn:S; [congruence|].
    cbn [map]. f_equal; [|exact IH].
    destruct Hx as (_ & Hs & _ & Hp). unfold package_line.
    rewrite replace_prefix; [exact Hs | discriminate | exact Hp].
  - change (package_line n :: map package_line ns)
      with (map package_line (n :: ns)).
    apply Forall_forall. intros l Hl. apply in_map_iff in Hl.
    destruct Hl as (x & <- & Hx). rewrite Forall_forall in H.
    apply package_line_no_newline. now apply (H x Hx).
Qed.

Lemma names_of_answer (device_id : text) (output_simple : text)
      (dump_output : exc text) :
  exists r,
    list_packages_detailed device_id (Value output_simple) dump_output = Some r
    /\ map pk_name (pl_packages r) = package_names output_simple
    /\ pl_total_count r = Z.of_nat (length (package_names output_simple))
    /\ pl_device_id r = device_id.
Proof.
  cbn [list_packages_detailed].
  destruct dump_output as [d|msg];
    [destruct (dump_loop (Str.split nl d) ([], None)) as [[pkg_data cur]|]|];
    eexists; (split; [reflexivity|]); cbn [pl_packages pl_total_count pl_device_id];
    rewrite ?length_map, map_map; cbn [pk_name package_of];
    rewrite map_id; auto.
Qed.

(** X25.  The answer reads back what [pm list packages] prints: for the
    lines [package:] and a name, one for each name, the packages of the
    answer have these names in their order and the count is their number,
    whether the dump could be read or not. *)
Theorem package_names_read_back (device_id : text) (ns : list text)
        (dump_output : exc text) :
  Forall listed_name ns ->
  exists r,
    list_packages_detailed device_id
      (Value (Str.join nl (map package_line ns))) dump_output = Some r
    /\ map pk_name (pl_packages r) = ns
    /\ pl_total_count r = Z.of_nat (length ns)
    /\ pl_device_id r = device_id.
Proof.
  intros H.
  destruct (names_of_answer device_id (Str.join nl (map package_line ns))
              dump_output) as (r & E & N & C & D).
  rewrite (package_names_of_lines _ H) in N, C. exists r. auto.
Qed.

Lemma or_else_nonempty (a : option text) (b : text) :
  b <> [] -> or_else a b <> [].
Proof. intros Hb. destruct a as [[|c v]|]; cbn; [exact Hb | discriminate | exact Hb]. Qed.

(** ** The loop over the dump *)

Lemma value_of_some (key line : text) :
  key <> [] -> Str.contains key line = true ->
  exists v, value_of key line = Some v.
Proof.
  intros Hk H. unfold Str.contains in H. unfold value_of.
  rewrite split_equation by exact Hk.
  destruct (Str.find key line) as [[a b]|]; [|discriminate].
  rewrite split_equation by exact Hk.
  destruct (Str.find key b) as [[a' b']|]; cbn [nth_error]; eauto.
Qed.

Lemma pkg_update_some (k : text) (f : PkgTimes -> PkgTimes) (d : pkg_dict) :
  pkg_get k d <> None ->
  exists d', pkg_update k f d = Some d'
    /\ forall k', pkg_get k' d' = None <-> pkg_get k' d = None.
Proof.
  induction d as [|[k0 t] d IH]; cbn [pkg_get pkg_update]; [congruence|].
  destruct (Str.eqb k k0) eqn:E.
  - intros _. eexists. split; [reflexivity|]. intros k'. cbn [pkg_get].
    destruct (Str.eqb k' k0); [split; discriminate | reflexivity].
  - intros H. destruct (IH H) as (d' & -> & Hd). eexists.
    split; [reflexivity|]. intros k'. cbn [pkg_get].
    destruct (Str.eqb k' k0); [split; discriminate | apply Hd].
Qed.

Lemma pkg_get_app (k k0 : text) (t : PkgTimes) (d : pkg_dict) :
  pkg_get k (d ++ [(k0, t)]) = None <-> pkg_get k d = None /\ k <> k0.
Proof.
  induction d as [|[k1 t1] d IH]; cbn [app pkg_get].
  - destruct (Str.eqb k k0) eqn:E.
    + apply Str_eqb_eq in E. split; [discriminate | tauto].
    + split; [|reflexivity]. intros _. split; [reflexivity|].
      intros K. apply Str_eqb_eq in K. congruence.
  - destruct (Str.eqb k k1); [split; [discriminate | tauto] | exact IH].
Qed.

(** A match of the header pattern: the line begins with the header of
    the name in its group. *)
Lemma package_header_match (line : text) (mt : rmatch) :
  match_ package_header line = Some mt ->
  exists rest, line = str "Package [" ++ group 1 mt ++ str "]" ++ rest.
Proof.
  intros H. apply match_here_in in H. unfold package_header in H.
  cbn [seqs] in H.
  apply m_seq_head in H; [|exact I].
  destruct H as (u & s1 & -> & Du & H). cbn [den] in Du. subst u.
  apply m_seq_group in H; [|exact I].
  destruct H as (v & s2 & -> & _ & H).
  apply m_last in H; [|exact I].
  destruct H as (Hc & w & -> & Dw). cbn [den] in Dw. subst w.
  exists (m_after mt). unfold group. rewrite Hc. cbn [lookup].
  rewrite Nat.eqb_refl. reflexivity.
Qed.

Lemma loop_inv_header (seen : list text) (st : pkg_dict * option text)
      (line : text) :
  loop_inv seen st ->
  loop_inv (line :: seen)
    match match_ package_header (strip line) with
    | Some pkg_match =>
        let current_pkg := group 1 pkg_match in
        (match pkg_get current_pkg (fst st) with
         | Some _ => fst st
         | None =>
             fst st ++ [(current_pkg,
                         {| pt_name := current_pkg; pt_installTime := None;
                            pt_timeStamp := None; pt_updateTime := None |})]
         end,
         Some current_pkg)
    | None => st
    end.
Proof.
  intros [I1 I2].
  assert (W : forall k, pkg_get k (fst st) <> None ->
                exists l, In l (line :: seen) /\ header_of l k).
  { intros k Hk. destruct (I2 k Hk) as (l & Hl & Hh).
    exists l. split; [right; exact Hl | exact Hh]. }
  destruct (match_ package_header (strip line)) as [mt|] eqn:M.
  - cbv zeta. pose proof (package_header_match _ _ M) as Hh.
    destruct (pkg_get (group 1 mt) (fst st)) as [t|] eqn:G;
      unfold loop_inv; cbn [fst snd]; split.
    + intros c p E. injection E as E'. rewrite <- E', G. discriminate.
    + exact W.
    + intros c p E. injection E as E'. rewrite <- E'. intros K.
      apply pkg_get_app in K. destruct K as [_ K]. apply K. reflexivity.
    + intros k Hk. destruct (pkg_get k (fst st)) as [t|] eqn:Gk.
      * apply W. rewrite Gk. discriminate.
      * destruct (Str.eqb k (group 1 mt)) eqn:Q.
        -- apply Str_eqb_eq in Q. rewrite Q. exists line.
           split; [left; reflexivity | exact Hh].
        -- exfalso. apply Hk. apply pkg_get_app. split; [exact Gk|].
           intros K. apply Str_eqb_eq in K. rewrite K in Q. discriminate.
  - split; [exact I1 | exact W].
Qed.

Lemma loop_inv_update (seen : list text) (d : pkg_dict) (cur : text)
      (f : PkgTimes -> PkgTimes) :
  loop_inv seen (d, Some cur) -> pkg_get cur d <> None ->
  exists d', pkg_update cur f d = Some d' /\ loop_inv seen (d', Some cur).
Proof.
  intros [I1 I2] Hc. destruct (pkg_update_some cur f d Hc) as (d' & E & K).
  exists d'. split; [exact E|]. cbn [fst snd] in I1, I2 |- *. split.
  - intros c p Ec Hn. apply K in Hn. exact (I1 c p Ec Hn).
  - intros k Hk. apply I2. intros Hn. apply Hk. now apply K.
Qed.

Lemma dump_line_inv (seen : list text) (st : pkg_dict * option text)
      (line : text) :
  loop_inv seen st ->
  exists st', dump_line st line = Some st' /\ loop_inv (line :: seen) st'.
Proof.
  intros Hinv. apply (loop_inv_header seen st line) in Hinv.
  unfold dump_line. cbv zeta in Hinv |- *.
  destruct (match match_ package_header (strip line) with
            | Some pkg_match => _
            | None => st
            end) as [d cur] eqn:S1.
  cbn [fst snd].
  destruct cur as [[|c p]|]; [eauto | | eauto].
  assert (Hc : pkg_get (c :: p) d <> None) by (apply (proj1 Hinv c p); reflexivity).
  destruct (Str.contains (str "firstInstallTime=") (strip line)) eqn:C1.
  { destruct (value_of_some (str "firstInstallTime=") (strip line)
                ltac:(cbv; discriminate) C1) as (v & ->).
    destruct (loop_inv_update _ _ _ (set_installTime v) Hinv Hc) as (d' & E & I').
    cbn [bind]. rewrite E. cbn [bind]. eauto. }
  destruct (Str.contains (str "timeStamp=") (strip line)) eqn:C2.
  { destruct (value_of_some (str "timeStamp=") (strip line)
                ltac:(cbv; discriminate) C2) as (v & ->).
    destruct (loop_inv_update _ _ _ (set_timeStamp v) Hinv Hc) as (d' & E & I').
    cbn [bind]. rewrite E. cbn [bind]. eauto. }
  destruct (Str.contains (str "lastUpdateTime=") (strip line)) eqn:C3.
  { destruct (value_of_some (str "lastUpdateTime=") (strip line)
                ltac:(cbv; discriminate) C3) as (v & ->).
    destruct (loop_inv_update _ _ _ (set_updateTime v) Hinv Hc) as (d' & E & I').
    cbn [bind]. rewrite E. cbn [bind]. eauto. }
  eauto.
Qed.

(** The loop never raises, and keeps its invariant. *)
Lemma dump_loop_inv (lines : list text) :
  forall seen st, loop_inv seen st ->
  exists st', dump_loop lines st = Some st' /\ loop_inv (rev lines ++ seen) st'.
Proof.
  induction lines as [|l lines IH]; intros seen st Hinv; cbn [dump_loop rev app].
  - eauto.
  - destruct (dump_line_inv seen st l Hinv) as (st1 & -> & I1). cbn [bind].
    destruct (IH _ _ I1) as (st' & E & I'). exists st'. split; [exact E|].
    rewrite <- app_assoc. exact I'.
Qed.

(** X27.  A package that has no block in the dump, no line that begins,
    once stripped, with [Package], its name in brackets, gets N/A for
    both of its times; the dump itself is always read to its end. *)
Theorem packages_without_a_block_are_not_available (device_id : text)
        (output_simple dump_output : text) (r : PackageList) (p : Package) :
  list_packages_detailed device_id (Value output_simple) (Value dump_output)
    = Some r ->
  In p (pl_packages r) ->
  (forall line, In line (Str.split nl dump_output) -> ~ header_of line (pk_name p)) ->
  pk_installTime p = not_available /\ pk_updateTime p = Some not_available.
Proof.
  intros E Hin Hno. cbn [list_packages_detailed] in E.
  assert (I0 : loop_inv [] ([], None)).
  { split; [discriminate|]. intros k Hk. cbn in Hk. congruence. }
  destruct (dump_loop_inv (Str.split nl dump_output) [] _ I0)
    as ([pkg_data cur] & L & [_ I2]).
  rewrite L in E. inversion E; subst r; clear E. cbn [pl_packages] in Hin.
  apply in_map_iff in Hin. destruct Hin as (n & <- & _).
  cbn [package_of pk_name] in Hno. cbn [fst] in I2.
  assert (G : pkg_get n pkg_data = None).
  { destruct (pkg_get n pkg_data) eqn:G; [|reflexivity]. exfalso.
    destruct (I2 n) as (line & Hl & Hh); [congruence|].
    rewrite app_nil_r in Hl. apply in_rev in Hl. exact (Hno line Hl Hh). }
  unfold package_of. rewrite G. cbn. auto.
Qed.

(** ** Where the times come from *)

Lemma contains_false_absent (sub s : text) :
  Str.contains sub s = false -> ~ occurs_in sub s.
Proof. intros H O. apply contains_iff in O. congruence. Qed.

Lemma value_of_keyed (key s v : text) :
  key <> [] -> value_of key s = Some v ->
  exists a b,
    first_split key s a b
    /\ ((exists v0 c, first_split key b v0 c /\ v = strip v0)
        \/ (~ occurs_in key b /\ v = strip b)).
Proof.
  intros Hk H. unfold value_of in H.
  rewrite split_equation in H by exact Hk.
  destruct (Str.find key s) as [[a b]|] eqn:F; [|discriminate].
  exists a, b. split; [now apply find_first|].
  cbn [nth_error] in H. rewrite split_equation in H by exact Hk.
  destruct (Str.find key b) as [[a' b']|] eqn:F'; cbn [nth_error] in H;
    injection H as <-.
  - left. exists a', b'. split; [now apply find_first | reflexivity].
  - right. split; [now apply find_none | reflexivity].
Qed.

Lemma pkg_update_get (k : text) (f : PkgTimes -> PkgTimes) (d : pkg_dict) :
  forall d', pkg_update k f d = Some d' ->
  forall k' t', pkg_get k' d' = Some t' ->
  pkg_get k' d = Some t' \/ exists t, pkg_get k d = Some t /\ t' = f t.
Proof.
  induction d as [|[k0 t0] d IH]; intros d' H k' t' G;
    cbn [pkg_update] in H; [discriminate|].
  cbn [pkg_get]. destruct (Str.eqb k k0) eqn:E.
  - injection H as <-. cbn [pkg_get] in G.
    destruct (Str.eqb k' k0); [|now left].
    injection G as <-. right. exists t0. auto.
  - destruct (pkg_update k f d) as [d1|] eqn:U; [|discriminate].
    injection H as <-. cbn [pkg_get] in G.
    destruct (Str.eqb k' k0); [now left|].
    exact (IH d1 eq_refl k' t' G).
Qed.

Lemma pkg_get_app_some (k k0 : text) (t0 t : PkgTimes) (d : pkg_dict) :
  pkg_get k (d ++ [(k0, t0)]) = Some t -> pkg_get k d = Some t \/ t = t0.
Proof.
  induction d as [|[k1 t1] d IH]; cbn [app pkg_get].
  - destruct (Str.eqb k k0); [|discriminate]. intros H. injection H as <-.
    now right.
  - destruct (Str.eqb k k1); [now left | exact IH].
Qed.

Lemma time_sources_more (seen : list text) (line : text) (t : PkgTimes) :
  time_sources seen t -> time_sources (line :: seen) t.
Proof.
  intros (S1 & S2 & S3). split; [|split]; intros v Hv.
  - destruct (S1 v Hv) as (l & Hl & K). exists l. split; [now right | exact K].
  - destruct (S2 v Hv) as (l & Hl & K). exists l. split; [now right | exact K].
  - destruct (S3 v Hv) as (l & Hl & K). exists l. split; [now right | exact K].
Qed.

Lemma times_inv_header (seen : list text) (st : pkg_dict * option text)
      (line : text) :
  times_inv seen st ->
  times_inv (line :: seen)
    match match_ package_header (strip line) with
    | Some pkg_match =>
        let current_pkg := group 1 pkg_match in
        (match pkg_get current_pkg (fst st) with
         | Some _ => fst st
         | None =>
             fst st ++ [(current_pkg,
                         {| pt_name := current_pkg; pt_installTime := None;
                            pt_timeStamp := None; pt_updateTime := None |})]
         end,
         Some current_pkg)
    | None => st
    end.
Proof.
  intros I.
  assert (W : forall k t, pkg_get k (fst st) = Some t ->
                          time_sources (line :: seen) t).
  { intros k t G. apply time_sources_more. exact (I k t G). }
  destruct (match_ package_header (strip line)) as [mt|]; [|exact W].
  cbv zeta. destruct (pkg_get (group 1 mt) (fst st)) as [t0|];
    unfold times_inv; cbn [fst]; [exact W|].
  intros k t G. apply pkg_get_app_some in G. destruct G as [G | ->].
  - exact (W k t G).
  - split; [|split]; intros v Hv; discriminate Hv.
Qed.

Lemma times_inv_update (seen : list text) (line : text) (d d' : pkg_dict)
      (cur : option text) (k : text) (f : PkgTimes -> PkgTimes) :
  times_inv (line :: seen) (d, cur) ->
  (forall t, time_sources (line :: seen) t -> time_sources (line :: seen) (f t)) ->
  pkg_update k f d = Some d' ->
  times_inv (line :: seen) (d', cur).
Proof.
  intros I F U k' t' G. cbn [fst] in G.
  destruct (pkg_update_get _ _ _ _ U _ _ G) as [G'|(t & G' & ->)].
  - exact (I k' t' G').
  - apply F. exact (I k t G').
Qed.

Lemma dump_line_times (seen : list text) (st st' : pkg_dict * option text)
      (line : text) :
  times_inv seen st -> dump_line st line = Some st' ->
  times_inv (line :: seen) st'.
Proof.
  intros I H. apply (times_inv_header seen st line) in I.
  unfold dump_line in H. cbv zeta in I, H.
  destruct (match match_ package_header (strip line) with
            | Some pkg_match => _
            | None => st
            end) as [d cur] eqn:S1.
  cbn [fst snd] in H.
  destruct cur as [[|c p]|]; [injection H as <-; exact I | |
                              injection H as <-; exact I].
  destruct (Str.contains (str "firstInstallTime=") (strip line)) eqn:C1.
  { destruct (value_of (str "firstInstallTime=") (strip line)) as [v|] eqn:V;
      [|discriminate]. cbn [bind] in H.
    destruct (pkg_update (c :: p) (set_installTime v) d) as [d'|] eqn:U;
      [|discriminate]. cbn [bind] in H. injection H as <-.
    apply (times_inv_update seen line d d' _ (c :: p) (set_installTime v) I);
      [|exact U].
    intros t (S1' & S2 & S3). split; [|split; [exact S2 | exact S3]].
    cbn [set_installTime pt_installTime]. intros v' Hv'. injection Hv' as <-.
    exists line. split; [now left|].
    apply value_of_keyed; [cbv; discriminate | exact V]. }
  destruct (Str.contains (str "timeStamp=") (strip line)) eqn:C2.
  { destruct (value_of (str "timeStamp=") (strip line)) as [v|] eqn:V;
      [|discriminate]. cbn [bind] in H.
    destruct (pkg_update (c :: p) (set_timeStamp v) d) as [d'|] eqn:U;
      [|discriminate]. cbn [bind] in H. injection H as <-.
    apply (times_inv_update seen line d d' _ (c :: p) (set_timeStamp v) I);
      [|exact U].
    intros t (S1' & S2 & S3). split; [exact S1'|split; [|exact S3]].
    cbn [set_timeStamp pt_timeStamp]. intros v' Hv'. injection Hv' as <-.
    exists line. split; [now left|].
    split; [now apply contains_false_absent|].
    apply value_of_keyed; [cbv; discriminate | exact V]. }
  destruct (Str.contains (str "lastUpdateTime=") (strip line)) eqn:C3.
  { destruct (value_of (str "lastUpdateTime=") (strip line)) as [v|] eqn:V;
      [|discriminate]. cbn [bind] in H.
    destruct (pkg_update (c :: p) (set_updateTime v) d) as [d'|] eqn:U;
      [|discriminate]. cbn [bind] in H. injection H as <-.
    apply (times_inv_update seen line d d' _ (c :: p) (set_updateTime v) I);
      [|exact U].
    intros t (S1' & S2 & S3). split; [exact S1'|split; [exact S2|]].
    cbn [set_updateTime pt_updateTime]. intros v' Hv'. injection Hv' as <-.
    exists line. split; [now left|].
    split; [now apply contains_false_absent|]. split; [now apply contains_false_absent|].
    apply value_of_keyed; [cbv; discriminate | exact V]. }
  injection H as <-. exact I.
Qed.

Lemma dump_loop_times (lines : list text) :
  forall seen st st', times_inv seen st -> dump_loop lines st = Some st' ->
  times_inv (rev lines ++ seen) st'.
Proof.
  induction lines as [|l lines IH]; intros seen st st' I H;
    cbn [dump_loop rev app] in H |- *.
  - injection H as <-. exact I.
  - destruct (dump_line st l) as [st1|] eqn:D; [|discriminate].
    cbn [bind] in H. rewrite <- app_assoc.
    exact (IH _ _ _ (dump_line_times _ _ _ _ I D) H).
Qed.

(** X26.  The install time of every package of an answer is a text that
    is not empty.  When the dump was obtained it is N/A, or what a line of
    the dump has after [firstInstallTime=], or what a line without
    [firstInstallTime=] has after [timeStamp=]; the update time is
    missing, N/A, or what a line with neither of these two keys has after
    [lastUpdateTime=].  When the dump cannot be obtained both times of
    every package are a hyphen. *)
Theorem package_times_come_from_the_dump (device_id : text)
        (output_simple dump_output : exc text) (r : PackageList) (p : Package) :
  list_packages_detailed device_id output_simple dump_output = Some r ->
  In p (pl_packages r) ->
  pk_installTime p <> []
  /\ match dump_output with
     | Raised _ =>
         pk_installTime p = str "-" /\ pk_updateTime p = Some (str "-")
     | Value d =>
         (pk_installTime p = not_available
          \/ (exists line,
                In line (Str.split nl d)
                /\ keyed_value (str "firstInstallTime=") line (pk_installTime p))
          \/ (exists line,
                In line (Str.split nl d)
                /\ ~ occurs_in (str "firstInstallTime=") (strip line)
                /\ keyed_value (str "timeStamp=") line (pk_installTime p)))
         /\ (pk_updateTime p = None
             \/ pk_updateTime p = Some not_available
             \/ (exists line v,
                   pk_updateTime p = Some v
                   /\ In line (Str.split nl d)
                   /\ ~ occurs_in (str "firstInstallTime=") (strip line)
                   /\ ~ occurs_in (str "timeStamp=") (strip line)
                   /\ keyed_value (str "lastUpdateTime=") line v))
     end.
Proof.
  intros E Hin. destruct output_simple as [s|msg]; [|discriminate].
  cbn [list_packages_detailed] in E.
  destruct dump_output as [d|msg].
  - assert (I0 : loop_inv [] ([], None)).
    { split; [discriminate|]. intros k Hk. cbn in Hk. congruence. }
    destruct (dump_loop_inv (Str.split nl d) [] _ I0) as ([pkg_data cur] & L & _).
    assert (T0 : times_inv [] ([], None)) by (intros k t G; discriminate G).
    pose proof (dump_loop_times _ _ _ _ T0 L) as T. rewrite app_nil_r in T.
    rewrite L in E. injection E as <-. cbn [pl_packages] in Hin.
    apply in_map_iff in Hin. destruct Hin as (n & <- & _).
    split.
    { cbn [package_of pk_installTime].
      apply or_else_nonempty, or_else_nonempty. discriminate. }
    unfold package_of. cbn [pk_installTime pk_updateTime].
    destruct (pkg_get n pkg_data) as [t|] eqn:G;
      [|split; [left; reflexivity | right; left; reflexivity]].
    destruct (T n t G) as (S1 & S2 & S3). split.
    + destruct (pt_installTime t) as [[|c v]|] eqn:P1; cbn [or_else].
      * destruct (pt_timeStamp t) as [[|c v]|] eqn:P2; cbn [or_else];
          [now left | | now left].
        right. right. destruct (S2 _ eq_refl) as (line & Hl & N & K).
        exists line. split; [now apply in_rev | auto].
      * right. left. destruct (S1 _ eq_refl) as (line & Hl & K).
        exists line. split; [now apply in_rev | exact K].
      * destruct (pt_timeStamp t) as [[|c v]|] eqn:P2; cbn [or_else];
          [now left | | now left].
        right. right. destruct (S2 _ eq_refl) as (line & Hl & N & K).
        exists line. split; [now apply in_rev | auto].
    + destruct (pt_updateTime t) as [v|] eqn:P3; [|now left].
      right. right. destruct (S3 _ eq_refl) as (line & Hl & N1 & N2 & K).
      exists line, v. split; [reflexivity|]. split; [now apply in_rev | auto].
  - injection E as <-. cbn [pl_packages] in Hin.
    apply in_map_iff in Hin. destruct Hin as (n & <- & _).
    cbn [pk_installTime pk_updateTime]. split; [discriminate | auto].
Qed.

End Unicode.

(** * The scenarios

    The statements above hold for every Unicode database and every digit
    limit.  The scenarios are ASCII texts; they are run with a database
    that has nothing above ASCII and with the default limit. *)

Notation "'app_links'" :=
  (get_app_links_state no_class no_class no_class no_decimal default_max_str_digits)
  (only parsing).
Notation "'analyze'" := (analyze_security_posture no_class no_class no_class)
  (only parsing).
Notation "'ls'" := (parse_ls_output no_class no_class) (only parsing).

Lemma not_occurs (sub s : text) : Str.contains sub s = false -> ~ occurs_in sub s.
Proof. intros H O. apply contains_iff in O. congruence. Qed.

(** C1 as stated fails: the printable runs of the sample are not empty. *)
Lemma sample_runs_not_empty :
  extract_strings_from_bytes sample_bytes 4 <> [].
Proof. vm_compute. discriminate. Qed.

(** C2 as stated fails: example.com is listed under a Disabled: marker of
    [two_sections_output], and its record is not blocked. *)
Lemma second_disabled_section_is_ignored :
  domains (app_links two_sections_output) = [two_sections_record]
  /\ two_sections_output
     = two_sections_before ++ disabled_marker ++ nl ++ str "    example.com"
  /\ status two_sections_record <> status_name blocked.
Proof.
  split; [vm_compute; reflexivity|]. split; [vm_compute; reflexivity|].
  vm_compute. discriminate.
Qed.

(** The amended C2 at the scenario of the specification. *)
Lemma disabled_domain_is_blocked_witness :
  In scenario_record (domains (app_links scenario_output))
  /\ occurs_in (disabled_marker ++ nl) scenario_output
  /\ (exists seg, disabled_section scenario_output seg
                  /\ occurs_in (domain scenario_record) seg)
  /\ status scenario_record = status_name blocked
  /\ description scenario_record
     = fst (classify (code scenario_record)) ++ user_disabled_suffix.
Proof.
  assert (Hin : In scenario_record (domains (app_links scenario_output))).
  { vm_compute. left. reflexivity. }
  assert (D : is_disabled scenario_output (str "example.com") = true).
  { vm_compute. reflexivity. }
  destruct (proj1 (is_disabled_iff _ _) D) as [H2 H3].
  split; [exact Hin|]. split; [exact H2|]. split; [exact H3|].
  exact (disabled_domain_is_blocked no_class no_class no_class no_decimal
           default_max_str_digits scenario_output scenario_record Hin H2 H3).
Defined.

(** C3 as stated fails: whichever two of the three markers are taken as
    the two following headers, the third ends a span by itself.  In
    [user_terminated_dump] neither permission header follows the list, in
    [install_terminated_dump] and [runtime_terminated_dump] only the one
    header does; each time the permission listed is in the result. *)
Lemma user_line_ends_the_span :
  (~ occurs_in install_header user_terminated_dump
   /\ ~ occurs_in runtime_header user_terminated_dump
   /\ permissions (analyze user_terminated_dump)
      = [str "android.permission.CAMERA"])
  /\ (~ occurs_in (str "User ") install_terminated_dump
      /\ ~ occurs_in runtime_header install_terminated_dump
      /\ permissions (analyze install_terminated_dump)
         = [str "android.permission.CAMERA"])
  /\ (~ occurs_in (str "User ") runtime_terminated_dump
      /\ ~ occurs_in install_header runtime_terminated_dump
      /\ permissions (analyze runtime_terminated_dump)
         = [str "android.permission.CAMERA"]).
Proof.
  repeat split; try (apply not_occurs; vm_compute; reflexivity);
    vm_compute; reflexivity.
Qed.

(** The amended C3 at a dump with every section. *)
Lemma requested_permissions_come_from_span_witness :
  In (str "android.permission.CAMERA") (permissions (analyze full_dump))
  /\ exists pre span rest,
       full_dump = pre ++ requested_header ++ span ++ rest
       /\ first_split requested_header full_dump pre (span ++ rest)
       /\ starts_terminator no_class rest = true
       /\ (forall k, (k < length span)%nat ->
                     starts_terminator no_class (skipn k (span ++ rest)) = false)
       /\ permissions (analyze full_dump)
          = sorted (set_of (findall1
                      (regex_of no_class no_class no_class P_requested_perm) span))
       /\ occurs_in (str "android.permission.CAMERA") span
       /\ permission_shaped no_class no_class no_class
            (str "android.permission.CAMERA").
Proof.
  assert (Hin : In (str "android.permission.CAMERA")
                   (permissions (analyze full_dump))).
  { vm_compute. left. reflexivity. }
  split; [exact Hin|].
  exact (requested_permissions_come_from_span no_class no_class no_class
           full_dump _ Hin).
Defined.

(** C5 as stated fails: the statuses of the records are the words
    success, warning and danger of the program; none of them is one of ok,
    caution and blocked. *)
Lemma status_words_are_not_ok_caution_blocked :
  map status (domains (app_links all_codes_output))
  = [str "success"; str "success"; str "warning"; str "danger"]
  /\ forall st, In st (map status (domains (app_links all_codes_output))) ->
                ~ In st [str "ok"; str "caution"; str "blocked"].
Proof.
  assert (E : map status (domains (app_links all_codes_output))
              = [str "success"; str "success"; str "warning"; str "danger"])
    by (vm_compute; reflexivity).
  split; [exact E|]. rewrite E. intros st H K.
  cbn [In] in H, K.
  destruct H as [<-|[<-|[<-|[<-|[]]]]];
    destruct K as [K|[K|[K|[]]]]; vm_compute in K; discriminate K.
Qed.

(** The amended C5 at a code that the table does not name. *)
Lemma severity_is_table_of_code_and_flag_witness :
  In other_code_record (domains (app_links other_code_output))
  /\ exists desc st,
       table_row (code other_code_record) desc st
       /\ (if is_disabled other_code_output (domain other_code_record)
           then description other_code_record = desc ++ user_disabled_suffix
                /\ status other_code_record = str "danger"
           else description other_code_record = desc
                /\ status other_code_record = st)
       /\ In (status other_code_record) status_words.
Proof.
  assert (Hin : In other_code_record (domains (app_links other_code_output))).
  { vm_compute. left. reflexivity. }
  split; [exact Hin|].
  exact (proj1 (severity_is_table_of_code_and_flag no_class no_class no_class
                  no_decimal default_max_str_digits)
           other_code_output other_code_record Hin).
Defined.

(** C9 where only the longer domain is listed. *)
Lemma disabled_check_is_substring_containment_witness :
  is_disabled sub_only_output (str "example.com") = true
  /\ occurs_in (disabled_marker ++ nl) sub_only_output
  /\ exists seg, disabled_section sub_only_output seg
                 /\ occurs_in (str "example.com") seg.
Proof.
  assert (D : is_disabled sub_only_output (str "example.com") = true).
  { vm_compute. reflexivity. }
  split; [exact D|].
  exact (proj1 (proj1 (disabled_check_is_substring_containment no_class no_class
                         no_class no_decimal default_max_str_digits)
                  sub_only_output (str "example.com")) D).
Defined.

(** C10 at a header that nothing ends: the pattern for permissions finds
    two identifiers in the text, and [permissions] stays empty. *)
Lemma unterminated_span_gives_no_permissions_witness :
  (forall pre rest, first_split requested_header no_terminator_dump pre rest ->
     forall a b, rest = a ++ b -> starts_terminator no_class b = false)
  /\ findall1 (regex_of no_class no_class no_class P_requested_perm)
       no_terminator_dump
     = [str "android.permission.INTERNET"; str "android.permission.CAMERA"]
  /\ permissions (analyze no_terminator_dump) = [].
Proof.
  assert (H : forall pre rest,
                first_split requested_header no_terminator_dump pre rest ->
                forall a b, rest = a ++ b -> starts_terminator no_class b = false).
  { intros pre rest [E _] a b Eb.
    apply (terminator_free_spec no_class no_terminator_dump
             ltac:(vm_compute; reflexivity) (pre ++ requested_header ++ a) b).
    rewrite E, Eb. now rewrite <- !app_assoc. }
  split; [exact H|]. split; [vm_compute; reflexivity|].
  exact (unterminated_span_gives_no_permissions no_class no_class no_class
           no_terminator_dump H).
Defined.

(** C6 as stated fails: [scheme_only_dump] has no identity marker, and its
    set of schemes is not empty. *)
Lemma schemes_without_identity_markers :
  ~ occurs_in (str "versionName=") scheme_only_dump
  /\ ~ occurs_in (str "versionCode=") scheme_only_dump
  /\ ~ occurs_in (str "userId=") scheme_only_dump
  /\ ~ occurs_in (str "appId=") scheme_only_dump
  /\ ~ occurs_in (str "dataDir=") scheme_only_dump
  /\ schemes (analyze scheme_only_dump) = [str "https"]
  /\ schemes (analyze scheme_only_dump) <> [].
Proof.
  repeat (split; [apply not_occurs; vm_compute; reflexivity|]).
  split; [vm_compute; reflexivity | vm_compute; discriminate].
Qed.

(** The amended C6 at the same text, at a text that has identity markers
    and no marker of a set, and at the scenario of the specification. *)
Lemma defaults_follow_own_markers_witness :
  (~ occurs_in (str "versionName=") scheme_only_dump
   /\ ~ occurs_in (str "versionCode=") scheme_only_dump
   /\ ~ occurs_in (str "userId=") scheme_only_dump
   /\ ~ occurs_in (str "appId=") scheme_only_dump
   /\ ~ occurs_in (str "dataDir=") scheme_only_dump
   /\ version_name (analyze scheme_only_dump) = unknown
   /\ version_code (analyze scheme_only_dump) = unknown
   /\ user_id (analyze scheme_only_dump) = unknown
   /\ data_dir (analyze scheme_only_dump) = unknown)
  /\ (occurs_in (str "versionName=") identity_dump
      /\ ~ occurs_in requested_header identity_dump
      /\ ~ occurs_in (str ".permission.") identity_dump
      /\ ~ occurs_in (str "Scheme: " ++ dq) identity_dump
      /\ ~ occurs_in (str "Provider{") identity_dump
      /\ ~ occurs_in (str "Action: " ++ dq) identity_dump
      /\ ~ occurs_in (str "Category: " ++ dq) identity_dump
      /\ permissions (analyze identity_dump) = []
      /\ granted_permissions (analyze identity_dump) = []
      /\ schemes (analyze identity_dump) = []
      /\ providers (analyze identity_dump) = []
      /\ intent_actions (analyze identity_dump) = []
      /\ intent_categories (analyze identity_dump) = [])
  /\ (first_split (str "versionName=") version_name_dump (str "    ")
        (str "2.3.1" ++ nl ++ str "    dataDir=/data/user/0/com.x")
      /\ ends_value no_class (nl ++ str "    dataDir=/data/user/0/com.x")
      /\ ~ occurs_in (str "versionCode=") version_name_dump
      /\ version_name (analyze version_name_dump) = str "2.3.1"
      /\ version_code (analyze version_name_dump) = unknown).
Proof.
  assert (N1 : ~ occurs_in (str "versionName=") scheme_only_dump)
    by (apply not_occurs; vm_compute; reflexivity).
  assert (N2 : ~ occurs_in (str "versionCode=") scheme_only_dump)
    by (apply not_occurs; vm_compute; reflexivity).
  assert (N3 : ~ occurs_in (str "userId=") scheme_only_dump)
    by (apply not_occurs; vm_compute; reflexivity).
  assert (N4 : ~ occurs_in (str "appId=") scheme_only_dump)
    by (apply not_occurs; vm_compute; reflexivity).
  assert (N5 : ~ occurs_in (str "dataDir=") scheme_only_dump)
    by (apply not_occurs; vm_compute; reflexivity).
  assert (O : occurs_in (str "versionName=") identity_dump)
    by (exists [], (str "1.0 versionCode=7 userId=10050"); reflexivity).
  assert (M1 : ~ occurs_in requested_header identity_dump)
    by (apply not_occurs; vm_compute; reflexivity).
  assert (M2 : ~ occurs_in (str ".permission.") identity_dump)
    by (apply not_occurs; vm_compute; reflexivity).
  assert (M3 : ~ occurs_in (str "Scheme: " ++ dq) identity_dump)
    by (apply not_occurs; vm_compute; reflexivity).
  assert (M4 : ~ occurs_in (str "Provider{") identity_dump)
    by (apply not_occurs; vm_compute; reflexivity).
  assert (M5 : ~ occurs_in (str "Action: " ++ dq) identity_dump)
    by (apply not_occurs; vm_compute; reflexivity).
  assert (M6 : ~ occurs_in (str "Category: " ++ dq) identity_dump)
    by (apply not_occurs; vm_compute; reflexivity).
  assert (F : first_split (str "versionName=") version_name_dump (str "    ")
                (str "2.3.1" ++ nl ++ str "    dataDir=/data/user/0/com.x"))
    by (apply find_first; vm_compute; reflexivity).
  assert (V : ends_value no_class (nl ++ str "    dataDir=/data/user/0/com.x")).
  { right. exists 10, (str "    dataDir=/data/user/0/com.x").
    split; reflexivity. }
  assert (N : ~ occurs_in (str "versionCode=") version_name_dump)
    by (apply not_occurs; vm_compute; reflexivity).
  split; [|split].
  - destruct (proj1 (defaults_follow_own_markers no_class no_class no_class)
                scheme_only_dump N1 N2 N3 N4 N5) as (R1 & R2 & R3 & R4).
    repeat (split; [assumption|]). assumption.
  - destruct (proj1 (proj2 (defaults_follow_own_markers no_class no_class
                              no_class)) identity_dump)
      as (S1 & S2 & S3 & S4 & S5 & S6).
    split; [exact O|].
    repeat (split; [assumption|]).
    split; [exact (S1 M1)|]. split; [exact (S2 M2)|]. split; [exact (S3 M3)|].
    split; [exact (S4 M4)|]. split; [exact (S5 M5) | exact (S6 M6)].
  - split; [exact F|]. split; [exact V|]. split; [exact N|].
    exact (proj2 (proj2 (proj2 (defaults_follow_own_markers no_class no_class
                                  no_class)))
             version_name_dump _ _ F V N).
Defined.

(** A remark on the handler at [identity_dump]: were the search for the
    version code to raise, the version name would be kept and the user id,
    which the function extracts, would stay Unknown. *)
Lemma raising_search_leaves_later_fields :
  version_name (analyze_with (raising_on no_class no_class no_class P_versionCode)
                  identity_dump) = str "1.0"
  /\ user_id (analyze_with (raising_on no_class no_class no_class P_versionCode)
                identity_dump) = unknown
  /\ user_id (analyze identity_dump) = str "10050".
Proof. repeat split; vm_compute; reflexivity. Qed.

(** C8 as stated fails: the date token of [date_last_line] is located, it
    is the last of seven tokens, and the line gives no entry. *)
Lemma date_as_last_token_gives_no_entry :
  find_date no_class 0 (split_ws no_class (strip no_class date_last_line)) = 6
  /\ length (split_ws no_class (strip no_class date_last_line)) = 7%nat
  /\ ls date_last_line = [].
Proof. repeat split; vm_compute; reflexivity. Qed.

(** When the date is the first token, [parts[date_idx-1]] is the last
    token of the line, and that becomes the size. *)
Lemma date_as_first_token_takes_the_last_as_size :
  find_date no_class 0 (split_ws no_class (strip no_class date_first_line)) = 0
  /\ map (fun f => (size f, date f, name f)) (ls date_first_line)
     = [(str "e", str "2023-05-01 10:00", str "a b c d e")].
Proof. split; vm_compute; reflexivity. Qed.

(** The amended C8 at the line of the scenario, whose date is token 5,
    as the second of three lines. *)
Lemma date_token_delimits_size_date_and_name_witness :
  let l := strip no_class sample_ls_line in
  let parts := split_ws no_class l in
  Str.split nl sample_listing = [str "total 12"] ++ sample_ls_line :: [dir_ls_line]
  /\ l <> []
  /\ Str.startswith (str "total ") l = false
  /\ (7 <= length parts)%nat
  /\ date_at no_class parts 5
  /\ (1 <= 5)%nat
  /\ (5 + 1 < length parts)%nat
  /\ exists es_before es_after,
       ls sample_listing =
         es_before
         ++ {| name := Str.join (str " ") (skipn (5 + 2) parts);
               type := kind_of (nth 0 parts []);
               size := nth (5 - 1) parts [];
               date := nth 5 parts [] ++ str " " ++ nth (5 + 1) parts [];
               perms := nth 0 parts [];
               raw_line := l |}
         :: es_after
       /\ (forall f, In f es_before ->
             exists l0, In l0 [str "total 12"] /\ raw_line f = strip no_class l0)
       /\ (forall f, In f es_after ->
             exists l0, In l0 [dir_ls_line] /\ raw_line f = strip no_class l0).
Proof.
  intros l parts.
  assert (H0 : Str.split nl sample_listing
               = [str "total 12"] ++ sample_ls_line :: [dir_ls_line])
    by (vm_compute; reflexivity).
  assert (H1 : l <> []) by (vm_compute; discriminate).
  assert (H2 : Str.startswith (str "total ") l = false) by (vm_compute; reflexivity).
  assert (H3 : (7 <= length parts)%nat) by (vm_compute; lia).
  assert (H4 : date_at no_class parts 5).
  { apply (find_date_located no_class parts 0 5 ltac:(lia)).
    vm_compute. reflexivity. }
  assert (H5 : (1 <= 5)%nat) by lia.
  assert (H6 : (5 + 1 < length parts)%nat) by (vm_compute; lia).
  repeat (split; [assumption|]).
  exact (proj1 (proj2 (date_token_delimits_size_date_and_name no_class no_class))
           sample_listing [str "total 12"] sample_ls_line [dir_ls_line] 5%nat
           H0 H1 H2 H3 H4 H5 H6).
Defined.

(** * Further properties at concrete inputs *)

(** X2 where the first [versionName=] has no value. *)
Lemma identity_fields_are_values_of_the_text_witness :
  has_value (str "versionName=") (not_space no_class) second_key_dump
  /\ first_value (str "versionName=") (not_space no_class) second_key_dump
       (version_name (analyze second_key_dump))
  /\ version_name (analyze second_key_dump) = str "2.0"
  /\ ~ has_value (str "versionCode=") (is_digit no_class) second_key_dump
  /\ version_code (analyze second_key_dump) = unknown.
Proof.
  assert (H : has_value (str "versionName=") (not_space no_class)
                second_key_dump)
    by (apply has_value_search; vm_compute; discriminate).
  assert (N : ~ has_value (str "versionCode=") (is_digit no_class)
                second_key_dump).
  { intros K. apply has_value_search in K. apply K. vm_compute. reflexivity. }
  split; [exact H|].
  split; [exact (proj1 (proj1 (identity_fields_are_values_of_the_text
                                 no_class no_class no_class second_key_dump)) H)|].
  split; [vm_compute; reflexivity|].
  split; [exact N|].
  exact (proj2 (proj1 (proj2 (identity_fields_are_values_of_the_text
                                no_class no_class no_class second_key_dump))) N).
Defined.

(** X3 where an [appId=] stands before the [userId=], and where the
    [userId=] is followed by letters. *)
Lemma user_id_prefers_userId_to_appId_witness :
  (has_value (str "userId=") (is_digit no_class) both_ids_dump
   /\ first_value (str "userId=") (is_digit no_class) both_ids_dump
        (user_id (analyze both_ids_dump))
   /\ user_id (analyze both_ids_dump) = str "10050")
  /\ (~ has_value (str "userId=") (is_digit no_class) letters_userId_dump
      /\ has_value (str "appId=") (is_digit no_class) letters_userId_dump
      /\ first_value (str "appId=") (is_digit no_class) letters_userId_dump
           (user_id (analyze letters_userId_dump))
      /\ user_id (analyze letters_userId_dump) = str "123").
Proof.
  assert (H1 : has_value (str "userId=") (is_digit no_class) both_ids_dump)
    by (apply has_value_search; vm_compute; discriminate).
  assert (N2 : ~ has_value (str "userId=") (is_digit no_class)
                 letters_userId_dump).
  { intros K. apply has_value_search in K. apply K. vm_compute. reflexivity. }
  assert (H2 : has_value (str "appId=") (is_digit no_class) letters_userId_dump)
    by (apply has_value_search; vm_compute; discriminate).
  split.
  - split; [exact H1|].
    split; [exact (proj1 (user_id_prefers_userId_to_appId no_class no_class
                            no_class both_ids_dump) H1)|].
    vm_compute. reflexivity.
  - split; [exact N2|]. split; [exact H2|].
    split; [exact (proj1 (proj2 (user_id_prefers_userId_to_appId no_class
                                   no_class no_class letters_userId_dump))
                     N2 H2)|].
    vm_compute. reflexivity.
Defined.

(** X4 at the scheme of [full_dump]. *)
Lemma quoted_fields_are_values_of_the_text_witness :
  In (str "https") (schemes (analyze full_dump))
  /\ quoted_value (str "https")
  /\ occurs_in (str "Scheme: " ++ dq ++ str "https" ++ dq) full_dump
  /\ str "https" <> str "android.intent.category.DEFAULT"
  /\ str "https" <> str "android.intent.category.BROWSABLE".
Proof.
  assert (Hin : In (str "https") (schemes (analyze full_dump)))
    by (vm_compute; left; reflexivity).
  split; [exact Hin|].
  exact (proj1 (quoted_fields_are_values_of_the_text no_class no_class no_class
                  full_dump (str "https")) Hin).
Defined.

(** X5 at a permission of the install span of [full_dump]. *)
Lemma granted_permissions_have_two_sources_witness :
  In (str "android.permission.WAKE_LOCK")
     (granted_permissions (analyze full_dump))
  /\ permission_like no_class (str "android.permission.WAKE_LOCK")
  /\ ((exists sp, forallb (is_space no_class) sp = true
         /\ occurs_in (str "android.permission.WAKE_LOCK" ++ str ":" ++ sp
                       ++ str "granted=true") full_dump)
      \/ (exists span, install_span no_class full_dump span
            /\ occurs_in (str "android.permission.WAKE_LOCK") span)).
Proof.
  assert (Hin : In (str "android.permission.WAKE_LOCK")
                   (granted_permissions (analyze full_dump)))
    by (vm_compute; right; right; left; reflexivity).
  split; [exact Hin|].
  exact (granted_permissions_have_two_sources no_class no_class no_class
           full_dump _ Hin).
Defined.

(** X7 at the bytes of the scenario. *)
Lemma extracted_strings_are_printable_runs_witness :
  In (str "hithere") (extract_strings_from_bytes sample_bytes 4)
  /\ (4 <= length (str "hithere"))%nat
  /\ forallb printable (str "hithere") = true
  /\ exists t pre post,
       Utf8.decode Utf8.ignore sample_bytes = Some t
       /\ t = pre ++ str "hithere" ++ post
       /\ run_ends printable post.
Proof.
  assert (Hin : In (str "hithere") (extract_strings_from_bytes sample_bytes 4))
    by (vm_compute; left; reflexivity).
  split; [exact Hin|].
  exact (extracted_strings_are_printable_runs sample_bytes 4 _ Hin).
Defined.

(** X8 at the bytes of hello. *)
Lemma printable_bytes_are_one_string_witness :
  (1 <= 4 <= length hello_bytes)%nat
  /\ Forall (fun b => printable (Utf8.byte_val b) = true) hello_bytes
  /\ extract_strings_from_bytes hello_bytes 4 = [map Utf8.byte_val hello_bytes].
Proof.
  assert (H1 : (1 <= 4 <= length hello_bytes)%nat) by (cbn; lia).
  assert (H2 : Forall (fun b => printable (Utf8.byte_val b) = true) hello_bytes)
    by (repeat constructor).
  split; [exact H1|]. split; [exact H2|].
  exact (printable_bytes_are_one_string hello_bytes 4 H1 H2).
Defined.

(** X10 at a text with a two-byte character. *)
Lemma valid_utf8_is_shown_exactly_witness :
  Utf8.decode Utf8.strict cafe_bytes = Some [99; 97; 102; 233]
  /\ exists r, read_file_content (str "/sdcard/x") cafe_bytes = Some r
       /\ fc_content r = [99; 97; 102; 233]
       /\ fc_strings r = findall0 (Rep printable 4 None) [99; 97; 102; 233].
Proof.
  assert (H : Utf8.decode Utf8.strict cafe_bytes = Some [99; 97; 102; 233])
    by reflexivity.
  split; [exact H|].
  exact (valid_utf8_is_shown_exactly (str "/sdcard/x") cafe_bytes _ H).
Defined.

(** X11 at an output without the header. *)
Lemma no_verification_header_no_domains_witness :
  ~ occurs_in verification_header (str "Failure: package not found")
  /\ app_links (str "Failure: package not found")
     = {| domains := []; raw := str "Failure: package not found" |}.
Proof.
  assert (N : ~ occurs_in verification_header (str "Failure: package not found"))
    by (apply not_occurs; vm_compute; reflexivity).
  split; [exact N|].
  exact (no_verification_header_no_domains no_class no_class no_class no_decimal
           default_max_str_digits _ N).
Defined.

(** X12 at the scenario of the specification. *)
Lemma records_come_from_the_verification_section_witness :
  In scenario_record (domains (app_links scenario_output))
  /\ domain scenario_record <> []
  /\ forallb (word_or no_class (str ".-")) (domain scenario_record) = true
  /\ exists block digits,
       verification_block scenario_output block
       /\ domain_line no_class block (domain scenario_record) digits
       /\ digits <> [] /\ forallb (is_digit no_class) digits = true
       /\ code scenario_record = int_value no_decimal digits.
Proof.
  assert (Hin : In scenario_record (domains (app_links scenario_output)))
    by (vm_compute; left; reflexivity).
  split; [exact Hin|].
  exact (records_come_from_the_verification_section no_class no_class no_class
           no_decimal default_max_str_digits scenario_output _ Hin).
Defined.

(** X13 at the same record. *)
Lemma codes_are_not_negative_witness :
  (forall c, 0 <= zero_decimal c)
  /\ In scenario_record
        (domains (get_app_links_state no_class no_class no_class zero_decimal
                    default_max_str_digits scenario_output))
  /\ 0 <= code scenario_record.
Proof.
  assert (Hdb : forall c, 0 <= zero_decimal c) by (intros c; unfold zero_decimal; lia).
  assert (Hin : In scenario_record
                   (domains (get_app_links_state no_class no_class no_class
                               zero_decimal default_max_str_digits
                               scenario_output)))
    by (vm_compute; left; reflexivity).
  split; [exact Hdb|]. split; [exact Hin|].
  exact (codes_are_not_negative no_class no_class no_class zero_decimal
           default_max_str_digits scenario_output _ Hdb Hin).
Defined.

(** X14 at the line of the scenario. *)
Lemma kind_follows_the_permissions_witness :
  In sample_entry (ls sample_ls_line)
  /\ type sample_entry = kind_of (perms sample_entry)
  /\ token no_class (perms sample_entry)
  /\ nth_error (split_ws no_class (raw_line sample_entry)) 0
     = Some (perms sample_entry).
Proof.
  assert (Hin : In sample_entry (ls sample_ls_line))
    by (vm_compute; left; reflexivity).
  split; [exact Hin|].
  exact (kind_follows_the_permissions no_class no_class sample_ls_line _ Hin).
Defined.

(** X15 at the line of the scenario. *)
Lemma entries_are_lines_of_seven_tokens_witness :
  In sample_entry (ls sample_ls_line)
  /\ (exists line, In line (Str.split nl sample_ls_line)
                   /\ raw_line sample_entry = strip no_class line)
  /\ raw_line sample_entry <> []
  /\ Str.startswith (str "total ") (raw_line sample_entry) = false
  /\ (7 <= length (split_ws no_class (raw_line sample_entry)))%nat.
Proof.
  assert (Hin : In sample_entry (ls sample_ls_line))
    by (vm_compute; left; reflexivity).
  split; [exact Hin|].
  exact (proj1 (entries_are_lines_of_seven_tokens no_class no_class
                  sample_ls_line) _ Hin).
Defined.

(** X16 at the line of the scenario. *)
Lemma name_is_tokens_joined_by_single_spaces_witness :
  In sample_entry (ls sample_ls_line)
  /\ exists toks, name sample_entry = Str.join (str " ") toks
                  /\ Forall (token no_class) toks.
Proof.
  assert (Hin : In sample_entry (ls sample_ls_line))
    by (vm_compute; left; reflexivity).
  split; [exact Hin|].
  exact (name_is_tokens_joined_by_single_spaces no_class no_class
           sample_ls_line _ Hin).
Defined.

(** X17 at the line of the scenario. *)
Lemma date_is_the_first_date_token_and_the_next_witness :
  In sample_entry (ls sample_ls_line)
  /\ exists i d0 d1,
       date sample_entry = d0 ++ str " " ++ d1
       /\ date_at no_class (split_ws no_class (raw_line sample_entry)) i
       /\ nth_error (split_ws no_class (raw_line sample_entry)) i = Some d0
       /\ nth_error (split_ws no_class (raw_line sample_entry)) (i + 1) = Some d1
       /\ begins_with_date no_class d0 /\ token no_class d0 /\ token no_class d1.
Proof.
  assert (Hin : In sample_entry (ls sample_ls_line))
    by (vm_compute; left; reflexivity).
  split; [exact Hin|].
  exact (date_is_the_first_date_token_and_the_next no_class no_class
           sample_ls_line _ Hin).
Defined.

Notation "'files'" := (list_files_in_path no_class no_class) (only parsing).

(** X19 at the output for one emulator. *)
Lemma devices_come_from_lines_after_the_first_witness :
  In sample_device (list_devices no_class (Value devices_output))
  /\ exists line,
       In line (tl (Str.split nl devices_output))
       /\ strip no_class line <> []
       /\ ~ occurs_in nl line
       /\ (line = device_line sample_device
           \/ exists more, line = device_line sample_device ++ tab ++ more)
       /\ ~ occurs_in tab (dev_id sample_device)
       /\ ~ occurs_in tab (dev_status sample_device).
Proof.
  assert (Hin : In sample_device (list_devices no_class (Value devices_output)))
    by (vm_compute; left; reflexivity).
  split; [exact Hin|].
  exact (devices_come_from_lines_after_the_first no_class devices_output _ Hin).
Defined.

(** X20 at the same device. *)
Lemma list_devices_reads_back_witness :
  ~ occurs_in nl devices_header
  /\ Forall (printable_device no_class) [sample_device]
  /\ list_devices no_class
       (Value (Str.join nl (devices_header :: map device_line [sample_device])))
     = [sample_device].
Proof.
  assert (H1 : ~ occurs_in nl devices_header)
    by (apply not_occurs; vm_compute; reflexivity).
  assert (H2 : Forall (printable_device no_class) [sample_device]).
  { constructor; [|constructor].
    repeat (split; [apply not_occurs; vm_compute; reflexivity|]).
    exists 101. split; [vm_compute; tauto | reflexivity]. }
  split; [exact H1|]. split; [exact H2|].
  exact (list_devices_reads_back no_class devices_header [sample_device] H1 H2).
Defined.

(** X21 at the line of the scenario, with a second command that fails. *)
Lemma listing_is_the_parsed_entries_reordered_witness :
  ~ occurs_in (str "Permission denied") sample_ls_line
  /\ ~ occurs_in (str "No such file") sample_ls_line
  /\ ls_error (files (str "/sdcard") (Value sample_ls_line) (Raised (str "500: adb")))
     = None
  /\ Permutation
       (map entry (ls_files (files (str "/sdcard") (Value sample_ls_line)
                                   (Raised (str "500: adb")))))
       (ls sample_ls_line).
Proof.
  assert (H1 : ~ occurs_in (str "Permission denied") sample_ls_line)
    by (apply not_occurs; vm_compute; reflexivity).
  assert (H2 : ~ occurs_in (str "No such file") sample_ls_line)
    by (apply not_occurs; vm_compute; reflexivity).
  split; [exact H1|]. split; [exact H2|].
  exact (proj1 (listing_is_the_parsed_entries_reordered no_class no_class
                  (str "/sdcard") sample_ls_line (Raised (str "500: adb")))
               H1 H2).
Defined.

(** X23 at the line of the scenario and a description of its file. *)
Lemma magic_is_set_for_files_only_witness :
  In sample_item
     (ls_files (files (str "/sdcard") (Value sample_ls_line) (Value sample_magic)))
  /\ (forall msg, Value sample_magic = Raised msg -> magic sample_item = None)
  /\ (forall m, Value sample_magic = Value m ->
        (magic sample_item <> None <-> type (entry sample_item) = str "file")).
Proof.
  assert (Hin : In sample_item
                   (ls_files (files (str "/sdcard") (Value sample_ls_line)
                                    (Value sample_magic))))
    by (vm_compute; left; reflexivity).
  split; [exact Hin|].
  exact (magic_is_set_for_files_only no_class no_class (str "/sdcard")
           sample_ls_line (Value sample_magic) sample_item Hin).
Defined.

(** X24 at the same listing. *)
Lemma magic_is_the_last_description_of_the_name_witness :
  In sample_item
     (ls_files (files (str "/sdcard") (Value sample_ls_line) (Value sample_magic)))
  /\ type (entry sample_item) = str "file"
  /\ exists before line after,
       Str.split nl sample_magic = before ++ line :: after
       /\ described no_class line (str "my file.txt") (str "ASCII text")
       /\ forall l d', In l after
                       -> ~ described no_class l (str "my file.txt") d'.
Proof.
  assert (Hin : In sample_item
                   (ls_files (files (str "/sdcard") (Value sample_ls_line)
                                    (Value sample_magic))))
    by (vm_compute; left; reflexivity).
  assert (Ht : type (entry sample_item) = str "file") by reflexivity.
  split; [exact Hin|]. split; [exact Ht|].
  exact (magic_is_the_last_description_of_the_name no_class no_class
           (str "/sdcard") sample_ls_line sample_magic sample_item Hin Ht).
Defined.

Notation "'packages'" := (list_packages_detailed no_class) (only parsing).

(** X25 at two names. *)
Lemma package_names_read_back_witness :
  Forall (listed_name no_class) sample_names
  /\ exists r,
       packages (str "emulator-5554")
         (Value (Str.join nl (map package_line sample_names)))
         (Value sample_dump) = Some r
       /\ map pk_name (pl_packages r) = sample_names
       /\ pl_total_count r = Z.of_nat (length sample_names)
       /\ pl_device_id r = str "emulator-5554".
Proof.
  assert (H : Forall (listed_name no_class) sample_names).
  { repeat constructor; try discriminate;
      apply not_occurs; vm_compute; reflexivity. }
  split; [exact H|].
  exact (package_names_read_back no_class (str "emulator-5554") sample_names
           (Value sample_dump) H).
Defined.

(** X26 at the package that has a block in the dump. *)
Lemma package_times_come_from_the_dump_witness :
  packages (str "emulator-5554")
    (Value (Str.join nl (map package_line sample_names))) (Value sample_dump)
  = Some sample_answer
  /\ In example_app (pl_packages sample_answer)
  /\ pk_installTime example_app <> []
  /\ (pk_installTime example_app = not_available
      \/ (exists line,
            In line (Str.split nl sample_dump)
            /\ keyed_value no_class (str "firstInstallTime=") line
                 (pk_installTime example_app))
      \/ (exists line,
            In line (Str.split nl sample_dump)
            /\ ~ occurs_in (str "firstInstallTime=") (strip no_class line)
            /\ keyed_value no_class (str "timeStamp=") line
                 (pk_installTime example_app)))
  /\ (pk_updateTime example_app = None
      \/ pk_updateTime example_app = Some not_available
      \/ (exists line v,
            pk_updateTime example_app = Some v
            /\ In line (Str.split nl sample_dump)
            /\ ~ occurs_in (str "firstInstallTime=") (strip no_class line)
            /\ ~ occurs_in (str "timeStamp=") (strip no_class line)
            /\ keyed_value no_class (str "lastUpdateTime=") line v)).
Proof.
  assert (E : packages (str "emulator-5554")
                (Value (Str.join nl (map package_line sample_names)))
                (Value sample_dump) = Some sample_answer)
    by (vm_compute; reflexivity).
  assert (Hin : In example_app (pl_packages sample_answer)) by (left; reflexivity).
  split; [exact E|]. split; [exact Hin|].
  exact (package_times_come_from_the_dump no_class (str "emulator-5554") _
           (Value sample_dump) sample_answer example_app E Hin).
Defined.

Lemma no_header_in (lines : list text) (n : text) :
  forallb (fun l => negb (Str.startswith (str "Package [" ++ n ++ str "]")
                                         (strip no_class l))) lines = true ->
  forall line, In line lines -> ~ header_of no_class line n.
Proof.
  intros H line Hl [rest Hr]. rewrite forallb_forall in H.
  specialize (H line Hl). rewrite Hr in H.
  replace (str "Package [" ++ n ++ str "]" ++ rest)
    with ((str "Package [" ++ n ++ str "]") ++ rest) in H
    by (rewrite <- !app_assoc; reflexivity).
  rewrite startswith_app in H. discriminate.
Qed.

(** X27 at the package that has no block in the dump. *)
Lemma packages_without_a_block_are_not_available_witness :
  packages (str "emulator-5554")
    (Value (Str.join nl (map package_line sample_names))) (Value sample_dump)
  = Some sample_answer
  /\ In chrome (pl_packages sample_answer)
  /\ (forall line, In line (Str.split nl sample_dump)
                   -> ~ header_of no_class line (pk_name chrome))
  /\ pk_installTime chrome = not_available
  /\ pk_updateTime chrome = Some not_available.
Proof.
  assert (E : packages (str "emulator-5554")
                (Value (Str.join nl (map package_line sample_names)))
                (Value sample_dump) = Some sample_answer)
    by (vm_compute; reflexivity).
  assert (Hin : In chrome (pl_packages sample_answer))
    by (right; left; reflexivity).
  assert (Hno : forall line, In line (Str.split nl sample_dump)
                             -> ~ header_of no_class line (pk_name chrome))
    by (apply no_header_in; vm_compute; reflexivity).
  split; [exact E|]. split; [exact Hin|]. split; [exact Hno|].
  exact (packages_without_a_block_are_not_available no_class
           (str "emulator-5554") _ sample_dump sample_answer chrome E Hin Hno).
Defined.
